(** * OpenJazzNX: video output (src/io/gfx/video.cpp) and file codecs (src/io/file.h)

    A shallow embedding of the palette-indexed video layer of the SDL2 build
    of OpenJazz, and of the byte-stream codecs declared in file.h.

    Build configuration embedded here: [SDL2] defined (file.h defines it),
    [SCALE], [NO_RESIZE], [FULLSCREEN_ONLY], [WIZ], [GP2X], [CAANOO] and
    [GAMESHELL] undefined.  In that configuration the global [canvas] is
    always the same surface as [Video::screen].

    C integers are [Z] with their wrap-around written out; C arrays are
    lists read and written by index; a C function that can run into a null
    dereference or an out-of-bounds read returns [option], [None] standing
    for that undefined behaviour. *)

From Stdlib Require Import ZArith Lia.
From Equations Require Import Equations.
From stdpp Require Import base option list gmap.

Local Open Scope Z_scope.

(** ** Machine integers *)

(** Conversion of an integer to [int] (two's complement, 32 bits). *)
Definition to_int32 (x : Z) : Z := (x + 2147483648) mod 4294967296 - 2147483648.

(** Conversion to [uint32_t]. *)
Definition to_uint32 (x : Z) : Z := Z.land x 4294967295.

(** Conversion to [uint8_t] / [unsigned char]. *)
Definition to_uint8 (x : Z) : Z := Z.land x 255.

(** ** SDL data *)

(** [SDL_Color]: four bytes. *)
Record SDL_Color := mkColor { r : Z; g : Z; b : Z; a : Z }.

#[global] Instance SDL_Color_eq_dec : EqDecision SDL_Color.
Proof. solve_decision. Defined.

#[global] Instance SDL_Color_inhabited : Inhabited SDL_Color :=
  populate (mkColor 0 0 0 0).

(** The part of [SDL_Surface] the video layer touches.  [pixels] holds one
    entry per pixel unit (a byte when [BitsPerPixel] is 8, a 32-bit word when
    it is 32); [pitch] is the length of a row in bytes; [palette] is
    [format->palette->colors], [None] when [format->palette] is NULL. *)
Record SDL_Surface := mkSurface {
  w : Z;
  h : Z;
  pitch : Z;
  BitsPerPixel : Z;
  pixels : list Z;
  palette : option (list SDL_Color)
}.

Definition BytesPerPixel (s : SDL_Surface) : Z := (BitsPerPixel s + 7) / 8.

Definition with_pixels (s : SDL_Surface) (px : list Z) : SDL_Surface :=
  mkSurface (w s) (h s) (pitch s) (BitsPerPixel s) px (palette s).

Definition with_palette (s : SDL_Surface) (pal : option (list SDL_Color)) : SDL_Surface :=
  mkSurface (w s) (h s) (pitch s) (BitsPerPixel s) (pixels s) pal.

(** ** SDL2 routines called by video.cpp

    These belong to the SDL2 library, not to OpenJazz; they are embedded
    after the SDL2 reference implementation, restricted to what the calls in
    video.cpp exercise. *)

(** [SDL_SetPaletteColors(palette, colors, firstcolor, ncolors)].
    A NULL [palette] makes the call return -1 without touching anything.
    Otherwise [ncolors] is clamped to [palette->ncolors - firstcolor] and
    that many entries are copied from the start of [colors] to
    [palette->colors + firstcolor].  [colors] is the memory readable behind
    the pointer argument; a negative count after clamping or a read past the
    end of [colors] is undefined. *)
Definition SDL_SetPaletteColors (pal : option (list SDL_Color))
    (colors : list SDL_Color) (firstcolor ncolors : Z)
    : option (option (list SDL_Color)) :=
  match pal with
  | None => Some None
  | Some table =>
      let avail := Z.of_nat (length table) - firstcolor in
      let n := if ncolors >? avail then avail else ncolors in
      if (n <? 0) || (firstcolor <? 0) then None
      else if Z.of_nat (length colors) <? n then None
      else Some (Some (list_inserts (Z.to_nat firstcolor)
                                    (take (Z.to_nat n) colors) table))
  end.

(** [SDL_AllocPalette] fills a new palette with 0xFF bytes. *)
Definition white : SDL_Color := mkColor 255 255 255 255.

(** [SDL_CreateRGBSurface(flags, width, height, depth, masks...)] for the two
    depths video.cpp asks for (8 and 32).  Rows are padded to a multiple of
    four bytes, the pixel memory is zeroed, and an 8-bit surface gets a
    256-entry palette.  NULL is returned for a negative size or when
    [height * pitch] does not fit an [int]. *)
Definition SDL_CreateRGBSurface (width height depth : Z) : option SDL_Surface :=
  let bytespp := (depth + 7) / 8 in
  let row := Z.land (width * bytespp + 3) (Z.lnot 3) in
  if (width <? 0) || (height <? 0) || (2147483647 <? height * row) then None
  else Some (mkSurface width height row depth
               (replicate (Z.to_nat (row / bytespp * height)) 0)
               (if depth <=? 8 then Some (replicate (Z.to_nat (2 ^ depth)) white)
                else None)).

(** [SDL_Rect]. *)
Record SDL_Rect := mkRect { rect_x : Z; rect_y : Z; rect_w : Z; rect_h : Z }.

#[global] Instance SDL_Rect_eq_dec : EqDecision SDL_Rect.
Proof. solve_decision. Defined.

(** [SDL_FillRect(dst, rect, color)]: the rectangle is clipped to the
    [w] x [h] area of the surface (a NULL [rect] stands for that whole area),
    and every pixel inside takes the low [BitsPerPixel] bits of [color]; the
    padding at the end of each row is left alone.  With a NULL [dst] the call
    reports an error and does nothing.  The result is the surface behind
    [dst] after the call. *)
Definition SDL_FillRect (dst : option SDL_Surface) (rect : option SDL_Rect)
    (color : Z) : option SDL_Surface :=
  match dst with
  | None => None
  | Some s =>
      let units := pitch s / BytesPerPixel s in
      let value := Z.land color (2 ^ BitsPerPixel s - 1) in
      let inside col row :=
        match rect with
        | None => true
        | Some rc =>
            (rect_x rc <=? col) && (col <? rect_x rc + rect_w rc) &&
            (rect_y rc <=? row) && (row <? rect_y rc + rect_h rc)
        end in
      Some (with_pixels s
              (imap (fun i px =>
                       let col := Z.of_nat i mod units in
                       let row := Z.of_nat i / units in
                       if (col <? w s) && (row <? h s) && inside col row
                       then value else px)
                    (pixels s)))
  end.

(** [SDL_Event], as far as [Video::update] looks at it. *)
Inductive SDL_Event :=
  | SDL_KEYDOWN (sym : Z) (modifiers : Z)
  | SDL_OTHEREVENT (type : Z).

Definition SDLK_RETURN : Z := 13.
Definition KMOD_ALT : Z := 768.

(** ** The state of the video layer *)

(** A palette pointer held or received by [Video].  It points either at the
    [logicalPalette] member or at an array owned by the caller, identified by
    its address.  The colour table inside an SDL surface and the local
    [shownPalette] of [flip] are never handed out, so no such pointer can
    name them. *)
Inductive PalettePtr :=
  | LogicalPalettePtr
  | CallerPalette (addr : nat).

#[global] Instance PalettePtr_eq_dec : EqDecision PalettePtr.
Proof. solve_decision. Defined.

(** The members of [class Video] used in this build. *)
Record Video := mkVideo {
  screen : option SDL_Surface;
  helper_surface : option SDL_Surface;
  logicalPalette : list SDL_Color;
  currentPalette : PalettePtr;
  screenW : Z;
  screenH : Z;
  maxW : Z;
  maxH : Z;
  fullscreen : bool;
  fakePalette : bool
}.

(** What crosses the display boundary, in call order. *)
Inductive DisplayEvent :=
  | EvPresentCleared
  | EvSetPaletteColors (firstcolor : Z) (ncolors : Z) (colors : list SDL_Color)
  | EvFillRect (rect : option SDL_Rect) (color : Z)
  | EvApplyEffects (direct : bool)
  | EvPresent (frame : list Z).

#[global] Instance DisplayEvent_eq_dec : EqDecision DisplayEvent.
Proof. solve_decision. Defined.

(** The [Video] object together with what it shares with the rest of the
    program: the globals [canvasW] and [canvasH], the palette arrays owned by
    callers, and the log of calls made at the display boundary. *)
Record World := mkWorld {
  video : Video;
  canvasW : Z;
  canvasH : Z;
  memory : gmap nat (list SDL_Color);
  events : list DisplayEvent
}.

Definition set_video (m : World) (v : Video) : World :=
  mkWorld v (canvasW m) (canvasH m) (memory m) (events m).

Definition set_canvas_size (m : World) (cw ch : Z) : World :=
  mkWorld (video m) cw ch (memory m) (events m).

Definition log (m : World) (e : DisplayEvent) : World :=
  mkWorld (video m) (canvasW m) (canvasH m) (memory m) (events m ++ [e]).

Definition set_screen (v : Video) (s : option SDL_Surface) : Video :=
  mkVideo s (helper_surface v) (logicalPalette v) (currentPalette v)
          (screenW v) (screenH v) (maxW v) (maxH v) (fullscreen v) (fakePalette v).

Definition set_helper_surface (v : Video) (s : option SDL_Surface) : Video :=
  mkVideo (screen v) s (logicalPalette v) (currentPalette v)
          (screenW v) (screenH v) (maxW v) (maxH v) (fullscreen v) (fakePalette v).

Definition set_currentPalette (v : Video) (p : PalettePtr) : Video :=
  mkVideo (screen v) (helper_surface v) (logicalPalette v) p
          (screenW v) (screenH v) (maxW v) (maxH v) (fullscreen v) (fakePalette v).

Definition set_screen_size (v : Video) (sw sh : Z) : Video :=
  mkVideo (screen v) (helper_surface v) (logicalPalette v) (currentPalette v)
          sw sh (maxW v) (maxH v) (fullscreen v) (fakePalette v).

Definition set_max (v : Video) (mw mh : Z) : Video :=
  mkVideo (screen v) (helper_surface v) (logicalPalette v) (currentPalette v)
          (screenW v) (screenH v) mw mh (fullscreen v) (fakePalette v).

Definition set_fullscreen (v : Video) (f : bool) : Video :=
  mkVideo (screen v) (helper_surface v) (logicalPalette v) (currentPalette v)
          (screenW v) (screenH v) (maxW v) (maxH v) f (fakePalette v).

Definition set_fakePalette (v : Video) (f : bool) : Video :=
  mkVideo (screen v) (helper_surface v) (logicalPalette v) (currentPalette v)
          (screenW v) (screenH v) (maxW v) (maxH v) (fullscreen v) f.

(** Reading the array behind a palette pointer; [None] for a pointer to
    memory the caller does not (or no longer) own. *)
Definition deref (m : World) (p : PalettePtr) : option (list SDL_Color) :=
  match p with
  | LogicalPalettePtr => Some (logicalPalette (video m))
  | CallerPalette addr => memory m !! addr
  end.

(** [SDL_SetPaletteColors(screen->format->palette, colors, first, n)], the
    call shared by [setPalette], [changePalette], [expose] and [flip].
    Dereferencing a NULL [screen] is undefined. *)
Definition set_screen_palette (m : World) (colors : list SDL_Color)
    (firstcolor ncolors : Z) : option World :=
  scr ← screen (video m);
  pal ← SDL_SetPaletteColors (palette scr) colors firstcolor ncolors;
  Some (log (set_video m (set_screen (video m) (Some (with_palette scr pal))))
            (EvSetPaletteColors firstcolor ncolors
               (take (Z.to_nat ncolors) colors))).

(** The pixel written by the conversion loop of [flip]:
    [((r << 24) | (g << 16) | (b << 8)) | (0xff << 0)] stored in a
    [uint32_t]. *)
Definition RGBColor (c : SDL_Color) : Z :=
  to_uint32 (Z.lor (Z.lor (Z.lor (Z.shiftl (r c) 24) (Z.shiftl (g c) 16))
                          (Z.shiftl (b c) 8))
                   (Z.shiftl 255 0)).

(** A channel of a pixel in the layout of the texture
    ([SDL_PIXELFORMAT_RGBA8888]): red is [channel px 24], green
    [channel px 16], blue [channel px 8]. *)
Definition channel (px shift : Z) : Z := Z.land (Z.shiftr px shift) 255.

(** The conversion loop of [flip], run over the pixel positions [idxs]:
    [helper_surface->pixels[i]] becomes the colour that the table gives to
    the byte [screen->pixels[i]].  Reads and writes outside the pixel
    buffers are undefined. *)
Fixpoint remap_pixels (src : list Z) (table : list SDL_Color) (dst : list Z)
    (idxs : list nat) : option (list Z) :=
  match idxs with
  | [] => Some dst
  | i :: rest =>
      index ← src !! i;
      c ← table !! Z.to_nat (to_uint8 index);
      if decide (i < length dst)%nat
      then remap_pixels src table (<[i := RGBColor c]> dst) rest
      else None
  end.

(** ** The operations of video.cpp *)

Section VideoOperations.

(** The effect chain lives in paletteeffects.cpp, outside this file.
    [flip] calls [paletteEffects->apply(shownPalette, direct, mspf,
    effectsStopped)]; the call may advance the chain, rewrite the
    [shownPalette] array, and call back [video.changePalette(colors, first,
    amount)].  The parameter returns those three things: the chain after
    the call, the array after the call, and the call-backs in order. *)
Variable PaletteEffect : Type.
Variable PaletteEffect_apply :
  PaletteEffect → list SDL_Color → bool → Z → bool →
  PaletteEffect * list SDL_Color * list (list SDL_Color * Z * Z).

(** Constants of video.h. *)
Variable DEFAULT_SCREEN_WIDTH : Z.
Variable DEFAULT_SCREEN_HEIGHT : Z.

(** [SDL_MapRGB(surface->format, r, g, b)]: SDL's choice of a pixel value
    for a colour. *)
Variable SDL_MapRGB : SDL_Surface → Z → Z → Z → Z.

(** The loop of [Video::Video] that generates the logical palette:
    [logicalPalette[count].r = .g = .b = count] for [count] from 0 to 255.
    The fourth byte of each entry is not assigned. *)
Definition generate_logicalPalette (pal : list SDL_Color) : list SDL_Color :=
  foldl (fun pal count =>
           alter (fun c => mkColor (to_uint8 (Z.of_nat count))
                                   (to_uint8 (Z.of_nat count))
                                   (to_uint8 (Z.of_nat count)) (a c))
                 count pal)
        pal (seq 0 256).

(** [Video::Video], run on the raw memory [raw] of the object: the members
    it does not assign keep what the memory held. *)
Definition Video_Video (raw : Video) : Video :=
  let v1 := set_screen raw None in
  set_currentPalette
    (mkVideo (screen v1) (helper_surface v1)
             (generate_logicalPalette (logicalPalette v1)) (currentPalette v1)
             (screenW v1) (screenH v1) (maxW v1) (maxH v1)
             (fullscreen v1) (fakePalette v1))
    LogicalPalettePtr.

(** [Video::findMaxResolution], SDL2 branch. *)
Definition findMaxResolution (m : World) : World :=
  set_video m (set_max (video m) DEFAULT_SCREEN_WIDTH DEFAULT_SCREEN_HEIGHT).

(** [Video::expose]. *)
Definition expose (m : World) : option World :=
  m1 ← set_screen_palette m (logicalPalette (video m)) 0 256;
  cur ← deref m1 (currentPalette (video m1));
  set_screen_palette m1 cur 0 256.

(** [Video::reset], SDL2 branch.  The window, renderer and texture handles
    are opaque; what is kept of them is the cleared frame they present. *)
Definition reset (m : World) (width height : Z) : option (World * bool) :=
  let v1 := set_screen_size (video m) width height in
  let v2 := set_screen v1
              (SDL_CreateRGBSurface DEFAULT_SCREEN_WIDTH DEFAULT_SCREEN_HEIGHT 8) in
  let v3 := set_helper_surface v2
              (SDL_CreateRGBSurface DEFAULT_SCREEN_WIDTH DEFAULT_SCREEN_HEIGHT 32) in
  let m1 := log (set_video m v3) EvPresentCleared in
  let m2 := set_canvas_size m1 (screenW v3) (screenH v3) in
  m3 ← expose m2;
  Some (set_video m3 (set_fakePalette (video m3) true), true).

(** [Video::init]. *)
Definition init (m : World) (width height : Z) (startFullscreen : bool)
    : option (World * bool) :=
  let m1 := set_video m (set_fullscreen (video m) startFullscreen) in
  '(m2, ok) ← reset m1 width height;
  if negb ok then Some (m2, false)
  else Some (findMaxResolution m2, true).

(** [Video::getPalette]. *)
Definition getPalette (m : World) : PalettePtr := currentPalette (video m).

(** [Video::changePalette].  [colors] is the memory behind the [palette]
    argument; [first] is converted to [unsigned char] and [amount]
    ([unsigned int]) to the [int] parameter of SDL. *)
Definition changePalette (m : World) (colors : list SDL_Color)
    (first amount : Z) : option World :=
  set_screen_palette m colors (to_uint8 first) (to_int32 amount).

(** [Video::restoreSurfacePalette], as a function of the surface. *)
Definition restoreSurfacePalette (v : Video) (surface : SDL_Surface)
    : option SDL_Surface :=
  pal ← SDL_SetPaletteColors (palette surface) (logicalPalette v) 0 256;
  Some (with_palette surface pal).

(** [Video::clearScreen]: [SDL_FillRect(canvas, NULL, index)]. *)
Definition clearScreen (m : World) (index : Z) : World :=
  log (set_video m (set_screen (video m)
                      (SDL_FillRect (screen (video m)) None (to_uint32 index))))
      (EvFillRect None (to_uint32 index)).

(** [drawRect]: [SDL_FillRect(canvas, &dst, index)]. *)
Definition drawRect (m : World) (x y width height index : Z) : World :=
  log (set_video m (set_screen (video m)
                      (SDL_FillRect (screen (video m))
                         (Some (mkRect x y width height)) (to_uint32 index))))
      (EvFillRect (Some (mkRect x y width height)) (to_uint32 index)).

(** The call-backs of an effect chain into [changePalette]. *)
Fixpoint changePalette_calls (m : World) (calls : list (list SDL_Color * Z * Z))
    : option World :=
  match calls with
  | [] => Some m
  | (colors, first, amount) :: rest =>
      m' ← changePalette m colors first amount;
      changePalette_calls m' rest
  end.

(** [paletteEffects->apply(shownPalette, direct, mspf, effectsStopped)]. *)
Definition apply_effects (m : World) (effects : PaletteEffect)
    (shownPalette : list SDL_Color) (direct : bool) (mspf : Z)
    (effectsStopped : bool)
    : option (World * PaletteEffect * list SDL_Color) :=
  let '(effects', shown', calls) :=
    PaletteEffect_apply effects shownPalette direct mspf effectsStopped in
  m' ← changePalette_calls (log m (EvApplyEffects direct)) calls;
  Some (m', effects', shown').

(** The second half of [flip] ("Show what has been drawn"): the conversion
    loop, the palette call on the 32-bit helper surface, the blit of the
    helper onto itself (no change), the texture upload and the
    presentation. *)
Definition present (m : World) : option World :=
  scr ← screen (video m);
  hs ← helper_surface (video m);
  table ← palette scr;
  let npixels := to_int32 (w scr * h scr) in
  px ← remap_pixels (pixels scr) table (pixels hs) (seq 0 (Z.to_nat npixels));
  hpal ← SDL_SetPaletteColors (palette hs) table 0 256;
  Some (log (set_video m
               (set_helper_surface (video m)
                  (Some (with_palette (with_pixels hs px) hpal))))
            (EvPresent px)).

(** [Video::flip].  [paletteEffects] is [None] for a NULL chain;
    [shownPalette] is what the stack holds where the local array of that
    name is placed.  The chain after the call is returned with the world. *)
Definition flip (m : World) (mspf : Z) (paletteEffects : option PaletteEffect)
    (effectsStopped : bool) (shownPalette : list SDL_Color)
    : option (World * option PaletteEffect) :=
  '(m1, effects') ←
    match paletteEffects with
    | None => Some (m, None)
    | Some effects =>
        if fakePalette (video m) then
          cur ← deref m (currentPalette (video m));
          if (length cur <? 256)%nat then None
          else
            '(m', effects', shown') ←
              apply_effects m effects (take 256 cur) false mspf effectsStopped;
            m'' ← set_screen_palette m' shown' 0 256;
            Some (m'', Some effects')
        else
          '(m', effects', _) ←
            apply_effects m effects shownPalette true mspf effectsStopped;
          Some (m', Some effects')
    end;
  m2 ← present m1;
  Some (m2, effects').

(** Modelled from the spec: video.h, which declares the default arguments
    of [flip], is not part of the sources.  Section 4.5 has [setPalette]
    present once with no effect chain involved, so the call [flip(0)] stands
    for [flip(0, NULL, false)]. *)
Definition flip_default_paletteEffects : option PaletteEffect := None.
Definition flip_default_effectsStopped : bool := false.

(** [Video::setPalette].  The loop that prints entries 0 to 254 of the new
    table only reads them. *)
Definition setPalette (m : World) (palette_arg : PalettePtr) : option World :=
  scr ← screen (video m);
  let m1 := clearScreen m (SDL_MapRGB scr 0 0 0) in
  '(m2, _) ← flip m1 0 flip_default_paletteEffects flip_default_effectsStopped [];
  colors ← deref m2 palette_arg;
  m3 ← set_screen_palette m2 colors 0 256;
  scr3 ← screen (video m3);
  table ← palette scr3;
  if (length table <? 255)%nat then None
  else Some (set_video m3 (set_currentPalette (video m3) palette_arg)).

(** [Video::update], with SDL2 defined and FULLSCREEN_ONLY not. *)
Definition update (m : World) (event : SDL_Event) : option World :=
  match event with
  | SDL_KEYDOWN sym modifiers =>
      if (sym =? SDLK_RETURN) && negb (Z.land modifiers KMOD_ALT =? 0) then
        let m1 := set_video m (set_fullscreen (video m)
                                 (negb (fullscreen (video m)))) in
        '(m2, _) ← reset m1 (screenW (video m1)) (screenH (video m1));
        Some (findMaxResolution m2)
      else Some m
  | SDL_OTHEREVENT _ => Some m
  end.

(** *** Runs of the video layer *)

(** The calls a program can make on the [Video] object.  [flip] is given
    the effect chain the caller holds at that moment. *)
Inductive Op :=
  | OpInit (width height : Z) (startFullscreen : bool)
  | OpReset (width height : Z)
  | OpFindMaxResolution
  | OpSetPalette (palette_arg : PalettePtr)
  | OpChangePalette (colors : list SDL_Color) (first amount : Z)
  | OpRestoreCanvasPalette
  | OpExpose
  | OpUpdate (event : SDL_Event)
  | OpFlip (mspf : Z) (paletteEffects : option PaletteEffect)
           (effectsStopped : bool) (shownPalette : list SDL_Color)
  | OpClearScreen (index : Z)
  | OpDrawRect (x y width height index : Z).

Definition run_op (m : World) (o : Op) : option World :=
  match o with
  | OpInit width height fs => fst <$> init m width height fs
  | OpReset width height => fst <$> reset m width height
  | OpFindMaxResolution => Some (findMaxResolution m)
  | OpSetPalette p => setPalette m p
  | OpChangePalette colors first amount => changePalette m colors first amount
  | OpRestoreCanvasPalette =>
      scr ← screen (video m);
      scr' ← restoreSurfacePalette (video m) scr;
      Some (set_video m (set_screen (video m) (Some scr')))
  | OpExpose => expose m
  | OpUpdate event => update m event
  | OpFlip mspf effects stopped shown =>
      fst <$> flip m mspf effects stopped shown
  | OpClearScreen index => Some (clearScreen m index)
  | OpDrawRect x y width height index => Some (drawRect m x y width height index)
  end.

(** The worlds a program can be in once the [Video] object has been
    constructed (on raw memory) and initialised with success.  The log of
    display calls starts empty at construction. *)
Inductive reachable : World → Prop :=
  | reachable_init raw cw ch mem width height fs m :
      init (mkWorld (Video_Video raw) cw ch mem []) width height fs = Some (m, true) →
      reachable m
  | reachable_step m o m' :
      reachable m → run_op m o = Some m' → reachable m'.

End VideoOperations.

Arguments generate_logicalPalette : simpl never.
Arguments apply_effects {PaletteEffect} PaletteEffect_apply m effects
  shownPalette direct mspf effectsStopped.
Arguments flip {PaletteEffect} PaletteEffect_apply m mspf paletteEffects
  effectsStopped shownPalette.
Arguments flip_default_paletteEffects {PaletteEffect}.
Arguments setPalette {PaletteEffect} PaletteEffect_apply SDL_MapRGB m palette_arg.
Arguments run_op {PaletteEffect} PaletteEffect_apply DEFAULT_SCREEN_WIDTH
  DEFAULT_SCREEN_HEIGHT SDL_MapRGB m o.
Arguments reachable {PaletteEffect} PaletteEffect_apply DEFAULT_SCREEN_WIDTH
  DEFAULT_SCREEN_HEIGHT SDL_MapRGB _.

(** ** The remaining functions of video.cpp *)

(** [Video::getMaxWidth], [Video::getMaxHeight], [Video::getWidth],
    [Video::getHeight] and [Video::isFullscreen]. *)
Definition getMaxWidth (m : World) : Z := maxW (video m).
Definition getMaxHeight (m : World) : Z := maxH (video m).
Definition getWidth (m : World) : Z := screenW (video m).
Definition getHeight (m : World) : Z := screenH (video m).
Definition isFullscreen (m : World) : bool := fullscreen (video m).

(** The upload loop of [createSurface], run over the rows [ys]:
    [memcpy(ret->pixels + ret->pitch * y, pixels + width * y, width)].
    [src] is the memory behind [pixels], [rowlen] the pitch of the surface.
    A copy that reads past [src] or writes past the pixel memory is
    undefined. *)
Fixpoint copy_rows (src : list Z) (width rowlen : Z) (dst : list Z)
    (ys : list nat) : option (list Z) :=
  match ys with
  | [] => Some dst
  | y :: rest =>
      let from := width * Z.of_nat y in
      let to := rowlen * Z.of_nat y in
      if (Z.of_nat (length src) <? from + width)
         || (Z.of_nat (length dst) <? to + width)
      then None
      else copy_rows src width rowlen
             (list_inserts (Z.to_nat to)
                (take (Z.to_nat width) (drop (Z.to_nat from) src)) dst)
             rest
  end.

(** [createSurface(pixels, width, height)].  [pixels_arg] is [None] for a
    NULL pointer; [palette_local] is what the stack holds where the local
    array [palette] is placed: the function passes that array to
    [SDL_SetPaletteColors] without having written it (the call to
    [restoreSurfacePalette] is commented out).  A NULL result of
    [SDL_CreateRGBSurface] is dereferenced. *)
Definition createSurface (pixels_arg : option (list Z)) (width height : Z)
    (palette_local : list SDL_Color) : option SDL_Surface :=
  ret ← SDL_CreateRGBSurface width height 8;
  pal ← SDL_SetPaletteColors (palette ret) palette_local 0 256;
  let ret1 := with_palette ret pal in
  match pixels_arg with
  | None => Some ret1
  | Some src =>
      copied ← copy_rows src width (pitch ret1) (pixels ret1)
                         (seq 0 (Z.to_nat height));
      Some (with_pixels ret1 copied)
  end.

(** ** The byte-stream codecs of file.h

    file.h only declares [class File]; file.cpp is not part of the sources.
    The operations below are therefore taken from sections 4.1 to 4.3 and 7
    of the specification. *)

Module File.

(** Modelled from the spec: the error kinds of the absent file.cpp, as
    section 7 lists them. *)
Inductive Error :=
  | TruncatedStream
  | DecodeOverrun
  | DecodeUnderrun
  | CorruptData
  | OutOfRange
  | ResourceNotFound.

#[global] Instance Error_eq_dec : EqDecision Error.
Proof. solve_decision. Defined.

(** Modelled from the spec: the stream behind [class File] (section 3,
    ByteStream): its bytes and the read cursor. *)
Record ByteStream := mkStream { bytes : list Z; cursor : Z }.

(** Modelled from the spec: [File::getSize] is declared in file.h and
    defined in the absent file.cpp; the length of the stream. *)
Definition getSize (s : ByteStream) : Z := Z.of_nat (length (bytes s)).

(** Modelled from the spec: [File::seek(offset, reset)] is declared in
    file.h and defined in the absent file.cpp.  Section 4.1: relative or
    absolute repositioning, which "fails with OutOfRange if target is
    negative or beyond stream end". *)
Definition seek (s : ByteStream) (offset : Z) (fromStart : bool)
    : Error + ByteStream :=
  let target := if fromStart then offset else cursor s + offset in
  if (target <? 0) || (getSize s <? target) then inl OutOfRange
  else inr (mkStream (bytes s) target).

(** Modelled from the spec: [File::tell], the position query of section
    4.1, defined in the absent file.cpp. *)
Definition tell (s : ByteStream) : Z := cursor s.

(** Modelled from the spec: the run length announced by a control byte of
    the RLE scheme of the absent file.cpp, its low 7 bits plus 1 (section
    4.2). *)
Definition run_length (control : Z) : nat := S (Z.to_nat (Z.land control 127)).

(** Modelled from the spec: the decoding loop of [File::loadRLE], defined
    in the absent file.cpp.  Section 4.2: read a control byte; with its high
    bit set the run is copied verbatim from the stream, otherwise the single
    following byte is replicated; stop when [remaining] reaches 0.  Control
    bytes running out first is [DecodeUnderrun]; needing more input than
    there is, or a run longer than what is left of the declared length
    (section 8), is [DecodeOverrun].  The result is the output and the
    unread rest of the input. *)
Equations rle_decode (input : list Z) (remaining : nat)
    : Error + (list Z * list Z) by wf remaining lt :=
rle_decode input 0%nat := inr ([], input);
rle_decode [] (S n) := inl DecodeUnderrun;
rle_decode (control :: rest) (S n)
  with decide (run_length control ≤ S n)%nat := {
  | right _ => inl DecodeOverrun
  | left _ =>
      if Z.testbit control 7 then
        if decide (run_length control ≤ length rest)%nat then
          match rle_decode (drop (run_length control) rest)
                           (S n - run_length control) with
          | inl e => inl e
          | inr (out, tail) => inr (take (run_length control) rest ++ out, tail)
          end
        else inl DecodeOverrun
      else
        match rest with
        | [] => inl DecodeOverrun
        | v :: rest' =>
            match rle_decode rest' (S n - run_length control) with
            | inl e => inl e
            | inr (out, tail) => inr (replicate (run_length control) v ++ out, tail)
            end
        end }.
Next Obligation. unfold run_length. lia. Qed.
Next Obligation. unfold run_length. lia. Qed.

(** Modelled from the spec: [File::loadRLE(length)], defined in the absent
    file.cpp: decode [length] bytes from the cursor on and leave the cursor
    behind the block. *)
Definition loadRLE (s : ByteStream) (length_arg : Z)
    : Error + (list Z * ByteStream) :=
  match rle_decode (drop (Z.to_nat (cursor s)) (bytes s)) (Z.to_nat length_arg) with
  | inl e => inl e
  | inr (out, tail) =>
      inr (out, mkStream (bytes s) (getSize s - Z.of_nat (length tail)))
  end.

(** Modelled from the spec: the tokens of the LZ stream of the absent
    file.cpp once the control bits are resolved.  Section 9 leaves the bit
    layout of distance and length open, so the decoder is taken at the level
    of tokens. *)
Inductive Token :=
  | Literal (byte : Z)
  | BackReference (distance : nat) (len : nat).

(** Modelled from the spec: the back-reference copy of [File::loadLZ],
    defined in the absent file.cpp.  Section 4.3: "copies length bytes
    starting distance bytes behind the current output position", one byte
    at a time and forward. *)
Fixpoint copy_back (out : list Z) (distance count : nat) : list Z :=
  match count with
  | O => out
  | S n =>
      match out !! (length out - distance)%nat with
      | Some v => copy_back (out ++ [v]) distance n
      | None => out
      end
  end.

(** Modelled from the spec: the token loop of [File::loadLZ].  A reference
    reaching before the start of the output, or to the position being
    written, is [CorruptData]. *)
Fixpoint lz_decode (out : list Z) (tokens : list Token) : Error + list Z :=
  match tokens with
  | [] => inr out
  | Literal v :: rest => lz_decode (out ++ [v]) rest
  | BackReference distance n :: rest =>
      if decide (distance = 0 ∨ length out < distance)%nat then inl CorruptData
      else lz_decode (copy_back out distance n) rest
  end.

(** Modelled from the spec: [File::loadLZ(compressedLength, length)] on the
    tokens of the compressed block: exactly [length] bytes must come out. *)
Definition loadLZ (tokens : list Token) (length_arg : Z) : Error + list Z :=
  match lz_decode [] tokens with
  | inl e => inl e
  | inr out =>
      if Z.of_nat (length out) <? length_arg then inl DecodeUnderrun
      else if length_arg <? Z.of_nat (length out) then inl DecodeOverrun
      else inr out
  end.

End File.


(** ** Vocabulary of the statements *)

(** The world [m] after the colour table of the screen has been rewritten by
    [f] and the calls [evs] have been logged; nothing else differs. *)
Definition retable_surface (f : list SDL_Color → list SDL_Color)
    (s : SDL_Surface) : SDL_Surface :=
  with_palette s (f <$> palette s).

Definition retable (m : World) (f : list SDL_Color → list SDL_Color)
    (evs : list DisplayEvent) : World :=
  mkWorld (set_screen (video m) (retable_surface f <$> screen (video m)))
          (canvasW m) (canvasH m) (memory m) (events m ++ evs).

(** The colour table of the screen. *)
Definition screen_table (m : World) : option (list SDL_Color) :=
  scr ← screen (video m); palette scr.

(** The framebuffer. *)
Definition screen_pixels (m : World) : option (list Z) :=
  pixels <$> screen (video m).

(** A world in which the surfaces are as [Video::reset] creates them: an
    8-bit screen with a 256-entry colour table and a helper surface with
    room for every pixel of the screen. *)
Definition ready (m : World) : Prop :=
  ∃ scr hs table,
    screen (video m) = Some scr ∧ helper_surface (video m) = Some hs ∧
    palette scr = Some table ∧ length table = 256%nat ∧
    BitsPerPixel scr = 8 ∧ 0 ≤ w scr ≤ pitch scr ∧ 0 ≤ h scr ∧
    pitch scr * h scr ≤ Z.of_nat (length (pixels scr)) ∧
    w scr * h scr ≤ 2147483647 ∧
    w scr * h scr ≤ Z.of_nat (length (pixels hs)).

(** The display call made by one call-back of an effect chain, and the
    condition under which that call-back stays inside the array it passes. *)
Definition call_event (call : list SDL_Color * Z * Z) : DisplayEvent :=
  let '(colors, first, amount) := call in
  EvSetPaletteColors (to_uint8 first) (to_int32 amount)
                     (take (Z.to_nat (to_int32 amount)) colors).

Definition call_ok (call : list SDL_Color * Z * Z) : Prop :=
  let '(colors, first, amount) := call in
  0 ≤ to_int32 amount ≤ Z.of_nat (length colors).


(** [frame] holds, at each of the first [n] pixel positions, the colour that
    [table] gives to the palette index stored at that position of [px]. *)
Definition remapped (px : list Z) (table : list SDL_Color) (frame : list Z)
    (n : nat) : Prop :=
  ∀ i, (i < n)%nat →
    ∃ index c, px !! i = Some index ∧
               table !! Z.to_nat (to_uint8 index) = Some c ∧
               frame !! i = Some (RGBColor c).


(** [kept m m']: going from [m] to [m'] leaves the logical palette and the
    arrays of the callers as they are, and does not leave emulated mode. *)
Definition kept (m m' : World) : Prop :=
  logicalPalette (video m') = logicalPalette (video m) ∧
  memory m' = memory m ∧
  (fakePalette (video m) = true → fakePalette (video m') = true).

(** [quiet m m']: going from [m] to [m'] only adds to the log, and adds no
    application of an effect chain in direct mode. *)
Definition quiet (m m' : World) : Prop :=
  ∃ evs, events m' = events m ++ evs ∧ EvApplyEffects true ∉ evs.


(** Every pixel of the [w] x [h] area of [s] holds [v]. *)
Definition blank (s : SDL_Surface) (v : Z) : Prop :=
  ∀ col row, 0 ≤ col < w s → 0 ≤ row < h s →
    pixels s !! Z.to_nat (row * pitch s + col) = Some v.

(** Two surfaces of the same geometry. *)
Definition same_geometry (s s' : SDL_Surface) : Prop :=
  w s' = w s ∧ h s' = h s ∧ pitch s' = pitch s ∧
  BitsPerPixel s' = BitsPerPixel s ∧ length (pixels s') = length (pixels s).


(** The scratch palette of a frame in emulated mode: the copy of the current
    palette after the effect chain has been applied to it. *)
Definition scratch_palette {PaletteEffect : Type}
    (PaletteEffect_apply :
       PaletteEffect → list SDL_Color → bool → Z → bool →
       PaletteEffect * list SDL_Color * list (list SDL_Color * Z * Z))
    (m : World) (effects : PaletteEffect) (mspf : Z) (effectsStopped : bool)
    : option (list SDL_Color) :=
  cur ← deref m (getPalette m);
  Some (take 256 (PaletteEffect_apply effects (take 256 cur) false mspf
                                      effectsStopped).1.2).

(** The colour table with which a frame is shown in emulated mode: the
    scratch palette when there is an effect chain, the table already
    installed otherwise. *)
Definition pushed_table {PaletteEffect : Type}
    (PaletteEffect_apply :
       PaletteEffect → list SDL_Color → bool → Z → bool →
       PaletteEffect * list SDL_Color * list (list SDL_Color * Z * Z))
    (m : World) (paletteEffects : option PaletteEffect) (mspf : Z)
    (effectsStopped : bool) : option (list SDL_Color) :=
  match paletteEffects with
  | None => screen_table m
  | Some effects => scratch_palette PaletteEffect_apply m effects mspf effectsStopped
  end.

(** The conditions under which a frame with the chain [paletteEffects] stays
    inside the arrays involved: the current palette has its 256 entries, the
    chain leaves [shownPalette] its 256 entries and its call-backs are in
    bounds. *)
Definition effects_ok {PaletteEffect : Type}
    (PaletteEffect_apply :
       PaletteEffect → list SDL_Color → bool → Z → bool →
       PaletteEffect * list SDL_Color * list (list SDL_Color * Z * Z))
    (m : World) (paletteEffects : option PaletteEffect) (mspf : Z)
    (effectsStopped : bool) : Prop :=
  match paletteEffects with
  | None => True
  | Some effects =>
      ∃ cur, deref m (getPalette m) = Some cur ∧ (256 ≤ length cur)%nat ∧
        let res := PaletteEffect_apply effects (take 256 cur) false mspf
                                       effectsStopped in
        (256 ≤ length res.1.2)%nat ∧ Forall call_ok res.2
  end.


(** [ready] as a computation. *)
Definition readyb (m : World) : bool :=
  match screen (video m), helper_surface (video m) with
  | Some scr, Some hs =>
      match palette scr with
      | Some table =>
          (length table =? 256)%nat && (BitsPerPixel scr =? 8) &&
          (0 <=? w scr) && (w scr <=? pitch scr) && (0 <=? h scr) &&
          (pitch scr * h scr <=? Z.of_nat (length (pixels scr))) &&
          (w scr * h scr <=? 2147483647) &&
          (w scr * h scr <=? Z.of_nat (length (pixels hs)))
      | None => false
      end
  | _, _ => false
  end.

(** ** A small instance

    A 4 x 2 screen, an effect chain that counts the frames it has advanced
    and adds 16 to every red channel, and a caller that owns one palette at
    address 1.  The statements below are exercised on it. *)

Definition sample_apply (effects : nat) (shownPalette : list SDL_Color)
    (direct : bool) (mspf : Z) (effectsStopped : bool)
    : nat * list SDL_Color * list (list SDL_Color * Z * Z) :=
  let shown :=
    (fun c => mkColor (to_uint8 (r c + 16)) (g c) (b c) (a c)) <$> shownPalette in
  (if effectsStopped then effects else S effects, shown,
   if direct then [(shown, 0, 256)] else []).

Definition sample_MapRGB (s : SDL_Surface) (red green blue : Z) : Z := 0.

Definition sample_raw : Video :=
  mkVideo None None (replicate 256 (mkColor 0 0 0 0)) (CallerPalette 0)
          0 0 0 0 false false.

Definition sample_start : World :=
  mkWorld (Video_Video sample_raw) 0 0
          {[ 1%nat := replicate 256 (mkColor 10 20 30 0) ]} [].

Definition sample_world : World :=
  match init 4 2 sample_start 320 200 false with
  | Some (m, _) => m
  | None => sample_start
  end.

Definition sample_colors : list SDL_Color := replicate 5 (mkColor 1 2 3 4).


(** [untouched m m']: going from [m] to [m'] changes neither the current
    palette pointer, nor the framebuffer, nor what the size and mode queries
    return. *)
Definition untouched (m m' : World) : Prop :=
  getPalette m' = getPalette m ∧ screen_pixels m' = screen_pixels m ∧
  getWidth m' = getWidth m ∧ getHeight m' = getHeight m ∧
  getMaxWidth m' = getMaxWidth m ∧ getMaxHeight m' = getMaxHeight m ∧
  isFullscreen m' = isFullscreen m ∧
  canvasW m' = canvasW m ∧ canvasH m' = canvasH m.


(** The rectangles on which every version of SDL agrees: the coordinates are
    [int]s, and the sums [x + width] and [y + height] that the clipping
    computes stay away from the ends of the [int] range. *)
Definition rect_fits (x y width height : Z) : Prop :=
  -1073741824 < x < 1073741823 ∧ -1073741824 < y < 1073741823 ∧
  -2147483648 ≤ width < 1073741823 ∧ -2147483648 ≤ height < 1073741823.


(** * Properties *)

(** ** Machine integers and pixels *)

Lemma to_uint8_range x : 0 ≤ to_uint8 x < 256.
Proof.
  unfold to_uint8. change 255 with (Z.ones 8).
  rewrite Z.land_ones by lia. apply Z.mod_pos_bound. lia.
Qed.

Lemma to_uint8_small x : 0 ≤ x < 256 → to_uint8 x = x.
Proof.
  intros Hx. unfold to_uint8. change 255 with (Z.ones 8).
  rewrite Z.land_ones by lia. apply Z.mod_small. lia.
Qed.

Lemma to_int32_small x : -2147483648 ≤ x ≤ 2147483647 → to_int32 x = x.
Proof. intros Hx. unfold to_int32. rewrite Z.mod_small; lia. Qed.

Lemma to_int32_range x : -2147483648 ≤ to_int32 x ≤ 2147483647.
Proof.
  unfold to_int32.
  pose proof (Z.mod_pos_bound (x + 2147483648) 4294967296). lia.
Qed.

Lemma testbit_byte_high x n : 0 ≤ x < 256 → 8 ≤ n → Z.testbit x n = false.
Proof.
  intros Hx Hn. rewrite <- (to_uint8_small x Hx). unfold to_uint8.
  change 255 with (Z.ones 8).
  rewrite Z.land_spec, Z.ones_spec_high by lia. apply andb_false_r.
Qed.

Lemma RGBColor_bit c n :
  0 ≤ n →
  Z.testbit (RGBColor c) n =
  (Z.testbit (r c) (n - 24) || Z.testbit (g c) (n - 16) ||
   Z.testbit (b c) (n - 8) || Z.testbit 255 n) && (n <? 32).
Proof.
  intros Hn. unfold RGBColor, to_uint32.
  change 4294967295 with (Z.ones 32).
  rewrite Z.land_spec, !Z.lor_spec, !Z.shiftl_spec by lia.
  rewrite Z.sub_0_r. f_equal.
  destruct (Z.ltb_spec n 32).
  - apply Z.ones_spec_low. lia.
  - apply Z.ones_spec_high. lia.
Qed.

Lemma RGBColor_channels c :
  0 ≤ r c < 256 → 0 ≤ g c < 256 → 0 ≤ b c < 256 →
  channel (RGBColor c) 24 = r c ∧ channel (RGBColor c) 16 = g c ∧
  channel (RGBColor c) 8 = b c ∧ channel (RGBColor c) 0 = 255.
Proof.
  intros Hr Hg Hb. unfold channel. change 255 with (Z.ones 8) at 1 2 3 4.
  repeat split; apply Z.bits_inj'; intros n Hn;
    rewrite Z.land_spec, Z.shiftr_spec, RGBColor_bit by lia;
    (destruct (Z.ltb_spec n 8);
     [ rewrite (Z.ones_spec_low 8 n) by lia
     | rewrite (Z.ones_spec_high 8 n) by lia ]);
    rewrite ?andb_false_r, ?andb_true_r.
  - replace (n + 24 - 24) with n by lia.
    rewrite (testbit_byte_high (g c) (n + 24 - 16)) by lia.
    rewrite (testbit_byte_high (b c) (n + 24 - 8)) by lia.
    rewrite (testbit_byte_high 255 (n + 24)) by lia.
    replace (n + 24 <? 32) with true by (symmetry; apply Z.ltb_lt; lia).
    by rewrite !orb_false_r, andb_true_r.
  - symmetry. apply testbit_byte_high; lia.
  - replace (n + 16 - 16) with n by lia.
    rewrite (Z.testbit_neg_r (r c) (n + 16 - 24)) by lia.
    rewrite (testbit_byte_high (b c) (n + 16 - 8)) by lia.
    rewrite (testbit_byte_high 255 (n + 16)) by lia.
    replace (n + 16 <? 32) with true by (symmetry; apply Z.ltb_lt; lia).
    by rewrite !orb_false_r, andb_true_r.
  - symmetry. apply testbit_byte_high; lia.
  - replace (n + 8 - 8) with n by lia.
    rewrite (Z.testbit_neg_r (r c) (n + 8 - 24)) by lia.
    rewrite (Z.testbit_neg_r (g c) (n + 8 - 16)) by lia.
    rewrite (testbit_byte_high 255 (n + 8)) by lia.
    replace (n + 8 <? 32) with true by (symmetry; apply Z.ltb_lt; lia).
    by rewrite !orb_false_r, andb_true_r.
  - symmetry. apply testbit_byte_high; lia.
  - rewrite Z.add_0_r.
    rewrite (Z.testbit_neg_r (r c) (n - 24)) by lia.
    rewrite (Z.testbit_neg_r (g c) (n - 16)) by lia.
    rewrite (Z.testbit_neg_r (b c) (n - 8)) by lia.
    replace (n <? 32) with true by (symmetry; apply Z.ltb_lt; lia).
    simpl. by rewrite andb_true_r.
  - symmetry. apply (testbit_byte_high 255); lia.
Qed.


Lemma last_snoc2 {A} (l : list A) x y : last (l ++ [x; y]) = Some y.
Proof.
  change [x; y] with ([x] ++ [y]). rewrite (assoc_L (++)). apply last_snoc.
Qed.

(** ** The SDL routines *)

Lemma list_inserts_take_clamp {A} (l k : list A) (i n : nat) :
  list_inserts i (take (n `min` (length l - i)) k) l = list_inserts i (take n k) l.
Proof.
  apply list_eq. intros j.
  destruct (decide (j < i)%nat) as [Hlt|Hge].
  { by rewrite !list_lookup_inserts_lt. }
  destruct (decide (j < length l)%nat) as [Hj|Hj].
  2:{ rewrite !lookup_ge_None_2; [done| |]; rewrite length_inserts; lia. }
  destruct (decide (j - i < n `min` length k)%nat) as [Hin|Hout].
  - rewrite !list_lookup_inserts by (rewrite ?length_take; lia).
    rewrite !lookup_take_lt by lia. done.
  - rewrite !list_lookup_inserts_ge by (rewrite length_take; lia). done.
Qed.

Lemma SDL_SetPaletteColors_inv pal colors fc n pal' :
  SDL_SetPaletteColors pal colors fc n = Some pal' →
  pal' = list_inserts (Z.to_nat fc) (take (Z.to_nat n) colors) <$> pal.
Proof.
  unfold SDL_SetPaletteColors. destruct pal as [table|]; [|by intros [= <-]].
  set (avail := Z.of_nat (length table) - fc).
  set (k := if n >? avail then avail else n).
  destruct ((k <? 0) || (fc <? 0)) eqn:Hneg; [done|].
  destruct (Z.of_nat (length colors) <? k) eqn:Hlen; [done|].
  intros [= <-]. simpl. f_equal.
  apply orb_false_elim in Hneg as [Hk Hfc].
  apply Z.ltb_ge in Hk, Hfc.
  rewrite <- (list_inserts_take_clamp table colors (Z.to_nat fc) (Z.to_nat n)).
  do 2 f_equal. subst k avail.
  destruct (Z.gtb_spec n (Z.of_nat (length table) - fc)); lia.
Qed.

Lemma SDL_SetPaletteColors_total table colors fc n :
  0 ≤ fc ≤ Z.of_nat (length table) → 0 ≤ n ≤ Z.of_nat (length colors) →
  is_Some (SDL_SetPaletteColors (Some table) colors fc n).
Proof.
  intros Hfc Hn. unfold SDL_SetPaletteColors.
  set (avail := Z.of_nat (length table) - fc).
  set (k := if n >? avail then avail else n).
  assert (0 ≤ k ≤ n) as Hk.
  { subst k avail. destruct (Z.gtb_spec n (Z.of_nat (length table) - fc)); lia. }
  replace ((k <? 0) || (fc <? 0)) with false
    by (symmetry; apply orb_false_intro; apply Z.ltb_ge; lia).
  replace (Z.of_nat (length colors) <? k) with false
    by (symmetry; apply Z.ltb_ge; lia).
  eauto.
Qed.

Lemma list_inserts_whole {A} (table colors : list A) :
  (length table ≤ length colors)%nat →
  list_inserts 0 (take (length table) colors) table = take (length table) colors.
Proof.
  intros Hlen.
  rewrite <- (app_nil_r (take (length table) colors)) at 1.
  apply list_inserts_0_l. rewrite length_take. lia.
Qed.

(** ** Rewriting the colour table of the screen *)

Lemma retable_id m : retable m id [] = m.
Proof.
  destruct m as [[scr hs lp cp sw sh mw mh fs fp] cw ch mem evs].
  unfold retable, set_screen. simpl. rewrite app_nil_r. do 2 f_equal.
  destruct scr as [[? ? ? ? ? [?|]]|]; reflexivity.
Qed.

Lemma retable_retable m f1 evs1 f2 evs2 :
  retable (retable m f1 evs1) f2 evs2 = retable m (f2 ∘ f1) (evs1 ++ evs2).
Proof.
  unfold retable, set_screen. simpl. rewrite app_assoc. do 2 f_equal.
  destruct (screen (video m)) as [[? ? ? ? ? [?|]]|]; reflexivity.
Qed.

Lemma set_screen_palette_inv m colors fc n m' :
  set_screen_palette m colors fc n = Some m' →
  is_Some (screen (video m)) ∧
  m' = retable m (list_inserts (Z.to_nat fc) (take (Z.to_nat n) colors))
               [EvSetPaletteColors fc n (take (Z.to_nat n) colors)].
Proof.
  unfold set_screen_palette. intros H.
  destruct (screen (video m)) as [scr|] eqn:Hscr; [|done]. simpl in H.
  destruct (SDL_SetPaletteColors (palette scr) colors fc n) as [pal|] eqn:Hpal;
    [|done].
  simpl in H. injection H as <-. split; [eauto|].
  apply SDL_SetPaletteColors_inv in Hpal as ->.
  unfold retable. by rewrite Hscr.
Qed.

Lemma set_screen_palette_total m colors fc n table :
  screen_table m = Some table →
  0 ≤ fc ≤ Z.of_nat (length table) → 0 ≤ n ≤ Z.of_nat (length colors) →
  is_Some (set_screen_palette m colors fc n).
Proof.
  unfold screen_table, set_screen_palette. intros Htab Hfc Hn.
  destruct (screen (video m)) as [scr|]; [|done]. simpl in *. rewrite Htab.
  destruct (SDL_SetPaletteColors_total table colors fc n Hfc Hn) as [pal ->].
  simpl. eauto.
Qed.

Lemma retable_table m f evs :
  screen_table (retable m f evs) = f <$> screen_table m.
Proof.
  unfold screen_table, retable. simpl.
  destruct (screen (video m)) as [scr|]; reflexivity.
Qed.

Lemma retable_pixels m f evs :
  screen_pixels (retable m f evs) = screen_pixels m.
Proof.
  unfold screen_pixels, retable. simpl.
  destruct (screen (video m)) as [scr|]; reflexivity.
Qed.

Lemma retable_ready m f evs :
  (∀ t, length (f t) = length t) → ready m → ready (retable m f evs).
Proof.
  intros Hf (scr & hs & table & Hscr & Hhs & Hpal & Hlen & Hrest).
  exists (retable_surface f scr), hs, (f table). unfold retable. simpl.
  rewrite Hscr, Hpal, Hf. simpl. auto.
Qed.

Lemma changePalette_calls_inv m calls m' :
  changePalette_calls m calls = Some m' →
  ∃ f, (∀ t, length (f t) = length t) ∧
       m' = retable m f (call_event <$> calls).
Proof.
  revert m. induction calls as [|[[colors first] amount] calls IH]; intros m H.
  - injection H as <-. exists id. split; [done|]. by rewrite retable_id.
  - simpl in H.
    destruct (changePalette m colors first amount) as [m1|] eqn:H1; [|done].
    simpl in H. apply set_screen_palette_inv in H1 as [_ ->].
    apply IH in H as (f & Hf & ->). eexists. split; [|apply retable_retable].
    intros t. simpl. by rewrite Hf, length_inserts.
Qed.

Lemma changePalette_calls_total m calls table :
  screen_table m = Some table → length table = 256%nat →
  Forall call_ok calls → is_Some (changePalette_calls m calls).
Proof.
  intros Htab Hlen Hok. revert m table Htab Hlen.
  induction Hok as [|[[colors first] amount] calls Hc _ IH]; intros m table Htab Hlen.
  - simpl. eauto.
  - simpl. pose proof (to_uint8_range first).
    destruct (set_screen_palette_total m colors (to_uint8 first)
                (to_int32 amount) table Htab) as [m1 H1]; [lia|done|].
    unfold changePalette. rewrite H1. simpl.
    apply set_screen_palette_inv in H1 as [_ ->].
    eapply IH.
    + by rewrite retable_table, Htab.
    + by rewrite length_inserts.
Qed.

(** ** The conversion loop *)

Lemma remap_pixels_spec src table dst idxs out :
  remap_pixels src table dst idxs = Some out →
  length out = length dst ∧
  ∀ i, (i ∈ idxs →
        ∃ index c, src !! i = Some index ∧
                   table !! Z.to_nat (to_uint8 index) = Some c ∧
                   out !! i = Some (RGBColor c)) ∧
       (i ∉ idxs → out !! i = dst !! i).
Proof.
  revert dst. induction idxs as [|j rest IH]; intros dst H; simpl in H.
  - injection H as <-. split; [done|]. intros i. split; [|done].
    by intros ?%elem_of_nil.
  - destruct (src !! j) as [index|] eqn:Hsrc; [|done]. simpl in H.
    destruct (table !! Z.to_nat (to_uint8 index)) as [c|] eqn:Htab; [|done].
    simpl in H. destruct (decide (j < length dst)%nat) as [Hj|]; [|done].
    apply IH in H as [Hlen Hout]. rewrite length_insert in Hlen.
    split; [done|]. intros i. destruct (Hout i) as [Hin Hnotin].
    split.
    + intros Hi. destruct (decide (i ∈ rest)) as [|Hni]; [by auto|].
      apply elem_of_cons in Hi as [->|]; [|done].
      exists index, c. repeat split; [done..|].
      rewrite Hnotin by done. by apply list_lookup_insert_eq.
    + intros Hi. apply not_elem_of_cons in Hi as [Hne Hni].
      rewrite Hnotin by done. by apply list_lookup_insert_ne.
Qed.

Lemma remap_pixels_total src table dst idxs :
  (256 ≤ length table)%nat →
  (∀ i, i ∈ idxs → (i < length src)%nat ∧ (i < length dst)%nat) →
  is_Some (remap_pixels src table dst idxs).
Proof.
  intros Htab. revert dst. induction idxs as [|j rest IH]; intros dst Hidx; simpl.
  - eauto.
  - destruct (Hidx j) as [Hsrc Hdst]; [by left|].
    destruct (lookup_lt_is_Some_2 src j Hsrc) as [index ->]. simpl.
    pose proof (to_uint8_range index).
    destruct (lookup_lt_is_Some_2 table (Z.to_nat (to_uint8 index))) as [c ->];
      [lia|].
    simpl. rewrite decide_True by done. apply IH.
    intros i Hi. rewrite length_insert. apply Hidx. by right.
Qed.

Lemma remap_pixels_remapped src table dst n out :
  remap_pixels src table dst (seq 0 n) = Some out →
  length out = length dst ∧ remapped src table out n.
Proof.
  intros H. apply remap_pixels_spec in H as [Hlen Hout]. split; [done|].
  intros i Hi. apply (Hout i). apply elem_of_seq. lia.
Qed.

(** ** Presentation *)

Lemma log_retable m e : log m e = retable m id [e].
Proof.
  destruct m as [[scr hs lp cp sw sh mw mh fs fp] cw ch mem evs].
  unfold retable, log, set_screen. simpl. do 2 f_equal.
  destruct scr as [[? ? ? ? ? [?|]]|]; reflexivity.
Qed.

Lemma present_inv m m' :
  present m = Some m' →
  ∃ scr hs table px hpal,
    screen (video m) = Some scr ∧ helper_surface (video m) = Some hs ∧
    palette scr = Some table ∧
    remapped (pixels scr) table px (Z.to_nat (to_int32 (w scr * h scr))) ∧
    length px = length (pixels hs) ∧
    m' = log (set_video m
                (set_helper_surface (video m)
                   (Some (with_palette (with_pixels hs px) hpal))))
             (EvPresent px).
Proof.
  unfold present. intros H.
  destruct (screen (video m)) as [scr|]; [|done]. simpl in H.
  destruct (helper_surface (video m)) as [hs|]; [|done]. simpl in H.
  destruct (palette scr) as [table|] eqn:Htab; [|done]. simpl in H.
  destruct (remap_pixels _ _ _ _) as [px|] eqn:Hpx; [|done]. simpl in H.
  destruct (SDL_SetPaletteColors _ _ _ _) as [hpal|]; [|done]. simpl in H.
  injection H as <-. apply remap_pixels_remapped in Hpx as [Hlen Hpx].
  exists scr, hs, table, px, hpal. auto 10.
Qed.

Lemma present_total m : ready m → is_Some (present m).
Proof.
  intros (scr & hs & table & Hscr & Hhs & Hpal & Hlen & Hbpp & Hw & Hh
          & Hpx & Hmax & Hhpx).
  unfold present. rewrite Hscr, Hhs. simpl. rewrite Hpal. simpl.
  rewrite to_int32_small by nia.
  destruct (remap_pixels_total (pixels scr) table (pixels hs)
              (seq 0 (Z.to_nat (w scr * h scr)))) as [px ->]; [lia| |].
  { intros i Hi%elem_of_seq. split; [nia|lia]. }
  simpl. destruct (palette hs) as [t|]; [|simpl; eauto].
  destruct (SDL_SetPaletteColors_total t table 0 256) as [hpal ->]; [lia..|].
  simpl. eauto.
Qed.

Lemma present_ready m m' : ready m → present m = Some m' → ready m'.
Proof.
  intros (scr & hs & table & Hscr & Hhs & Hpal & Hrest) H.
  apply present_inv in H
    as (scr' & hs' & table' & px & hpal & Hscr' & Hhs' & _ & _ & Hlen & ->).
  rewrite Hscr in Hscr'. rewrite Hhs in Hhs'. simplify_eq.
  exists scr', (with_palette (with_pixels hs' px) hpal), table. simpl.
  rewrite Hlen. auto 10.
Qed.


(** ** What every operation keeps *)

Lemma kept_refl m : kept m m.
Proof. by repeat split. Qed.

Lemma kept_trans m1 m2 m3 : kept m1 m2 → kept m2 m3 → kept m1 m3.
Proof.
  intros (Hl1 & Hm1 & Hf1) (Hl2 & Hm2 & Hf2).
  repeat split; [congruence..|auto].
Qed.

Lemma quiet_refl m : quiet m m.
Proof. exists []. rewrite app_nil_r. split; [done|apply not_elem_of_nil]. Qed.

Lemma quiet_trans m1 m2 m3 : quiet m1 m2 → quiet m2 m3 → quiet m1 m3.
Proof.
  intros (evs1 & He1 & Hn1) (evs2 & He2 & Hn2). exists (evs1 ++ evs2).
  split; [by rewrite He2, He1, app_assoc|]. by apply not_elem_of_app.
Qed.

Lemma call_events_no_apply d (calls : list (list SDL_Color * Z * Z)) :
  EvApplyEffects d ∉ call_event <$> calls.
Proof.
  intros ([[colors first] amount] & Heq & _)%list_elem_of_fmap. done.
Qed.

Lemma retable_kept m f evs : kept m (retable m f evs).
Proof. by repeat split. Qed.

Lemma retable_quiet m f evs :
  EvApplyEffects true ∉ evs → quiet m (retable m f evs).
Proof. intros Hn. by exists evs. Qed.

Lemma set_screen_palette_kept m colors fc n m' :
  set_screen_palette m colors fc n = Some m' → kept m m' ∧ quiet m m'.
Proof.
  intros [_ ->]%set_screen_palette_inv. split; [apply retable_kept|].
  apply retable_quiet. by intros ?%list_elem_of_singleton.
Qed.

Lemma present_kept m m' : present m = Some m' → kept m m' ∧ quiet m m'.
Proof.
  intros (scr & hs & table & px & hpal & _ & _ & _ & _ & _ & ->)%present_inv.
  split; [by repeat split|]. exists [EvPresent px].
  split; [done|]. by intros ?%list_elem_of_singleton.
Qed.

Lemma expose_kept m m' : expose m = Some m' → kept m m' ∧ quiet m m'.
Proof.
  unfold expose. intros H.
  destruct (set_screen_palette m _ 0 256) as [m1|] eqn:H1; [|done]. simpl in H.
  destruct (deref m1 _) as [cur|]; [|done]. simpl in H.
  apply set_screen_palette_kept in H1 as [? ?], H as [? ?].
  split; [by eapply kept_trans|by eapply quiet_trans].
Qed.

Lemma clearScreen_kept m index :
  kept m (clearScreen m index) ∧ quiet m (clearScreen m index).
Proof.
  split; [by repeat split|]. eexists. split; [done|].
  by intros ?%list_elem_of_singleton.
Qed.

Lemma drawRect_kept m x y width height index :
  kept m (drawRect m x y width height index) ∧
  quiet m (drawRect m x y width height index).
Proof.
  split; [by repeat split|]. eexists. split; [done|].
  by intros ?%list_elem_of_singleton.
Qed.


(** ** Surfaces *)

Lemma align4 x : Z.land (x + 3) (Z.lnot 3) = 4 * ((x + 3) / 4).
Proof.
  rewrite <- Z.ldiff_land. change 3 with (Z.ones 2) at 2.
  rewrite Z.ldiff_ones_r by lia.
  rewrite Z.shiftr_div_pow2, Z.shiftl_mul_pow2 by lia.
  change (2 ^ 2) with 4. lia.
Qed.

Lemma SDL_CreateRGBSurface_8 width height s :
  SDL_CreateRGBSurface width height 8 = Some s →
  ∃ table, palette s = Some table ∧ length table = 256%nat ∧
    w s = width ∧ h s = height ∧ BitsPerPixel s = 8 ∧
    0 ≤ w s ≤ pitch s ∧ 0 ≤ h s ∧
    pitch s * h s ≤ Z.of_nat (length (pixels s)) ∧
    w s * h s ≤ 2147483647.
Proof.
  unfold SDL_CreateRGBSurface. change ((8 + 7) / 8) with 1.
  rewrite Z.mul_1_r, align4, Z.div_1_r.
  destruct (_ || _) eqn:Hbad; [done|]. intros [= <-]. simpl.
  apply orb_false_elim in Hbad as [Hbad Hmax].
  apply orb_false_elim in Hbad as [Hw Hh].
  apply Z.ltb_ge in Hw, Hh, Hmax.
  exists (replicate 256 white). rewrite !length_replicate.
  assert (width ≤ 4 * ((width + 3) / 4)).
  { pose proof (Z.div_mod (width + 3) 4).
    pose proof (Z.mod_pos_bound (width + 3) 4). lia. }
  repeat split; try done; try lia; nia.
Qed.

Lemma SDL_CreateRGBSurface_32 width height :
  0 ≤ width → 0 ≤ height → 4 * width * height ≤ 2147483647 →
  ∃ s, SDL_CreateRGBSurface width height 32 = Some s ∧
       length (pixels s) = Z.to_nat (width * height).
Proof.
  intros Hw Hh Hmax. unfold SDL_CreateRGBSurface.
  change ((32 + 7) / 8) with 4. rewrite align4.
  replace ((width * 4 + 3) / 4) with width
    by (apply Z.div_unique with 3; lia).
  replace ((width <? 0) || (height <? 0) || (2147483647 <? height * (4 * width)))
    with false.
  2:{ symmetry. repeat apply orb_false_intro; apply Z.ltb_ge; lia. }
  eexists. split; [done|]. simpl. rewrite length_replicate.
  f_equal. replace (4 * width / 4) with width; [done|].
  symmetry. rewrite Z.mul_comm. apply Z.div_mul. lia.
Qed.

Lemma to_uint8_to_uint32 x : to_uint8 (to_uint32 x) = to_uint8 x.
Proof. unfold to_uint8, to_uint32. by rewrite <- Z.land_assoc. Qed.

Lemma SDL_FillRect_whole scr color :
  BitsPerPixel scr = 8 → 0 ≤ w scr ≤ pitch scr →
  pitch scr * h scr ≤ Z.of_nat (length (pixels scr)) →
  ∃ scr', SDL_FillRect (Some scr) None color = Some scr' ∧
          same_geometry scr scr' ∧ palette scr' = palette scr ∧
          blank scr' (to_uint8 color).
Proof.
  intros Hbpp Hw Hpx. unfold SDL_FillRect, BytesPerPixel. rewrite Hbpp.
  change ((8 + 7) / 8) with 1. rewrite Z.div_1_r.
  eexists. split; [done|]. split; [|split; [done|]].
  { repeat split. simpl. by rewrite length_imap. }
  intros col row Hcol Hrow. simpl in *.
  assert (row * pitch scr ≤ (h scr - 1) * pitch scr)
    by (apply Z.mul_le_mono_nonneg_r; lia).
  assert (0 ≤ row * pitch scr) by (apply Z.mul_nonneg_nonneg; lia).
  assert (0 ≤ row * pitch scr + col < Z.of_nat (length (pixels scr))) as Hi by lia.
  destruct (lookup_lt_is_Some_2 (pixels scr) (Z.to_nat (row * pitch scr + col)))
    as [px Hlook]; [lia|].
  rewrite list_lookup_imap, Hlook. simpl. rewrite Z2Nat.id by lia.
  rewrite Z.add_comm, Z.mod_add, Z.div_add by lia.
  rewrite Z.mod_small, Z.div_small by lia.
  replace (col <? w scr) with true by (symmetry; apply Z.ltb_lt; lia).
  replace (0 + row <? h scr) with true by (symmetry; apply Z.ltb_lt; lia).
  done.
Qed.

Lemma SDL_FillRect_geometry scr rect color scr' :
  SDL_FillRect (Some scr) rect color = Some scr' →
  same_geometry scr scr' ∧ palette scr' = palette scr.
Proof.
  intros [= <-]. split; [|done]. repeat split. simpl. by rewrite length_imap.
Qed.

(** ** Worlds with usable surfaces *)

Lemma ready_table m : ready m → ∃ table, screen_table m = Some table ∧ length table = 256%nat.
Proof.
  intros (scr & hs & table & Hscr & _ & Hpal & Hlen & _). exists table.
  unfold screen_table. rewrite Hscr. auto.
Qed.

Lemma ready_fill m rect color :
  ready m →
  ready (set_video m (set_screen (video m) (SDL_FillRect (screen (video m)) rect color))).
Proof.
  intros (scr & hs & table & Hscr & Hhs & Hpal & Hlen & Hrest). rewrite Hscr.
  destruct (SDL_FillRect (Some scr) rect color) as [scr'|] eqn:Hfill; [|done].
  apply SDL_FillRect_geometry in Hfill as [(Hw & Hh & Hp & Hb & Hl) Hpal'].
  exists scr', hs, table. simpl. rewrite Hw, Hh, Hp, Hb, Hl, Hpal'. auto 10.
Qed.

Lemma ready_events m evs :
  ready m → ready (mkWorld (video m) (canvasW m) (canvasH m) (memory m) evs).
Proof. done. Qed.

Lemma set_screen_palette_ready m colors fc n m' :
  ready m → set_screen_palette m colors fc n = Some m' → ready m'.
Proof.
  intros Hr [_ ->]%set_screen_palette_inv. apply retable_ready; [|done].
  intros t. apply length_inserts.
Qed.

Lemma expose_ready m m' : ready m → expose m = Some m' → ready m'.
Proof.
  unfold expose. intros Hr H.
  destruct (set_screen_palette m _ 0 256) as [m1|] eqn:H1; [|done]. simpl in H.
  destruct (deref m1 _) as [cur|]; [|done]. simpl in H.
  eauto using set_screen_palette_ready.
Qed.


Lemma present_run m :
  ready m →
  ∃ m' scr table hs' frame,
    present m = Some m' ∧ screen (video m) = Some scr ∧
    palette scr = Some table ∧
    remapped (pixels scr) table frame (Z.to_nat (w scr * h scr)) ∧
    m' = log (set_video m (set_helper_surface (video m) (Some hs')))
             (EvPresent frame) ∧
    ready m'.
Proof.
  intros Hr. destruct (present_total m Hr) as [m' Hp].
  pose proof (present_ready m m' Hr Hp) as Hr'.
  apply present_inv in Hp as Hinv.
  destruct Hinv as (scr & hs & table & px & hpal & Hscr & Hhs & Hpal & Hpx & _ & ->).
  destruct Hr as (scr0 & hs0 & table0 & Hscr0 & _ & _ & _ & _ & Hw & Hh & _ & Hmax & _).
  rewrite Hscr in Hscr0. injection Hscr0 as <-.
  rewrite to_int32_small in Hpx by nia.
  eexists; exists scr, table, (with_palette (with_pixels hs px) hpal), px.
  repeat (split; [done|]). done.
Qed.


(** ** The logical palette *)

Lemma foldl_alter_seq {A} (f : nat → A → A) (l : list A) (n i : nat) :
  foldl (fun acc k => alter (f k) k acc) l (seq 0 n) !! i =
  if decide (i < n)%nat then f i <$> l !! i else l !! i.
Proof.
  induction n as [|n IH].
  - destruct (decide (i < 0)%nat); [lia|done].
  - rewrite seq_S, foldl_app. change (0 + n)%nat with n. cbn [foldl].
    rewrite list_lookup_alter.
    destruct (decide (n = i)) as [Heq|Hne].
    + subst n. rewrite IH. destruct (decide (i < i)%nat); [lia|].
      destruct (decide (i < S i)%nat); [done|lia].
    + rewrite IH. destruct (decide (i < S n)%nat); destruct (decide (i < n)%nat);
        try lia; done.
Qed.

Lemma foldl_alter_length {A} (f : nat → A → A) (l : list A) (ks : list nat) :
  length (foldl (fun acc k => alter (f k) k acc) l ks) = length l.
Proof.
  revert l. induction ks as [|k ks IH]; intros l; [done|].
  simpl. by rewrite IH, length_alter.
Qed.

Lemma Video_Video_logicalPalette raw i :
  length (logicalPalette raw) = 256%nat → 0 ≤ i < 256 →
  ∃ c, logicalPalette (Video_Video raw) !! Z.to_nat i = Some c ∧
       r c = i ∧ g c = i ∧ b c = i.
Proof.
  intros Hlen Hi.
  change (logicalPalette (Video_Video raw))
    with (generate_logicalPalette (logicalPalette raw)).
  unfold generate_logicalPalette.
  rewrite (foldl_alter_seq
             (fun count c => mkColor (to_uint8 (Z.of_nat count))
                                     (to_uint8 (Z.of_nat count))
                                     (to_uint8 (Z.of_nat count)) (a c))).
  rewrite decide_True by lia.
  destruct (lookup_lt_is_Some_2 (logicalPalette raw) (Z.to_nat i)) as [c ->];
    [lia|].
  eexists. split; [done|]. simpl. rewrite Z2Nat.id, to_uint8_small by lia. done.
Qed.


Lemma readyb_ready m : readyb m = true → ready m.
Proof.
  unfold readyb, ready. intros H.
  destruct (screen (video m)) as [scr|]; [|done].
  destruct (helper_surface (video m)) as [hs|]; [|done].
  destruct (palette scr) as [table|] eqn:Hpal; [|done].
  repeat (apply andb_prop in H as [H ?]).
  exists scr, hs, table.
  repeat match goal with
         | H : (_ <=? _) = true |- _ => apply Z.leb_le in H
         | H : (_ =? _) = true |- _ => apply Z.eqb_eq in H
         | H : (_ =? _)%nat = true |- _ => apply Nat.eqb_eq in H
         end.
  auto 12.
Qed.


Lemma RGBColor_alpha c : channel (RGBColor c) 0 = 255 ∧ 0 ≤ RGBColor c ≤ 4294967295.
Proof.
  split.
  - unfold channel. change 255 with (Z.ones 8) at 1.
    apply Z.bits_inj'. intros n Hn.
    rewrite Z.land_spec, Z.shiftr_spec, RGBColor_bit, Z.add_0_r by lia.
    destruct (Z.ltb_spec n 8).
    + rewrite (Z.ones_spec_low 8 n) by lia.
      rewrite (Z.testbit_neg_r (r c) (n - 24)) by lia.
      rewrite (Z.testbit_neg_r (g c) (n - 16)) by lia.
      rewrite (Z.testbit_neg_r (b c) (n - 8)) by lia.
      replace (n <? 32) with true by (symmetry; apply Z.ltb_lt; lia).
      simpl. by rewrite !andb_true_r.
    + rewrite (Z.ones_spec_high 8 n) by lia. rewrite andb_false_r.
      symmetry. apply (testbit_byte_high 255); lia.
  - unfold RGBColor, to_uint32. change 4294967295 with (Z.ones 32).
    rewrite Z.land_ones by lia.
    pose proof (Z.mod_pos_bound
                  (Z.lor (Z.lor (Z.lor (Z.shiftl (r c) 24) (Z.shiftl (g c) 16))
                                (Z.shiftl (b c) 8)) (Z.shiftl 255 0))
                  (2 ^ 32)).
    change (2 ^ 32) with 4294967296 in *. change (Z.ones 32) with 4294967295. lia.
Qed.

Lemma SDL_SetPaletteColors_total_clamped table colors fc n :
  0 ≤ fc ≤ Z.of_nat (length table) → 0 ≤ n →
  Z.min n (Z.of_nat (length table) - fc) ≤ Z.of_nat (length colors) →
  is_Some (SDL_SetPaletteColors (Some table) colors fc n).
Proof.
  intros Hfc Hn Hmin. unfold SDL_SetPaletteColors.
  set (avail := Z.of_nat (length table) - fc) in *.
  set (k := if n >? avail then avail else n).
  assert (k = Z.min n avail) as Hk.
  { subst k. destruct (Z.gtb_spec n avail); lia. }
  replace ((k <? 0) || (fc <? 0)) with false
    by (symmetry; apply orb_false_intro; apply Z.ltb_ge; lia).
  replace (Z.of_nat (length colors) <? k) with false
    by (symmetry; apply Z.ltb_ge; lia).
  eauto.
Qed.

Lemma SDL_SetPaletteColors_negative table colors fc n :
  n < 0 → SDL_SetPaletteColors (Some table) colors fc n = None.
Proof.
  intros Hn. unfold SDL_SetPaletteColors.
  set (avail := Z.of_nat (length table) - fc).
  set (k := if n >? avail then avail else n).
  assert (k < 0) as Hk by (subst k; destruct (Z.gtb_spec n avail); lia).
  replace (k <? 0) with true by (symmetry; apply Z.ltb_lt; lia). done.
Qed.

Section VideoProperties.

Variable PaletteEffect : Type.
Variable PaletteEffect_apply :
  PaletteEffect → list SDL_Color → bool → Z → bool →
  PaletteEffect * list SDL_Color * list (list SDL_Color * Z * Z).
Variable DEFAULT_SCREEN_WIDTH : Z.
Variable DEFAULT_SCREEN_HEIGHT : Z.
Variable SDL_MapRGB : SDL_Surface → Z → Z → Z → Z.

Lemma apply_effects_inv m eff shown0 direct mspf stopped m' eff1 shown :
  apply_effects PaletteEffect_apply m eff shown0 direct mspf stopped
    = Some (m', eff1, shown) →
  ∃ calls f,
    PaletteEffect_apply eff shown0 direct mspf stopped = (eff1, shown, calls) ∧
    (∀ t, length (f t) = length t) ∧
    m' = retable m f (EvApplyEffects direct :: (call_event <$> calls)).
Proof.
  unfold apply_effects. intros H.
  destruct (PaletteEffect_apply _ _ _ _ _) as [[eff1' shown'] calls].
  destruct (changePalette_calls _ _) as [m1|] eqn:Hcalls; [|done].
  simpl in H. simplify_eq. exists calls.
  apply changePalette_calls_inv in Hcalls as (f & Hf & ->).
  exists f. rewrite log_retable, retable_retable. auto.
Qed.

Lemma apply_effects_total m eff shown0 direct mspf stopped eff1 shown calls table :
  PaletteEffect_apply eff shown0 direct mspf stopped = (eff1, shown, calls) →
  screen_table m = Some table → length table = 256%nat →
  Forall call_ok calls →
  ∃ m', apply_effects PaletteEffect_apply m eff shown0 direct mspf stopped
        = Some (m', eff1, shown).
Proof.
  intros Happ Htab Hlen Hok. unfold apply_effects. rewrite Happ.
  destruct (changePalette_calls_total (log m (EvApplyEffects direct)) calls table)
    as [m1 ->]; [|done..|simpl; eauto].
  by rewrite log_retable, retable_table, Htab.
Qed.


Lemma apply_effects_kept m eff shown0 direct mspf stopped m' eff1 shown :
  apply_effects PaletteEffect_apply m eff shown0 direct mspf stopped
    = Some (m', eff1, shown) →
  kept m m' ∧ (direct = false → quiet m m').
Proof.
  intros (calls & f & _ & _ & ->)%apply_effects_inv.
  split; [apply retable_kept|]. intros ->. apply retable_quiet.
  apply not_elem_of_cons. split; [done|apply call_events_no_apply].
Qed.

Lemma flip_kept m mspf effs stopped stack m' effs' :
  flip PaletteEffect_apply m mspf effs stopped stack = Some (m', effs') →
  kept m m' ∧ (fakePalette (video m) = true ∨ effs = None → quiet m m').
Proof.
  unfold flip. intros H.
  destruct effs as [eff|].
  - destruct (fakePalette (video m)) eqn:Hfake.
    + destruct (deref m _) as [cur|]; [|done]. simpl in H.
      destruct (length cur <? 256)%nat; [done|].
      destruct (apply_effects _ _ _ _ _ _ _) as [[[m1 eff1] shown]|] eqn:Happ;
        [|done].
      simpl in H.
      destruct (set_screen_palette m1 shown 0 256) as [m2|] eqn:Hset; [|done].
      simpl in H. destruct (present m2) as [m3|] eqn:Hpres; [|done].
      simpl in H. simplify_eq.
      apply apply_effects_kept in Happ as [K1 Q1].
      apply set_screen_palette_kept in Hset as [K2 Q2].
      apply present_kept in Hpres as [K3 Q3].
      split; [eauto using kept_trans|]. intros _.
      eauto using quiet_trans.
    + destruct (apply_effects _ _ _ _ _ _ _) as [[[m1 eff1] shown]|] eqn:Happ;
        [|done].
      simpl in H. destruct (present m1) as [m3|] eqn:Hpres; [|done].
      simpl in H. simplify_eq.
      apply apply_effects_kept in Happ as [K1 _].
      apply present_kept in Hpres as [K3 _].
      split; [eauto using kept_trans|]. by intros [|].
  - simpl in H. destruct (present m) as [m3|] eqn:Hpres; [|done].
    simpl in H. simplify_eq. apply present_kept in Hpres as [K3 Q3]. auto.
Qed.

Lemma reset_kept m width height m' ok :
  reset DEFAULT_SCREEN_WIDTH DEFAULT_SCREEN_HEIGHT m width height = Some (m', ok) →
  ok = true ∧ fakePalette (video m') = true ∧ kept m m' ∧ quiet m m'.
Proof.
  unfold reset. intros H.
  destruct (expose _) as [m3|] eqn:Hexp; [|done]. simpl in H. simplify_eq.
  apply expose_kept in Hexp as [(Hl & Hm & Hf) (evs & Hev & Hn)].
  simpl in *. repeat split; [done..|].
  exists (EvPresentCleared :: evs). simpl. rewrite Hev, <- app_assoc.
  split; [done|].
  by apply not_elem_of_cons.
Qed.

Lemma findMaxResolution_kept m :
  kept m (findMaxResolution DEFAULT_SCREEN_WIDTH DEFAULT_SCREEN_HEIGHT m) ∧
  quiet m (findMaxResolution DEFAULT_SCREEN_WIDTH DEFAULT_SCREEN_HEIGHT m).
Proof.
  split; [by repeat split|]. exists []. simpl. rewrite app_nil_r.
  split; [done|apply not_elem_of_nil].
Qed.

Lemma init_kept m width height fs m' ok :
  init DEFAULT_SCREEN_WIDTH DEFAULT_SCREEN_HEIGHT m width height fs = Some (m', ok) →
  ok = true ∧ fakePalette (video m') = true ∧ kept m m' ∧ quiet m m'.
Proof.
  unfold init. intros H.
  destruct (reset _ _ _ _ _) as [[m2 ok2]|] eqn:Hreset; [|done]. simpl in H.
  apply reset_kept in Hreset as (-> & Hfake & (Hl & Hm & Hf) & evs & Hev & Hn).
  simpl in H. simplify_eq. repeat split; [done..|]. by exists evs.
Qed.

Lemma update_kept m event m' :
  update DEFAULT_SCREEN_WIDTH DEFAULT_SCREEN_HEIGHT m event = Some m' →
  kept m m' ∧ quiet m m'.
Proof.
  unfold update. intros H.
  destruct event as [sym modifiers|type];
    [|simplify_eq; split; [apply kept_refl|apply quiet_refl]].
  destruct ((sym =? SDLK_RETURN) && negb (Z.land modifiers KMOD_ALT =? 0));
    [|simplify_eq; split; [apply kept_refl|apply quiet_refl]].
  destruct (reset _ _ _ _ _) as [[m2 ok2]|] eqn:Hreset; [|done]. simpl in H.
  simplify_eq. apply reset_kept in Hreset as (_ & Hfake & K & Q).
  split; [|exact Q]. destruct K as (Hl & Hm & Hf). by repeat split.
Qed.

Lemma setPalette_kept m p m' :
  setPalette PaletteEffect_apply SDL_MapRGB m p = Some m' →
  kept m m' ∧ quiet m m' ∧ getPalette m' = p.
Proof.
  unfold setPalette. intros H.
  destruct (screen (video m)) as [scr|]; [|done]. simpl in H.
  destruct (flip _ _ _ _ _ _) as [[m2 effs]|] eqn:Hflip; [|done]. simpl in H.
  destruct (deref m2 p) as [colors|]; [|done]. simpl in H.
  destruct (set_screen_palette m2 colors 0 256) as [m3|] eqn:Hset; [|done].
  simpl in H. destruct (screen (video m3)) as [scr3|]; [|done]. simpl in H.
  destruct (palette scr3) as [table|]; [|done]. simpl in H.
  destruct (length table <? 255)%nat; [done|]. simplify_eq.
  destruct (clearScreen_kept m (SDL_MapRGB scr 0 0 0)) as [K1 Q1].
  apply flip_kept in Hflip as [K2 Q2].
  apply set_screen_palette_kept in Hset as [K3 Q3].
  assert (kept m m3) as (Hl & Hm & Hf) by eauto using kept_trans.
  destruct (quiet_trans _ _ _ Q1 (quiet_trans _ _ _ (Q2 (or_intror eq_refl)) Q3))
    as (evs & Hev & Hn).
  split; [by repeat split|]. split; [by exists evs|reflexivity].
Qed.

Lemma run_op_kept m o m' :
  run_op PaletteEffect_apply DEFAULT_SCREEN_WIDTH DEFAULT_SCREEN_HEIGHT
         SDL_MapRGB m o = Some m' →
  kept m m' ∧ (fakePalette (video m) = true → quiet m m').
Proof.
  destruct o; simpl; intros H.
  - destruct (init _ _ _ _ _ _) as [[m1 ok]|] eqn:Hi; [|done].
    simpl in H. simplify_eq. apply init_kept in Hi as (_ & _ & K & Q). auto.
  - destruct (reset _ _ _ _ _) as [[m1 ok]|] eqn:Hr; [|done].
    simpl in H. simplify_eq. apply reset_kept in Hr as (_ & _ & K & Q). auto.
  - simplify_eq. destruct (findMaxResolution_kept m). auto.
  - apply setPalette_kept in H as (K & Q & _). auto.
  - apply set_screen_palette_kept in H as [K Q]. auto.
  - destruct (screen (video m)) as [scr|]; [|done]. simpl in H.
    destruct (restoreSurfacePalette _ _) as [scr'|]; [|done]. simpl in H.
    simplify_eq. split; [by repeat split|]. intros _. exists []. simpl.
    rewrite app_nil_r. split; [done|apply not_elem_of_nil].
  - apply expose_kept in H as [K Q]. auto.
  - apply update_kept in H as [K Q]. auto.
  - destruct (flip _ _ _ _ _ _) as [[m1 effs]|] eqn:Hf; [|done].
    simpl in H. simplify_eq. apply flip_kept in Hf as [K Q]. auto.
  - simplify_eq. destruct (clearScreen_kept m index). auto.
  - simplify_eq. destruct (drawRect_kept m x y width height index). auto.
Qed.

Lemma reachable_emulated m :
  reachable PaletteEffect_apply DEFAULT_SCREEN_WIDTH DEFAULT_SCREEN_HEIGHT
            SDL_MapRGB m →
  fakePalette (video m) = true ∧ EvApplyEffects true ∉ events m.
Proof.
  induction 1 as [raw cw ch mem width height fs m Hinit|m o m' _ [Hfake Hlog] Hop].
  - apply init_kept in Hinit as (_ & Hfake & _ & evs & Hev & Hn).
    simpl in Hev. by rewrite Hev.
  - apply run_op_kept in Hop as [(_ & _ & Hf) Q].
    destruct (Q Hfake) as (evs & Hev & Hn). split; [auto|].
    rewrite Hev. by apply not_elem_of_app.
Qed.


(** ** Runs of [flip] *)

Lemma flip_plain_run m mspf stopped stack :
  ready m →
  ∃ m' scr table hs' frame,
    flip PaletteEffect_apply m mspf None stopped stack = Some (m', None) ∧
    screen (video m) = Some scr ∧ palette scr = Some table ∧
    remapped (pixels scr) table frame (Z.to_nat (w scr * h scr)) ∧
    m' = log (set_video m (set_helper_surface (video m) (Some hs')))
             (EvPresent frame) ∧
    ready m'.
Proof.
  intros Hr.
  destruct (present_run m Hr) as (m' & scr & table & hs' & frame & Hp & Hrest).
  exists m', scr, table, hs', frame. split; [|done].
  unfold flip. simpl. by rewrite Hp.
Qed.

Lemma flip_emulated_run m mspf eff stopped stack cur eff1 shown calls :
  fakePalette (video m) = true → ready m →
  deref m (getPalette m) = Some cur → (256 ≤ length cur)%nat →
  PaletteEffect_apply eff (take 256 cur) false mspf stopped = (eff1, shown, calls) →
  (256 ≤ length shown)%nat → Forall call_ok calls →
  ∃ m' scr frame,
    flip PaletteEffect_apply m mspf (Some eff) stopped stack = Some (m', Some eff1) ∧
    screen (video m) = Some scr ∧
    screen_table m' = Some (take 256 shown) ∧
    screen_pixels m' = Some (pixels scr) ∧
    events m' = events m ++ EvApplyEffects false :: (call_event <$> calls) ++
                  [EvSetPaletteColors 0 256 (take 256 shown); EvPresent frame] ∧
    remapped (pixels scr) (take 256 shown) frame (Z.to_nat (w scr * h scr)) ∧
    kept m m' ∧ getPalette m' = getPalette m ∧ ready m'.
Proof.
  intros Hfake Hr Hcur Hlen Happ Hshown Hok.
  destruct (ready_table m Hr) as (table & Htab & Htablen).
  destruct (apply_effects_total m eff (take 256 cur) false mspf stopped
              eff1 shown calls table Happ Htab Htablen Hok) as [m1 H1].
  apply apply_effects_inv in H1 as Hinv1.
  destruct Hinv1 as (calls' & f & Happ' & Hf & ->).
  rewrite Happ in Happ'. injection Happ' as <-.
  set (m1 := retable m f _) in *.
  assert (ready m1) as Hr1 by by apply retable_ready.
  assert (screen_table m1 = Some (f table)) as Htab1
    by (unfold m1; by rewrite retable_table, Htab).
  destruct (set_screen_palette_total m1 shown 0 256 (f table) Htab1)
    as [m2 H2]; [rewrite Hf; lia|lia|].
  apply set_screen_palette_inv in H2 as Hinv2. destruct Hinv2 as [_ Hm2].
  assert (ready m2) as Hr2 by eauto using set_screen_palette_ready.
  destruct (present_run m2 Hr2)
    as (m' & scr2 & table2 & hs' & frame & Hp & Hscr2 & Hpal2 & Hpx & Hm' & Hr').
  assert (screen_table m2 = Some (take 256 shown)) as Htab2.
  { rewrite Hm2, retable_table, Htab1. simpl. f_equal.
    assert (length (f table) = 256%nat) as Hft by by rewrite Hf.
    change (Z.to_nat 0) with 0%nat. change (Z.to_nat 256) with 256%nat.
    rewrite <- Hft. apply list_inserts_whole. lia. }
  destruct Hr as (scr & hs & table0 & Hscr & _).
  assert (pixels scr2 = pixels scr ∧ w scr2 = w scr ∧ h scr2 = h scr)
    as (Hpix & Hw & Hh).
  { rewrite Hm2 in Hscr2. unfold m1, retable in Hscr2. simpl in Hscr2.
    rewrite Hscr in Hscr2. simpl in Hscr2. by injection Hscr2 as <-. }
  assert (table2 = take 256 shown) as ->.
  { unfold screen_table in Htab2. rewrite Hscr2 in Htab2. simpl in Htab2. congruence. }
  exists m', scr, frame. unfold flip. rewrite Hfake.
  unfold getPalette in Hcur. rewrite Hcur. simpl.
  replace (length cur <? 256)%nat with false by (symmetry; apply Nat.ltb_ge; lia).
  rewrite H1. simpl. rewrite H2. simpl. rewrite Hp. simpl.
  rewrite Hpix, Hw, Hh in Hpx.
  split; [done|]. split; [done|]. subst m'.
  split; [exact Htab2|].
  split. { unfold screen_pixels. simpl. rewrite Hscr2. simpl. by rewrite Hpix. }
  split. { simpl. rewrite Hm2. unfold m1. simpl.
           by rewrite <- !(assoc_L (++)). }
  split; [exact Hpx|].
  split. { rewrite Hm2. unfold m1. by repeat split. }
  split; [|exact Hr']. rewrite Hm2. reflexivity.
Qed.


Lemma kept_deref m m' p : kept m m' → deref m' p = deref m p.
Proof. intros (Hl & Hm & _). destruct p; simpl; congruence. Qed.

(** ** The frame in emulated mode *)

(** C1.  In emulated mode a call of [flip] with an effect chain copies the
    current palette into the scratch array, applies the chain to that copy
    and pushes the result to the colour table of the display, in this order;
    the current palette pointer and the array behind it are the same after
    the call as before. *)
Theorem flip_effects_on_scratch_copy m mspf eff stopped stack cur eff1 shown calls :
  fakePalette (video m) = true → ready m →
  deref m (getPalette m) = Some cur → (256 ≤ length cur)%nat →
  PaletteEffect_apply eff (take 256 cur) false mspf stopped = (eff1, shown, calls) →
  (256 ≤ length shown)%nat → Forall call_ok calls →
  ∃ m' frame,
    flip PaletteEffect_apply m mspf (Some eff) stopped stack
      = Some (m', Some eff1) ∧
    screen_table m' = Some (take 256 shown) ∧
    events m' = events m ++ EvApplyEffects false :: (call_event <$> calls) ++
                  [EvSetPaletteColors 0 256 (take 256 shown); EvPresent frame] ∧
    getPalette m' = getPalette m ∧
    deref m' (getPalette m') = Some cur.
Proof.
  intros Hfake Hr Hcur Hlen Happ Hshown Hok.
  destruct (flip_emulated_run m mspf eff stopped stack cur eff1 shown calls)
    as (m' & scr & frame & Hflip & _ & Htab & _ & Hev & _ & K & Hptr & _);
    try done.
  exists m', frame. repeat (split; [done|]).
  by rewrite Hptr, (kept_deref m m').
Qed.

(** C2.  In emulated mode [flip] gives every pixel position of the frame the
    colour that the colour table just pushed (the scratch palette when there
    is an effect chain) holds for the palette index stored at that position
    of the framebuffer, and presents the frame so built. *)
Theorem flip_remaps_every_pixel m mspf effs stopped stack :
  fakePalette (video m) = true → ready m →
  effects_ok PaletteEffect_apply m effs mspf stopped →
  ∃ m' effs' scr table frame,
    flip PaletteEffect_apply m mspf effs stopped stack = Some (m', effs') ∧
    screen (video m) = Some scr ∧
    pushed_table PaletteEffect_apply m effs mspf stopped = Some table ∧
    screen_table m' = Some table ∧
    last (events m') = Some (EvPresent frame) ∧
    ∀ i, (i < Z.to_nat (w scr * h scr))%nat →
      ∃ index c,
        pixels scr !! i = Some index ∧
        table !! Z.to_nat (to_uint8 index) = Some c ∧
        frame !! i = Some (RGBColor c) ∧
        (0 ≤ r c < 256 → 0 ≤ g c < 256 → 0 ≤ b c < 256 →
         channel (RGBColor c) 24 = r c ∧ channel (RGBColor c) 16 = g c ∧
         channel (RGBColor c) 8 = b c).
Proof.
  intros Hfake Hr Hok. destruct effs as [eff|].
  - destruct Hok as (cur & Hcur & Hlen & Hshown & Hcalls).
    destruct (PaletteEffect_apply eff (take 256 cur) false mspf stopped)
      as [[eff1 shown] calls] eqn:Happ.
    simpl in Hshown, Hcalls.
    destruct (flip_emulated_run m mspf eff stopped stack cur eff1 shown calls)
      as (m' & scr & frame & Hflip & Hscr & Htab & _ & Hev & Hpx & _); try done.
    exists m', (Some eff1), scr, (take 256 shown), frame.
    repeat (split; [done|]).
    split. { simpl. unfold scratch_palette. rewrite Hcur. simpl. by rewrite Happ. }
    split; [done|].
    split.
    { rewrite Hev, app_comm_cons, (assoc_L (++)). apply last_snoc2. }
    intros i Hi. destruct (Hpx i Hi) as (index & c & H1 & H2 & H3).
    exists index, c. repeat (split; [done|]). intros Hcr Hcg Hcb.
    destruct (RGBColor_channels c Hcr Hcg Hcb) as (? & ? & ? & _). done.
  - destruct (flip_plain_run m mspf stopped stack Hr)
      as (m' & scr & table & hs' & frame & Hflip & Hscr & Hpal & Hpx & -> & _).
    eexists; exists None, scr, table, frame.
    split; [exact Hflip|]. split; [done|].
    assert (screen_table m = Some table) as Htab
      by (unfold screen_table; by rewrite Hscr).
    split; [done|]. split; [done|]. split; [apply last_snoc|].
    intros i Hi. destruct (Hpx i Hi) as (index & c & H1 & H2 & H3).
    exists index, c. repeat (split; [done|]). intros Hcr Hcg Hcb.
    destruct (RGBColor_channels c Hcr Hcg Hcb) as (? & ? & ? & _). done.
Qed.


(** ** Partial palette updates *)

(** C4.  [changePalette] rewrites the display-palette entries with indices
    in [first, first + amount) and no other: the entries outside that range
    are the same before and after, the framebuffer and the presented surface
    are untouched, and the only call made at the display boundary is the
    palette update (no fill of the framebuffer, no presentation). *)
Theorem changePalette_touches_only_range m colors first amount table :
  0 ≤ first < 256 → 0 ≤ amount ≤ Z.of_nat (length colors) →
  amount ≤ 2147483647 →
  screen_table m = Some table → length table = 256%nat →
  ∃ m' table',
    changePalette m colors first amount = Some m' ∧
    screen_table m' = Some table' ∧ length table' = 256%nat ∧
    (∀ i : nat, Z.of_nat i < first ∨ first + amount ≤ Z.of_nat i →
                table' !! i = table !! i) ∧
    (∀ i : nat, first ≤ Z.of_nat i < first + amount → (i < 256)%nat →
                table' !! i = colors !! (i - Z.to_nat first)%nat) ∧
    screen_pixels m' = screen_pixels m ∧
    helper_surface (video m') = helper_surface (video m) ∧
    events m' = events m ++
                [EvSetPaletteColors first amount (take (Z.to_nat amount) colors)].
Proof.
  intros Hfirst Hamount Hmax Htab Hlen. unfold changePalette.
  rewrite to_uint8_small, to_int32_small by lia.
  destruct (set_screen_palette_total m colors first amount table Htab)
    as [m' Hset]; [lia..|].
  apply set_screen_palette_inv in Hset as Hinv. destruct Hinv as [_ Hm'].
  exists m', (list_inserts (Z.to_nat first) (take (Z.to_nat amount) colors) table).
  assert (length (take (Z.to_nat amount) colors) = Z.to_nat amount) as Htake
    by (rewrite length_take; lia).
  split; [done|]. rewrite Hm'.
  split. { by rewrite retable_table, Htab. }
  split. { by rewrite length_inserts. }
  split.
  { intros i [Hi|Hi].
    - apply list_lookup_inserts_lt. lia.
    - apply list_lookup_inserts_ge. lia. }
  split.
  { intros i Hi Hi256.
    rewrite list_lookup_inserts by lia. apply lookup_take_lt. lia. }
  split; [apply retable_pixels|]. done.
Qed.

(** ** Usable surfaces in every reachable world *)

Lemma ready_same_surfaces m m' :
  screen (video m') = screen (video m) →
  helper_surface (video m') = helper_surface (video m) →
  ready m → ready m'.
Proof. unfold ready. by intros -> ->. Qed.

Lemma reset_ready m width height m' ok :
  4 * DEFAULT_SCREEN_WIDTH * DEFAULT_SCREEN_HEIGHT ≤ 2147483647 →
  reset DEFAULT_SCREEN_WIDTH DEFAULT_SCREEN_HEIGHT m width height = Some (m', ok) →
  ready m'.
Proof.
  intros Hmax. unfold reset.
  set (m2 := set_canvas_size _ _ _). intros H.
  destruct (expose m2) as [m3|] eqn:Hexp; [|done]. simpl in H. simplify_eq.
  apply (ready_same_surfaces m3); [done..|].
  apply (expose_ready m2); [|done].
  unfold expose in Hexp.
  destruct (set_screen_palette m2 _ 0 256) as [m4|] eqn:Hset; [|done].
  apply set_screen_palette_inv in Hset as [[scr Hscr] _].
  simpl in Hscr.
  destruct (SDL_CreateRGBSurface_8 _ _ _ Hscr)
    as (table & Hpal & Hlen & Hw & Hh & Hbpp & Hwp & Hh0 & Hpx & Hwh).
  destruct (SDL_CreateRGBSurface_32 DEFAULT_SCREEN_WIDTH DEFAULT_SCREEN_HEIGHT)
    as (hs & Hhs & Hhslen); [lia..|].
  exists scr, hs, table. simpl. rewrite Hhs, Hhslen, Hw, Hh.
  repeat (split; [done || lia|]). lia.
Qed.

Lemma apply_effects_ready m eff shown0 direct mspf stopped m' eff1 shown :
  ready m →
  apply_effects PaletteEffect_apply m eff shown0 direct mspf stopped
    = Some (m', eff1, shown) →
  ready m'.
Proof.
  intros Hr (calls & f & _ & Hf & ->)%apply_effects_inv. by apply retable_ready.
Qed.

Lemma flip_ready m mspf effs stopped stack m' effs' :
  ready m →
  flip PaletteEffect_apply m mspf effs stopped stack = Some (m', effs') →
  ready m'.
Proof.
  unfold flip. intros Hr H.
  destruct effs as [eff|].
  - destruct (fakePalette (video m)).
    + destruct (deref m _) as [cur|]; [|done]. simpl in H.
      destruct (length cur <? 256)%nat; [done|].
      destruct (apply_effects _ _ _ _ _ _ _) as [[[m1 eff1] shown]|] eqn:Happ;
        [|done].
      simpl in H.
      destruct (set_screen_palette m1 shown 0 256) as [m2|] eqn:Hset; [|done].
      simpl in H. destruct (present m2) as [m3|] eqn:Hpres; [|done].
      simpl in H. simplify_eq.
      eauto using apply_effects_ready, set_screen_palette_ready, present_ready.
    + destruct (apply_effects _ _ _ _ _ _ _) as [[[m1 eff1] shown]|] eqn:Happ;
        [|done].
      simpl in H. destruct (present m1) as [m3|] eqn:Hpres; [|done].
      simpl in H. simplify_eq.
      eauto using apply_effects_ready, present_ready.
  - simpl in H. destruct (present m) as [m3|] eqn:Hpres; [|done].
    simpl in H. simplify_eq. eauto using present_ready.
Qed.

Lemma setPalette_ready m p m' :
  ready m → setPalette PaletteEffect_apply SDL_MapRGB m p = Some m' → ready m'.
Proof.
  unfold setPalette. intros Hr H.
  destruct (screen (video m)) as [scr|]; [|done]. simpl in H.
  destruct (flip _ _ _ _ _ _) as [[m2 effs]|] eqn:Hflip; [|done]. simpl in H.
  destruct (deref m2 p) as [colors|]; [|done]. simpl in H.
  destruct (set_screen_palette m2 colors 0 256) as [m3|] eqn:Hset; [|done].
  simpl in H. destruct (screen (video m3)) as [scr3|]; [|done]. simpl in H.
  destruct (palette scr3) as [table|]; [|done]. simpl in H.
  destruct (length table <? 255)%nat; [done|]. simplify_eq.
  apply (ready_same_surfaces m3); [done..|].
  apply (set_screen_palette_ready m2 colors 0 256); [|done].
  apply flip_ready in Hflip; [done|].
  unfold clearScreen. apply (ready_events (set_video m _)), ready_fill, Hr.
Qed.

Lemma run_op_ready m o m' :
  4 * DEFAULT_SCREEN_WIDTH * DEFAULT_SCREEN_HEIGHT ≤ 2147483647 →
  ready m →
  run_op PaletteEffect_apply DEFAULT_SCREEN_WIDTH DEFAULT_SCREEN_HEIGHT
         SDL_MapRGB m o = Some m' →
  ready m'.
Proof.
  intros Hmax Hr. destruct o; simpl; intros H.
  - unfold init in H.
    destruct (reset _ _ _ _ _) as [[m1 ok]|] eqn:Hreset; [|done].
    simpl in H. apply reset_ready in Hreset; [|done].
    destruct (negb ok); simpl in H; by simplify_eq.
  - destruct (reset _ _ _ _ _) as [[m1 ok]|] eqn:Hreset; [|done].
    simpl in H. simplify_eq. by apply reset_ready in Hreset.
  - by simplify_eq.
  - eauto using setPalette_ready.
  - eauto using set_screen_palette_ready.
  - destruct Hr as (scr & hs & table & Hscr & Hhs & Hpal & Hlen & Hrest).
    rewrite Hscr in H. simpl in H. unfold restoreSurfacePalette in H.
    destruct (SDL_SetPaletteColors _ _ _ _) as [pal|] eqn:Hset; [|done].
    simpl in H. simplify_eq.
    apply SDL_SetPaletteColors_inv in Hset as ->. rewrite Hpal. simpl.
    eexists _, hs, _. simpl. rewrite length_inserts.
    repeat (split; [done|]). done.
  - eauto using expose_ready.
  - unfold update in H. destruct event as [sym modifiers|type]; [|by simplify_eq].
    destruct (_ && _); [|by simplify_eq].
    destruct (reset _ _ _ _ _) as [[m1 ok]|] eqn:Hreset; [|done].
    simpl in H. simplify_eq. by apply reset_ready in Hreset.
  - destruct (flip _ _ _ _ _ _) as [[m1 effs]|] eqn:Hf; [|done].
    simpl in H. simplify_eq. eauto using flip_ready.
  - simplify_eq. unfold clearScreen.
    apply (ready_events (set_video m _)), ready_fill, Hr.
  - simplify_eq. unfold drawRect.
    apply (ready_events (set_video m _)), ready_fill, Hr.
Qed.

Lemma reachable_ready m :
  4 * DEFAULT_SCREEN_WIDTH * DEFAULT_SCREEN_HEIGHT ≤ 2147483647 →
  reachable PaletteEffect_apply DEFAULT_SCREEN_WIDTH DEFAULT_SCREEN_HEIGHT
            SDL_MapRGB m →
  ready m.
Proof.
  intros Hmax.
  induction 1 as [raw cw ch mem width height fs m Hinit|m o m' _ IH Hop].
  - unfold init in Hinit.
    destruct (reset _ _ _ _ _) as [[m1 ok]|] eqn:Hreset; [|done].
    simpl in Hinit. apply reset_ready in Hreset; [|done].
    destruct (negb ok); simpl in Hinit; by simplify_eq.
  - eauto using run_op_ready.
Qed.


(** C10.  [changePalette] leaves the current palette pointer and the array
    behind it as they are, so in a running program the next [flip] with an
    effect chain builds the shown palette from the current palette alone and
    installs it over all 256 entries of the display palette: what
    [changePalette] had installed is gone. *)
Theorem changePalette_discarded_by_flip m colors first amount m1 :
  changePalette m colors first amount = Some m1 →
  getPalette m1 = getPalette m ∧
  (∀ p, deref m1 p = deref m p) ∧
  (4 * DEFAULT_SCREEN_WIDTH * DEFAULT_SCREEN_HEIGHT ≤ 2147483647 →
   reachable PaletteEffect_apply DEFAULT_SCREEN_WIDTH DEFAULT_SCREEN_HEIGHT
             SDL_MapRGB m →
   ∀ mspf eff stopped stack cur eff1 shown calls,
     deref m (getPalette m) = Some cur → (256 ≤ length cur)%nat →
     PaletteEffect_apply eff (take 256 cur) false mspf stopped
       = (eff1, shown, calls) →
     (256 ≤ length shown)%nat → Forall call_ok calls →
     ∃ m2 frame,
       flip PaletteEffect_apply m1 mspf (Some eff) stopped stack
         = Some (m2, Some eff1) ∧
       screen_table m2 = Some (take 256 shown) ∧
       events m2 = events m1 ++ EvApplyEffects false :: (call_event <$> calls) ++
                     [EvSetPaletteColors 0 256 (take 256 shown); EvPresent frame]).
Proof.
  intros Hchange. apply set_screen_palette_inv in Hchange as [_ ->].
  split; [done|]. split; [by intros []|].
  intros Hmax Hreach mspf eff stopped stack cur eff1 shown calls Hcur Hlen Happ
    Hshown Hok.
  destruct (reachable_emulated m Hreach) as [Hfake _].
  pose proof (reachable_ready m Hmax Hreach) as Hr.
  set (m1 := retable m _ _).
  destruct (flip_emulated_run m1 mspf eff stopped stack cur eff1 shown calls)
    as (m2 & scr & frame & Hflip & _ & Htab & _ & Hev & _); try done.
  { apply retable_ready; [|done]. intros t. apply length_inserts. }
  by exists m2, frame.
Qed.

(** ** Full palette replacement *)

(** C3.  [setPalette] first fills the framebuffer with one colour and
    presents one frame, still remapped through the old colour table, and only
    then replaces all 256 entries of the display palette; afterwards
    [getPalette] returns the palette that was passed in. *)
Theorem setPalette_blanks_presents_then_replaces m p colors :
  ready m → deref m p = Some colors → (256 ≤ length colors)%nat →
  ∃ m' scr scr' table frame,
    setPalette PaletteEffect_apply SDL_MapRGB m p = Some m' ∧
    screen (video m) = Some scr ∧ palette scr = Some table ∧
    screen (video m') = Some scr' ∧
    events m' = events m ++
                [EvFillRect None (to_uint32 (SDL_MapRGB scr 0 0 0));
                 EvPresent frame;
                 EvSetPaletteColors 0 256 (take 256 colors)] ∧
    blank scr' (to_uint8 (SDL_MapRGB scr 0 0 0)) ∧
    remapped (pixels scr') table frame (Z.to_nat (w scr * h scr)) ∧
    palette scr' = Some (take 256 colors) ∧
    getPalette m' = p ∧
    deref m' (getPalette m') = Some colors.
Proof.
  intros Hr Hp Hlen.
  pose proof Hr as (scr & hs & table & Hscr & Hhs & Hpal & Htablen & Hbpp & Hw
                    & Hh & Hpx & Hmax & Hhpx).
  destruct (SDL_FillRect_whole scr (to_uint32 (SDL_MapRGB scr 0 0 0)))
    as (scr1 & Hfill & (Hw1 & Hh1 & Hp1 & Hb1 & Hl1) & Hpal1 & Hblank);
    [done..|].
  rewrite to_uint8_to_uint32 in Hblank.
  set (m1 := clearScreen m (SDL_MapRGB scr 0 0 0)).
  assert (ready m1) as Hr1
    by (apply (ready_events (set_video m _)), ready_fill, Hr).
  assert (screen (video m1) = Some scr1) as Hscr1
    by (unfold m1, clearScreen; simpl; by rewrite Hscr).
  destruct (flip_plain_run m1 0 false [] Hr1)
    as (m2 & scr1' & table1 & hs' & frame & Hflip & Hscr1' & Htab1 & Hframe
        & Hm2 & Hr2).
  rewrite Hscr1 in Hscr1'. injection Hscr1' as <-.
  rewrite Hpal1, Hpal in Htab1. injection Htab1 as <-.
  assert (deref m2 p = Some colors) as Hp2
    by (rewrite Hm2; destruct p; exact Hp).
  assert (screen (video m2) = Some scr1) as Hscr2
    by (rewrite Hm2; exact Hscr1).
  assert (screen_table m2 = Some table) as Htab2.
  { unfold screen_table. rewrite Hscr2. simpl. congruence. }
  destruct (set_screen_palette_total m2 colors 0 256 table Htab2)
    as [m3 Hset]; [lia..|].
  apply set_screen_palette_inv in Hset as Hinv. destruct Hinv as [_ Hm3].
  assert (screen (video m3) =
          Some (with_palette scr1 (Some (take 256 colors)))) as Hscr3.
  { rewrite Hm3. unfold retable. simpl. rewrite Hscr2. simpl.
    unfold retable_surface. rewrite Hpal1, Hpal. simpl. do 3 f_equal.
    change (Z.to_nat 0) with 0%nat. change (Z.to_nat 256) with 256%nat.
    rewrite <- Htablen. apply list_inserts_whole. lia. }
  exists (set_video m3 (set_currentPalette (video m3) p)), scr,
    (with_palette scr1 (Some (take 256 colors))), table, frame.
  split.
  { unfold setPalette. rewrite Hscr. simpl. fold m1.
    unfold flip_default_paletteEffects, flip_default_effectsStopped.
    rewrite Hflip. simpl. rewrite Hp2. simpl. rewrite Hset. simpl.
    rewrite Hscr3. simpl. rewrite length_take.
    replace (256 `min` length colors <? 255)%nat with false
      by (symmetry; apply Nat.ltb_ge; lia).
    done. }
  repeat (split; [done|]).
  split. { simpl. rewrite Hm3, Hm2. simpl. by rewrite <- !(assoc_L (++)). }
  split; [exact Hblank|].
  split. { simpl. by rewrite <- Hw1, <- Hh1. }
  split; [done|]. split; [done|].
  simpl. rewrite Hm3, Hm2. destruct p; exact Hp.
Qed.


(** ** The logical palette and the emulation flag over whole runs *)

(** C5.  The constructor makes the logical palette the identity mapping
    (entry [i] has red = green = blue = [i] for every [i] from 0 to 255) and
    makes the current palette point at it; no operation of [Video] changes
    the logical palette afterwards. *)
Theorem logicalPalette_identity_and_fixed :
  (∀ raw, length (logicalPalette raw) = 256%nat →
     currentPalette (Video_Video raw) = LogicalPalettePtr ∧
     length (logicalPalette (Video_Video raw)) = 256%nat ∧
     (∀ cw ch mem evs,
        deref (mkWorld (Video_Video raw) cw ch mem evs)
              (getPalette (mkWorld (Video_Video raw) cw ch mem evs))
        = Some (logicalPalette (Video_Video raw))) ∧
     ∀ i, 0 ≤ i < 256 →
       ∃ c, logicalPalette (Video_Video raw) !! Z.to_nat i = Some c ∧
            r c = i ∧ g c = i ∧ b c = i) ∧
  (∀ m o m',
     run_op PaletteEffect_apply DEFAULT_SCREEN_WIDTH DEFAULT_SCREEN_HEIGHT
            SDL_MapRGB m o = Some m' →
     logicalPalette (video m') = logicalPalette (video m)).
Proof.
  split.
  - intros raw Hlen. split; [done|]. split.
    { change (logicalPalette (Video_Video raw))
        with (generate_logicalPalette (logicalPalette raw)).
      unfold generate_logicalPalette. by rewrite foldl_alter_length. }
    split; [done|]. intros i Hi. by apply Video_Video_logicalPalette.
  - intros m o m' Hop. by apply run_op_kept in Hop as [(Hl & _) _].
Qed.

(** C9.  [reset] always leaves [fakePalette] true, and so do a successful
    [init] and a switch between windowed and full-screen mode; in every world
    reachable after initialisation [fakePalette] is true and no effect chain
    has been applied in direct mode. *)
Theorem fakePalette_always_emulated :
  (∀ m width height m' ok,
     reset DEFAULT_SCREEN_WIDTH DEFAULT_SCREEN_HEIGHT m width height
       = Some (m', ok) →
     ok = true ∧ fakePalette (video m') = true) ∧
  (∀ m width height fs m' ok,
     init DEFAULT_SCREEN_WIDTH DEFAULT_SCREEN_HEIGHT m width height fs
       = Some (m', ok) →
     ok = true ∧ fakePalette (video m') = true) ∧
  (∀ m modifiers m',
     Z.land modifiers KMOD_ALT ≠ 0 →
     update DEFAULT_SCREEN_WIDTH DEFAULT_SCREEN_HEIGHT m
            (SDL_KEYDOWN SDLK_RETURN modifiers) = Some m' →
     fullscreen (video m') = negb (fullscreen (video m)) ∧
     fakePalette (video m') = true) ∧
  (∀ m,
     reachable PaletteEffect_apply DEFAULT_SCREEN_WIDTH DEFAULT_SCREEN_HEIGHT
               SDL_MapRGB m →
     fakePalette (video m) = true ∧ EvApplyEffects true ∉ events m).
Proof.
  split; [|split; [|split]].
  - intros m width height m' ok H. by apply reset_kept in H as (? & ? & _).
  - intros m width height fs m' ok H. by apply init_kept in H as (? & ? & _).
  - intros m modifiers m' Halt H. unfold update in H.
    rewrite Z.eqb_refl in H. apply Z.eqb_neq in Halt. rewrite Halt in H.
    simpl in H.
    destruct (reset _ _ _ _ _) as [[m2 ok]|] eqn:Hreset; [|done].
    simpl in H. simplify_eq.
    apply reset_kept in Hreset as Hk. destruct Hk as (_ & Hfake & _).
    split; [|done]. simpl. unfold reset in Hreset.
    destruct (expose _) as [m3|] eqn:Hexp; [|done]. simpl in Hreset.
    simplify_eq. simpl. unfold expose in Hexp.
    destruct (set_screen_palette _ _ 0 256) as [m4|] eqn:H4; [|done].
    simpl in Hexp. destruct (deref m4 _) as [cur|]; [|done]. simpl in Hexp.
    apply set_screen_palette_inv in H4 as [_ ->].
    by apply set_screen_palette_inv in Hexp as [_ ->].
  - apply reachable_emulated.
Qed.


(** ** What the palette and frame operations leave alone *)

Lemma untouched_refl m : untouched m m.
Proof. by repeat split. Qed.

Lemma untouched_trans m1 m2 m3 :
  untouched m1 m2 → untouched m2 m3 → untouched m1 m3.
Proof.
  unfold untouched. intros H1 H2.
  destruct H1 as (? & ? & ? & ? & ? & ? & ? & ? & ?).
  destruct H2 as (? & ? & ? & ? & ? & ? & ? & ? & ?).
  repeat split; congruence.
Qed.

Lemma retable_untouched m f evs : untouched m (retable m f evs).
Proof.
  unfold untouched. rewrite retable_pixels. by repeat split.
Qed.

Lemma set_screen_palette_untouched m colors fc n m' :
  set_screen_palette m colors fc n = Some m' → untouched m m'.
Proof. intros [_ ->]%set_screen_palette_inv. apply retable_untouched. Qed.

Lemma present_untouched m m' : present m = Some m' → untouched m m'.
Proof.
  intros (scr & hs & table & px & hpal & _ & _ & _ & _ & _ & ->)%present_inv.
  by repeat split.
Qed.

Lemma expose_untouched m m' : expose m = Some m' → untouched m m'.
Proof.
  unfold expose. intros H.
  destruct (set_screen_palette m _ 0 256) as [m1|] eqn:H1; [|done]. simpl in H.
  destruct (deref m1 _) as [cur|]; [|done]. simpl in H.
  apply set_screen_palette_untouched in H1, H.
  eapply untouched_trans; [exact H1|exact H].
Qed.

Lemma apply_effects_untouched m eff shown0 direct mspf stopped m' eff1 shown :
  apply_effects PaletteEffect_apply m eff shown0 direct mspf stopped
    = Some (m', eff1, shown) →
  untouched m m'.
Proof.
  intros (calls & f & _ & _ & ->)%apply_effects_inv. apply retable_untouched.
Qed.

Lemma flip_untouched m mspf effs stopped stack m' effs' :
  flip PaletteEffect_apply m mspf effs stopped stack = Some (m', effs') →
  untouched m m'.
Proof.
  unfold flip. intros H.
  destruct effs as [eff|].
  - destruct (fakePalette (video m)).
    + destruct (deref m _) as [cur|]; [|done]. simpl in H.
      destruct (length cur <? 256)%nat; [done|].
      destruct (apply_effects _ _ _ _ _ _ _) as [[[m1 eff1] shown]|] eqn:Happ;
        [|done].
      simpl in H.
      destruct (set_screen_palette m1 shown 0 256) as [m2|] eqn:Hset; [|done].
      simpl in H. destruct (present m2) as [m3|] eqn:Hpres; [|done].
      simpl in H. simplify_eq.
      apply apply_effects_untouched in Happ.
      apply set_screen_palette_untouched in Hset.
      apply present_untouched in Hpres.
      eapply untouched_trans; [exact Happ|].
      eapply untouched_trans; [exact Hset|exact Hpres].
    + destruct (apply_effects _ _ _ _ _ _ _) as [[[m1 eff1] shown]|] eqn:Happ;
        [|done].
      simpl in H. destruct (present m1) as [m3|] eqn:Hpres; [|done].
      simpl in H. simplify_eq.
      apply apply_effects_untouched in Happ.
      apply present_untouched in Hpres.
      eapply untouched_trans; [exact Happ|exact Hpres].
  - simpl in H. destruct (present m) as [m3|] eqn:Hpres; [|done].
    simpl in H. simplify_eq. eauto using present_untouched.
Qed.

(** X1.  [flip] never draws into the indexed framebuffer and never moves
    the current palette: whatever the mode and the effect chain, the pixels
    of the screen, the current palette pointer, the arrays of the callers and
    the logical palette are the same after the call as before. *)
Theorem flip_keeps_framebuffer_and_palette m mspf effs stopped stack m' effs' :
  flip PaletteEffect_apply m mspf effs stopped stack = Some (m', effs') →
  screen_pixels m' = screen_pixels m ∧
  getPalette m' = getPalette m ∧
  (∀ p, deref m' p = deref m p) ∧
  logicalPalette (video m') = logicalPalette (video m).
Proof.
  intros H. pose proof (flip_untouched _ _ _ _ _ _ _ H) as (Hptr & Hpx & _).
  apply flip_kept in H as [K _].
  split; [done|]. split; [done|].
  split; [intros p; by apply kept_deref|]. by destruct K.
Qed.


(** ** Refreshing the display palette *)

Lemma set_screen_palette_whole m colors table :
  screen_table m = Some table → length table = 256%nat →
  (256 ≤ length colors)%nat →
  ∃ m', set_screen_palette m colors 0 256 = Some m' ∧
        screen_table m' = Some (take 256 colors) ∧
        m' = retable m (list_inserts 0 (take 256 colors))
                     [EvSetPaletteColors 0 256 (take 256 colors)].
Proof.
  intros Htab Hlen Hcolors.
  destruct (set_screen_palette_total m colors 0 256 table Htab) as [m' Hset];
    [lia..|].
  exists m'. split; [done|].
  apply set_screen_palette_inv in Hset as [_ ->].
  change (Z.to_nat 0) with 0%nat. change (Z.to_nat 256) with 256%nat.
  split; [|done]. rewrite retable_table, Htab. simpl. f_equal.
  rewrite <- Hlen. apply list_inserts_whole. lia.
Qed.

Lemma expose_run m table cur :
  screen_table m = Some table → length table = 256%nat →
  (256 ≤ length (logicalPalette (video m)))%nat →
  deref m (getPalette m) = Some cur → (256 ≤ length cur)%nat →
  ∃ m', expose m = Some m' ∧
        screen_table m' = Some (take 256 cur) ∧
        events m' = events m ++
                    [EvSetPaletteColors 0 256 (take 256 (logicalPalette (video m)));
                     EvSetPaletteColors 0 256 (take 256 cur)] ∧
        untouched m m' ∧ kept m m'.
Proof.
  intros Htab Hlen Hlog Hcur Hcurlen.
  destruct (set_screen_palette_whole m (logicalPalette (video m)) table)
    as (m1 & H1 & Htab1 & Hm1); [done..|].
  assert (deref m1 (currentPalette (video m1)) = Some cur) as Hcur1.
  { rewrite Hm1. destruct (currentPalette (video m)) eqn:Hp;
      unfold getPalette in Hcur; rewrite Hp in Hcur; simpl; by rewrite ?Hp. }
  destruct (set_screen_palette_whole m1 cur (take 256 (logicalPalette (video m))))
    as (m2 & H2 & Htab2 & Hm2); [done|rewrite length_take; lia|done|].
  exists m2. unfold expose. rewrite H1. simpl. rewrite Hcur1. simpl.
  split; [done|]. split; [done|].
  split. { rewrite Hm2, Hm1. simpl. by rewrite <- (assoc_L (++)). }
  split.
  - eapply untouched_trans; eauto using set_screen_palette_untouched.
  - apply set_screen_palette_kept in H1 as [K1 _], H2 as [K2 _].
    eauto using kept_trans.
Qed.

(** X2.  [expose] installs the current palette over the whole display
    palette: it pushes the logical palette and then the current one, each
    over all 256 entries, so the table ends up holding the first 256 colours
    of the current palette; framebuffer and current palette are untouched. *)
Theorem expose_installs_current_palette m table cur :
  screen_table m = Some table → length table = 256%nat →
  (256 ≤ length (logicalPalette (video m)))%nat →
  deref m (getPalette m) = Some cur → (256 ≤ length cur)%nat →
  ∃ m', expose m = Some m' ∧
        screen_table m' = Some (take 256 cur) ∧
        events m' = events m ++
                    [EvSetPaletteColors 0 256 (take 256 (logicalPalette (video m)));
                     EvSetPaletteColors 0 256 (take 256 cur)] ∧
        screen_pixels m' = screen_pixels m ∧
        getPalette m' = getPalette m.
Proof.
  intros Htab Hlen Hlog Hcur Hcurlen.
  destruct (expose_run m table cur) as (m' & He & Ht & Hev & U & _); [done..|].
  exists m'. destruct U as (? & ? & _). auto.
Qed.

(** X3.  A partial update made with [changePalette] does not survive
    [expose]: after [changePalette] and then [expose] the display palette is
    again the first 256 colours of the current palette. *)
Theorem changePalette_discarded_by_expose m colors first amount m1 table cur :
  changePalette m colors first amount = Some m1 →
  screen_table m = Some table → length table = 256%nat →
  (256 ≤ length (logicalPalette (video m)))%nat →
  deref m (getPalette m) = Some cur → (256 ≤ length cur)%nat →
  ∃ m2, expose m1 = Some m2 ∧ screen_table m2 = Some (take 256 cur).
Proof.
  intros Hchange Htab Hlen Hlog Hcur Hcurlen.
  apply set_screen_palette_inv in Hchange as [_ ->].
  set (m1 := retable m _ _).
  assert (screen_table m1 =
          Some (list_inserts (Z.to_nat (to_uint8 first))
                  (take (Z.to_nat (to_int32 amount)) colors) table)) as Htab1
    by (unfold m1; by rewrite retable_table, Htab).
  assert (deref m1 (getPalette m1) = Some cur) as Hcur1.
  { unfold m1, getPalette in *. simpl.
    destruct (currentPalette (video m)); exact Hcur. }
  destruct (expose_run m1 _ cur Htab1) as (m2 & He & Ht & _);
    [by rewrite length_inserts|done..|].
  by exists m2.
Qed.


(** ** Setting the video mode *)

Lemma reset_fields m width height m' ok :
  reset DEFAULT_SCREEN_WIDTH DEFAULT_SCREEN_HEIGHT m width height = Some (m', ok) →
  getWidth m' = width ∧ getHeight m' = height ∧
  canvasW m' = width ∧ canvasH m' = height ∧
  getMaxWidth m' = getMaxWidth m ∧ getMaxHeight m' = getMaxHeight m ∧
  isFullscreen m' = isFullscreen m ∧ getPalette m' = getPalette m.
Proof.
  unfold reset. intros H.
  destruct (expose _) as [m3|] eqn:Hexp; [|done]. simpl in H. simplify_eq.
  apply expose_untouched in Hexp
    as (Hp & _ & Hw & Hh & Hmw & Hmh & Hfs & Hcw & Hch).
  unfold getWidth, getHeight, getMaxWidth, getMaxHeight, isFullscreen,
    getPalette in *.
  simpl in *. auto 10.
Qed.

Lemma reset_run m width height cur :
  is_Some (SDL_CreateRGBSurface DEFAULT_SCREEN_WIDTH DEFAULT_SCREEN_HEIGHT 8) →
  (256 ≤ length (logicalPalette (video m)))%nat →
  deref m (getPalette m) = Some cur → (256 ≤ length cur)%nat →
  ∃ m' scr',
    reset DEFAULT_SCREEN_WIDTH DEFAULT_SCREEN_HEIGHT m width height
      = Some (m', true) ∧
    screen (video m') = Some scr' ∧
    w scr' = DEFAULT_SCREEN_WIDTH ∧ h scr' = DEFAULT_SCREEN_HEIGHT ∧
    Forall (λ px, px = 0) (pixels scr') ∧
    palette scr' = Some (take 256 cur) ∧
    kept m m'.
Proof.
  intros [scr0 Hscr0] Hlog Hcur Hcurlen.
  destruct (SDL_CreateRGBSurface_8 _ _ _ Hscr0)
    as (table & Hpal & Hlen & Hw & Hh & _).
  assert (pixels scr0 = replicate (length (pixels scr0)) 0) as Hzero.
  { unfold SDL_CreateRGBSurface in Hscr0.
    destruct (_ || _); [done|]. injection Hscr0 as <-. simpl.
    by rewrite length_replicate. }
  unfold reset. rewrite Hscr0.
  set (m2 := set_canvas_size _ _ _).
  assert (screen_table m2 = Some table) as Htab2 by exact Hpal.
  assert (deref m2 (getPalette m2) = Some cur) as Hcur2.
  { unfold getPalette in *. simpl. destruct (currentPalette (video m)); exact Hcur. }
  destruct (expose_run m2 table cur Htab2 Hlen Hlog Hcur2 Hcurlen)
    as (m3 & He & Ht & _ & U & K).
  rewrite He. simpl.
  assert (∃ scr3, screen (video m3) = Some scr3) as [scr3 Hscr3].
  { unfold screen_table in Ht. destruct (screen (video m3)); [eauto|done]. }
  exists (set_video m3 (set_fakePalette (video m3) true)), scr3.
  split; [done|]. split; [exact Hscr3|].
  destruct U as (_ & Hpx & _). unfold screen_pixels in Hpx.
  rewrite Hscr3 in Hpx. simpl in Hpx. injection Hpx as Hpx.
  assert (w scr3 = w scr0 ∧ h scr3 = h scr0) as [Hw3 Hh3].
  { unfold expose in He.
    destruct (set_screen_palette m2 _ 0 256) as [m4|] eqn:H4; [|done].
    simpl in He. destruct (deref m4 _) as [c|]; [|done]. simpl in He.
    apply set_screen_palette_inv in H4 as [_ ->].
    apply set_screen_palette_inv in He as [_ ->].
    simpl in Hscr3. by injection Hscr3 as <-. }
  split; [congruence|]. split; [congruence|].
  split. { rewrite Hpx, Hzero. by apply Forall_replicate. }
  split. { unfold screen_table in Ht. by rewrite Hscr3 in Ht. }
  destruct K as (Hl & Hm & Hf). by repeat split.
Qed.

(** X4.  [reset] in the SDL2 build replaces the framebuffer by a new surface
    of the default size, all zero, whose colour table is filled from the
    current palette, whatever the requested size; the requested size is only
    recorded, in what [getWidth] and [getHeight] return and in [canvasW] and
    [canvasH].  Mode flag and current palette are kept. *)
Theorem reset_new_framebuffer_of_default_size m width height cur :
  is_Some (SDL_CreateRGBSurface DEFAULT_SCREEN_WIDTH DEFAULT_SCREEN_HEIGHT 8) →
  (256 ≤ length (logicalPalette (video m)))%nat →
  deref m (getPalette m) = Some cur → (256 ≤ length cur)%nat →
  ∃ m' scr',
    reset DEFAULT_SCREEN_WIDTH DEFAULT_SCREEN_HEIGHT m width height
      = Some (m', true) ∧
    screen (video m') = Some scr' ∧
    w scr' = DEFAULT_SCREEN_WIDTH ∧ h scr' = DEFAULT_SCREEN_HEIGHT ∧
    Forall (λ px, px = 0) (pixels scr') ∧
    palette scr' = Some (take 256 cur) ∧
    getWidth m' = width ∧ getHeight m' = height ∧
    canvasW m' = width ∧ canvasH m' = height ∧
    isFullscreen m' = isFullscreen m ∧ getPalette m' = getPalette m.
Proof.
  intros Hsurf Hlog Hcur Hcurlen.
  destruct (reset_run m width height cur)
    as (m' & scr' & Hreset & Hscr & Hw & Hh & Hzero & Hpal & _); [done..|].
  apply reset_fields in Hreset as Hf.
  destruct Hf as (? & ? & ? & ? & _ & _ & ? & ?).
  exists m', scr'. auto 12.
Qed.

(** X5.  When SDL can create the screen and the current palette has its
    256 entries, [init] succeeds: it reports success, records the requested
    size and mode for [getWidth], [getHeight] and [isFullscreen], sets the
    maximum resolution to the default size and leaves the display palette
    filled from the current palette. *)
Theorem init_records_size_and_mode m width height fs cur :
  is_Some (SDL_CreateRGBSurface DEFAULT_SCREEN_WIDTH DEFAULT_SCREEN_HEIGHT 8) →
  (256 ≤ length (logicalPalette (video m)))%nat →
  deref m (getPalette m) = Some cur → (256 ≤ length cur)%nat →
  ∃ m',
    init DEFAULT_SCREEN_WIDTH DEFAULT_SCREEN_HEIGHT m width height fs
      = Some (m', true) ∧
    getWidth m' = width ∧ getHeight m' = height ∧
    isFullscreen m' = fs ∧
    getMaxWidth m' = DEFAULT_SCREEN_WIDTH ∧
    getMaxHeight m' = DEFAULT_SCREEN_HEIGHT ∧
    getPalette m' = getPalette m ∧
    screen_table m' = Some (take 256 cur).
Proof.
  intros Hsurf Hlog Hcur Hcurlen.
  set (m1 := set_video m (set_fullscreen (video m) fs)).
  assert (deref m1 (getPalette m1) = Some cur) as Hcur1.
  { unfold getPalette in *. simpl. destruct (currentPalette (video m)); exact Hcur. }
  destruct (reset_run m1 width height cur)
    as (m2 & scr' & Hreset & Hscr & _ & _ & _ & Hpal & _); [done..|].
  apply reset_fields in Hreset as Hf.
  destruct Hf as (? & ? & _ & _ & _ & _ & ? & ?).
  exists (findMaxResolution DEFAULT_SCREEN_WIDTH DEFAULT_SCREEN_HEIGHT m2).
  unfold init. fold m1. rewrite Hreset. simpl.
  split; [done|]. repeat (split; [done|]).
  unfold screen_table. simpl. rewrite Hscr. exact Hpal.
Qed.

(** X6.  The palette set with [setPalette] survives a change of video mode:
    a [reset] after [setPalette] fills the colour table of the new
    framebuffer from the array that was passed to [setPalette], and
    [getPalette] still returns that pointer. *)
Theorem setPalette_survives_reset m p m1 colors width height :
  setPalette PaletteEffect_apply SDL_MapRGB m p = Some m1 →
  deref m p = Some colors → (256 ≤ length colors)%nat →
  (256 ≤ length (logicalPalette (video m)))%nat →
  is_Some (SDL_CreateRGBSurface DEFAULT_SCREEN_WIDTH DEFAULT_SCREEN_HEIGHT 8) →
  ∃ m2,
    reset DEFAULT_SCREEN_WIDTH DEFAULT_SCREEN_HEIGHT m1 width height
      = Some (m2, true) ∧
    screen_table m2 = Some (take 256 colors) ∧
    getPalette m2 = p.
Proof.
  intros Hset Hp Hlen Hlog Hsurf.
  apply setPalette_kept in Hset as (K & _ & Hget).
  assert (deref m1 (getPalette m1) = Some colors) as Hcur1
    by (rewrite Hget, (kept_deref m m1); done).
  destruct K as (Hl & _).
  destruct (reset_run m1 width height colors)
    as (m2 & scr' & Hreset & Hscr & _ & _ & _ & Hpal & _);
    [done|by rewrite Hl|done..|].
  apply reset_fields in Hreset as Hf.
  destruct Hf as (_ & _ & _ & _ & _ & _ & _ & Hptr).
  exists m2. split; [done|]. split; [|congruence].
  unfold screen_table. rewrite Hscr. exact Hpal.
Qed.


(** ** Events *)

Lemma update_toggle m modifiers m' :
  Z.land modifiers KMOD_ALT ≠ 0 →
  update DEFAULT_SCREEN_WIDTH DEFAULT_SCREEN_HEIGHT m
         (SDL_KEYDOWN SDLK_RETURN modifiers) = Some m' →
  isFullscreen m' = negb (isFullscreen m) ∧
  getWidth m' = getWidth m ∧ getHeight m' = getHeight m ∧
  getPalette m' = getPalette m ∧
  getMaxWidth m' = DEFAULT_SCREEN_WIDTH ∧
  getMaxHeight m' = DEFAULT_SCREEN_HEIGHT.
Proof.
  intros Halt H. unfold update in H.
  rewrite Z.eqb_refl in H. apply Z.eqb_neq in Halt. rewrite Halt in H.
  simpl in H.
  destruct (reset _ _ _ _ _) as [[m2 ok]|] eqn:Hreset; [|done].
  simpl in H. simplify_eq.
  apply reset_fields in Hreset as (Hw & Hh & _ & _ & _ & _ & Hfs & Hp).
  unfold getWidth, getHeight, isFullscreen, getPalette, getMaxWidth,
    getMaxHeight in *.
  simpl in *. auto 10.
Qed.

(** X7.  Alt+Enter switches between windowed and full-screen mode and keeps
    the recorded size and the current palette; pressed twice it brings the
    mode back to what it was. *)
Theorem update_alt_enter_twice m modifiers m1 m2 :
  Z.land modifiers KMOD_ALT ≠ 0 →
  update DEFAULT_SCREEN_WIDTH DEFAULT_SCREEN_HEIGHT m
         (SDL_KEYDOWN SDLK_RETURN modifiers) = Some m1 →
  update DEFAULT_SCREEN_WIDTH DEFAULT_SCREEN_HEIGHT m1
         (SDL_KEYDOWN SDLK_RETURN modifiers) = Some m2 →
  isFullscreen m1 = negb (isFullscreen m) ∧
  isFullscreen m2 = isFullscreen m ∧
  getWidth m2 = getWidth m ∧ getHeight m2 = getHeight m ∧
  getPalette m2 = getPalette m.
Proof.
  intros Halt H1 H2.
  apply update_toggle in H1 as (Hf1 & Hw1 & Hh1 & Hp1 & _); [|done].
  apply update_toggle in H2 as (Hf2 & Hw2 & Hh2 & Hp2 & _); [|done].
  split; [done|]. split; [by rewrite Hf2, Hf1, negb_involutive|].
  repeat split; congruence.
Qed.

(** ** Filling the framebuffer *)

Lemma SDL_FillRect_pixel scr rect color col row :
  BitsPerPixel scr = 8 → 0 ≤ w scr ≤ pitch scr →
  pitch scr * h scr ≤ Z.of_nat (length (pixels scr)) →
  0 ≤ col < w scr → 0 ≤ row < h scr →
  ∃ scr' old,
    SDL_FillRect (Some scr) rect color = Some scr' ∧
    pixels scr !! Z.to_nat (row * pitch scr + col) = Some old ∧
    pixels scr' !! Z.to_nat (row * pitch scr + col) =
    Some (match rect with
          | None => to_uint8 color
          | Some rc =>
              if (rect_x rc <=? col) && (col <? rect_x rc + rect_w rc) &&
                 (rect_y rc <=? row) && (row <? rect_y rc + rect_h rc)
              then to_uint8 color else old
          end).
Proof.
  intros Hbpp Hw Hpx Hcol Hrow. unfold SDL_FillRect, BytesPerPixel. rewrite Hbpp.
  change ((8 + 7) / 8) with 1. rewrite Z.div_1_r.
  assert (row * pitch scr ≤ (h scr - 1) * pitch scr)
    by (apply Z.mul_le_mono_nonneg_r; lia).
  assert (0 ≤ row * pitch scr) by (apply Z.mul_nonneg_nonneg; lia).
  assert (0 ≤ row * pitch scr + col < Z.of_nat (length (pixels scr))) as Hi by lia.
  destruct (lookup_lt_is_Some_2 (pixels scr) (Z.to_nat (row * pitch scr + col)))
    as [old Hlook]; [lia|].
  eexists _, old. split; [done|]. split; [done|].
  cbn [pixels with_pixels]. rewrite list_lookup_imap, Hlook. simpl.
  rewrite Z2Nat.id by lia.
  rewrite Z.add_comm, Z.mod_add, Z.div_add by lia.
  rewrite Z.mod_small, Z.div_small by lia.
  replace (col <? w scr) with true by (symmetry; apply Z.ltb_lt; lia).
  replace (0 + row <? h scr) with true by (symmetry; apply Z.ltb_lt; lia).
  simpl. destruct rect as [rc|]; [|done].
  by destruct (_ && _).
Qed.

(** X8.  [clearScreen(index)] gives every pixel of the framebuffer the low
    byte of [index] and changes neither the colour table nor the current
    palette. *)
Theorem clearScreen_fills_framebuffer m index :
  ready m →
  ∃ scr',
    screen (video (clearScreen m index)) = Some scr' ∧
    blank scr' (to_uint8 index) ∧
    screen_table (clearScreen m index) = screen_table m ∧
    getPalette (clearScreen m index) = getPalette m ∧
    events (clearScreen m index) = events m ++ [EvFillRect None (to_uint32 index)].
Proof.
  intros (scr & hs & table & Hscr & Hhs & Hpal & Htablen & Hbpp & Hw & Hh & Hpx
          & _).
  destruct (SDL_FillRect_whole scr (to_uint32 index))
    as (scr1 & Hfill & _ & Hpal1 & Hblank); [done..|].
  rewrite to_uint8_to_uint32 in Hblank.
  exists scr1. unfold clearScreen, screen_table. simpl. rewrite Hscr, Hfill.
  simpl. by rewrite Hpal1.
Qed.

(** X9.  [drawRect] writes the low byte of [index] to exactly the pixels of
    the framebuffer that lie inside the rectangle, clipped to the screen;
    every other pixel keeps its value, so a rectangle of no width or height,
    or one outside the screen, changes nothing.  The rectangle is one whose
    corner sums do not come near the ends of the [int] range. *)
Theorem drawRect_fills_clipped_rectangle m x y width height index col row :
  ready m → rect_fits x y width height →
  (∃ scr, screen (video m) = Some scr ∧ 0 ≤ col < w scr ∧ 0 ≤ row < h scr) →
  ∃ scr scr' old,
    screen (video m) = Some scr ∧
    screen (video (drawRect m x y width height index)) = Some scr' ∧
    pixels scr !! Z.to_nat (row * pitch scr + col) = Some old ∧
    pixels scr' !! Z.to_nat (row * pitch scr + col) =
    Some (if (x <=? col) && (col <? x + width) &&
             (y <=? row) && (row <? y + height)
          then to_uint8 index else old) ∧
    screen_table (drawRect m x y width height index) = screen_table m.
Proof.
  intros (scr & hs & table & Hscr & Hhs & Hpal & Htablen & Hbpp & Hw & Hh & Hpx
          & _) _ (scr0 & Hscr0 & Hcol & Hrow).
  rewrite Hscr in Hscr0. injection Hscr0 as <-.
  destruct (SDL_FillRect_pixel scr (Some (mkRect x y width height))
              (to_uint32 index) col row)
    as (scr1 & old & Hfill & Hold & Hnew); [done..|].
  apply SDL_FillRect_geometry in Hfill as Hgeo. destruct Hgeo as [_ Hpal1].
  rewrite to_uint8_to_uint32 in Hnew. simpl in Hnew.
  exists scr, scr1, old. unfold drawRect, screen_table. simpl.
  rewrite Hscr, Hfill. simpl. by rewrite Hpal1.
Qed.


(** ** Before initialisation *)

Lemma retable_null m f evs :
  screen (video m) = None → screen (video (retable m f evs)) = None.
Proof. unfold retable. simpl. by intros ->. Qed.

Lemma flip_null_screen m mspf effs stopped stack :
  screen (video m) = None →
  flip PaletteEffect_apply m mspf effs stopped stack = None.
Proof.
  intros Hnull. unfold flip.
  assert (∀ m1, screen (video m1) = None → present m1 = None) as Hpres
    by (intros m1 H1; unfold present; by rewrite H1).
  assert (∀ m1 colors, screen (video m1) = None →
                       set_screen_palette m1 colors 0 256 = None) as Hset
    by (intros m1 colors H1; unfold set_screen_palette; by rewrite H1).
  destruct effs as [eff|]; [|simpl; by rewrite Hpres].
  destruct (fakePalette (video m)).
  - destruct (deref m _) as [cur|]; [|done]. simpl.
    destruct (length cur <? 256)%nat; [done|].
    destruct (apply_effects _ _ _ _ _ _ _) as [[[m1 eff1] shown]|] eqn:Happ;
      [|done].
    apply apply_effects_inv in Happ as (calls & f & _ & _ & ->).
    simpl. by rewrite Hset by by apply retable_null.
  - destruct (apply_effects _ _ _ _ _ _ _) as [[[m1 eff1] shown]|] eqn:Happ;
      [|done].
    apply apply_effects_inv in Happ as (calls & f & _ & _ & ->).
    simpl. by rewrite Hpres by by apply retable_null.
Qed.

(** X10.  On a [Video] object that has been constructed but not initialised
    the screen pointer is NULL: [flip], [setPalette], [changePalette] and
    [expose] dereference it, which is undefined, while [clearScreen] and
    [drawRect] leave the object as it is, SDL refusing the NULL surface. *)
Theorem operations_before_init raw cw ch mem evs :
  let m := mkWorld (Video_Video raw) cw ch mem evs in
  (∀ mspf effs stopped stack,
     flip PaletteEffect_apply m mspf effs stopped stack = None) ∧
  (∀ p, setPalette PaletteEffect_apply SDL_MapRGB m p = None) ∧
  (∀ colors first amount, changePalette m colors first amount = None) ∧
  expose m = None ∧
  (∀ index, video (clearScreen m index) = video m) ∧
  (∀ x y width height index,
     video (drawRect m x y width height index) = video m).
Proof.
  intros m. split; [|done].
  intros mspf effs stopped stack. by apply flip_null_screen.
Qed.

(** ** Frames without an effect chain *)

(** X11.  Without an effect chain [flip] leaves the display palette alone,
    so a partial update made with [changePalette] stays in force: the next
    frame is remapped through the table that [changePalette] left. *)
Theorem changePalette_visible_without_effects m colors first amount m1 mspf
    stopped stack :
  changePalette m colors first amount = Some m1 → ready m →
  ∃ m2 scr table1 frame,
    flip PaletteEffect_apply m1 mspf None stopped stack = Some (m2, None) ∧
    screen (video m) = Some scr ∧
    screen_table m1 = Some table1 ∧ screen_table m2 = Some table1 ∧
    remapped (pixels scr) table1 frame (Z.to_nat (w scr * h scr)) ∧
    events m2 = events m1 ++ [EvPresent frame].
Proof.
  intros Hchange Hr. apply set_screen_palette_inv in Hchange as [_ ->].
  set (m1 := retable m _ _).
  assert (ready m1) as Hr1
    by (apply retable_ready; [intros t; apply length_inserts|done]).
  destruct (flip_plain_run m1 mspf stopped stack Hr1)
    as (m2 & scr1 & table1 & hs' & frame & Hflip & Hscr1 & Hpal1 & Hpx & -> & _).
  destruct Hr as (scr & hs & table & Hscr & _).
  assert (pixels scr1 = pixels scr ∧ w scr1 = w scr ∧ h scr1 = h scr)
    as (Hp & Hw & Hh).
  { unfold m1, retable in Hscr1. simpl in Hscr1. rewrite Hscr in Hscr1.
    simpl in Hscr1. by injection Hscr1 as <-. }
  rewrite Hp, Hw, Hh in Hpx.
  assert (screen_table m1 = Some table1) as Htab1
    by (unfold screen_table; by rewrite Hscr1).
  eexists; exists scr, table1, frame. split; [exact Hflip|].
  repeat (split; [done|]). done.
Qed.

(** X12.  Once [init] has succeeded, presenting a frame without an effect
    chain is always defined: in every reachable world [flip] with a NULL
    chain returns, having presented exactly one frame, and the world it
    leaves is reachable again. *)
Theorem flip_defined_in_reachable_worlds m mspf stopped stack :
  4 * DEFAULT_SCREEN_WIDTH * DEFAULT_SCREEN_HEIGHT ≤ 2147483647 →
  reachable PaletteEffect_apply DEFAULT_SCREEN_WIDTH DEFAULT_SCREEN_HEIGHT
            SDL_MapRGB m →
  ∃ m' frame,
    flip PaletteEffect_apply m mspf None stopped stack = Some (m', None) ∧
    events m' = events m ++ [EvPresent frame] ∧
    reachable PaletteEffect_apply DEFAULT_SCREEN_WIDTH DEFAULT_SCREEN_HEIGHT
              SDL_MapRGB m'.
Proof.
  intros Hmax Hreach. pose proof (reachable_ready m Hmax Hreach) as Hr.
  destruct (flip_plain_run m mspf stopped stack Hr)
    as (m' & scr & table & hs' & frame & Hflip & _ & _ & _ & Hm' & _).
  exists m', frame. split; [done|]. split; [by rewrite Hm'|].
  apply reachable_step
    with (m := m) (o := OpFlip PaletteEffect mspf None stopped stack); [done|].
  simpl. by rewrite Hflip.
Qed.

Lemma flip_present_inv m mspf effs stopped stack m' effs' :
  flip PaletteEffect_apply m mspf effs stopped stack = Some (m', effs') →
  ∃ f evs, present (retable m f evs) = Some m'.
Proof.
  unfold flip. intros H.
  destruct effs as [eff|].
  - destruct (fakePalette (video m)).
    + destruct (deref m _) as [cur|]; [|done]. simpl in H.
      destruct (length cur <? 256)%nat; [done|].
      destruct (apply_effects _ _ _ _ _ _ _) as [[[m1 eff1] shown]|] eqn:Happ;
        [|done].
      simpl in H.
      destruct (set_screen_palette m1 shown 0 256) as [m2|] eqn:Hset; [|done].
      simpl in H. destruct (present m2) as [m3|] eqn:Hpres; [|done].
      simpl in H. simplify_eq.
      apply apply_effects_inv in Happ as (calls & f & _ & _ & ->).
      apply set_screen_palette_inv in Hset as [_ ->].
      rewrite retable_retable in Hpres. eauto.
    + destruct (apply_effects _ _ _ _ _ _ _) as [[[m1 eff1] shown]|] eqn:Happ;
        [|done].
      simpl in H. destruct (present m1) as [m3|] eqn:Hpres; [|done].
      simpl in H. simplify_eq.
      apply apply_effects_inv in Happ as (calls & f & _ & _ & ->). eauto.
  - simpl in H. destruct (present m) as [m3|] eqn:Hpres; [|done].
    simpl in H. simplify_eq. exists id, []. by rewrite retable_id.
Qed.

(** X13.  Every call of [flip] that returns has presented a frame as its
    last display call, and every pixel of that frame is a 32-bit value whose
    lowest byte, the alpha channel of the texture format, is 0xFF. *)
Theorem flip_presents_opaque_pixels m mspf effs stopped stack m' effs' scr :
  flip PaletteEffect_apply m mspf effs stopped stack = Some (m', effs') →
  screen (video m) = Some scr →
  ∃ frame,
    last (events m') = Some (EvPresent frame) ∧
    ∀ i, (i < Z.to_nat (to_int32 (w scr * h scr)))%nat →
      ∃ px, frame !! i = Some px ∧ channel px 0 = 255 ∧ 0 ≤ px ≤ 4294967295.
Proof.
  intros (f & evs & Hpres)%flip_present_inv Hscr.
  apply present_inv in Hpres
    as (scr1 & hs & table & px & hpal & Hscr1 & _ & _ & Hpx & _ & ->).
  unfold retable in Hscr1. simpl in Hscr1. rewrite Hscr in Hscr1.
  simpl in Hscr1. injection Hscr1 as <-. simpl in Hpx.
  exists px. split; [apply last_snoc|].
  intros i Hi. destruct (Hpx i Hi) as (index & c & _ & _ & Hframe).
  exists (RGBColor c). split; [done|]. apply RGBColor_alpha.
Qed.


(** ** Restoring a surface palette *)

(** X14.  [restoreSurfacePalette] leaves a surface without a colour table
    as it is; on a surface with a 256-entry table it installs the logical
    palette, which after construction is the grey ramp (entry [i] has
    red = green = blue = [i]), and it does not touch the pixels. *)
Theorem restoreSurfacePalette_installs_grey_ramp :
  (∀ v surface,
     palette surface = None → restoreSurfacePalette v surface = Some surface) ∧
  (∀ raw surface table,
     length (logicalPalette raw) = 256%nat →
     palette surface = Some table → length table = 256%nat →
     ∃ surface' table',
       restoreSurfacePalette (Video_Video raw) surface = Some surface' ∧
       pixels surface' = pixels surface ∧
       w surface' = w surface ∧ h surface' = h surface ∧
       palette surface' = Some table' ∧
       ∀ i, 0 ≤ i < 256 →
         ∃ c, table' !! Z.to_nat i = Some c ∧ r c = i ∧ g c = i ∧ b c = i).
Proof.
  split.
  - intros v [ws hs ps bs px pal] Hpal. simpl in Hpal. subst pal. reflexivity.
  - intros raw surface table Hraw Hpal Hlen. unfold restoreSurfacePalette.
    rewrite Hpal.
    assert (length (logicalPalette (Video_Video raw)) = 256%nat) as Hlog.
    { change (logicalPalette (Video_Video raw))
        with (generate_logicalPalette (logicalPalette raw)).
      unfold generate_logicalPalette. by rewrite foldl_alter_length. }
    assert (∀ i, 0 ≤ i < 256 →
              ∃ c, logicalPalette (Video_Video raw) !! Z.to_nat i = Some c ∧
                   r c = i ∧ g c = i ∧ b c = i) as Hramp
      by (intros i Hi; by apply Video_Video_logicalPalette).
    set (lp := logicalPalette (Video_Video raw)) in *. clearbody lp.
    destruct (SDL_SetPaletteColors_total table lp 0 256) as [pal Hset]; [lia..|].
    rewrite Hset. apply SDL_SetPaletteColors_inv in Hset as ->.
    change (Z.to_nat 0) with 0%nat. change (Z.to_nat 256) with 256%nat.
    assert (list_inserts 0 (take 256 lp) table = lp) as Heq.
    { rewrite <- Hlen. rewrite list_inserts_whole by lia.
      rewrite Hlen, <- Hlog. apply firstn_all. }
    exists (with_palette surface (Some lp)), lp.
    split. { cbn [fmap option_fmap option_map mbind option_bind]. by rewrite Heq. }
    repeat (split; [reflexivity|]). exact Hramp.
Qed.

(** ** The current palette over whole runs *)

(** X15.  The current palette pointer is assigned by [setPalette] only:
    every other operation of [Video] returns with [getPalette] unchanged,
    [setPalette] makes it the pointer it was given, and no operation writes
    to an array owned by a caller. *)
Theorem currentPalette_assigned_by_setPalette_only m o m' :
  run_op PaletteEffect_apply DEFAULT_SCREEN_WIDTH DEFAULT_SCREEN_HEIGHT
         SDL_MapRGB m o = Some m' →
  memory m' = memory m ∧
  match o with
  | OpSetPalette _ p => getPalette m' = p
  | _ => getPalette m' = getPalette m
  end.
Proof.
  intros Hop. pose proof (run_op_kept m o m' Hop) as [(_ & Hmem & _) _].
  split; [done|]. destruct o; simpl in Hop.
  - unfold init in Hop.
    destruct (reset _ _ _ _ _) as [[m1 ok]|] eqn:Hr; [|done]. simpl in Hop.
    apply reset_fields in Hr as (_ & _ & _ & _ & _ & _ & _ & Hp).
    destruct (negb ok); simpl in Hop; simplify_eq; exact Hp.
  - destruct (reset _ _ _ _ _) as [[m1 ok]|] eqn:Hr; [|done]. simpl in Hop.
    simplify_eq. by apply reset_fields in Hr as (_ & _ & _ & _ & _ & _ & _ & Hp).
  - by simplify_eq.
  - by apply setPalette_kept in Hop as (_ & _ & Hp).
  - by apply set_screen_palette_untouched in Hop as (Hp & _).
  - destruct (screen (video m)) as [scr|]; [|done]. simpl in Hop.
    destruct (restoreSurfacePalette _ _) as [scr'|]; [|done]. simpl in Hop.
    by simplify_eq.
  - by apply expose_untouched in Hop as (Hp & _).
  - unfold update in Hop. destruct event as [sym modifiers|type]; [|by simplify_eq].
    destruct (_ && _); [|by simplify_eq].
    destruct (reset _ _ _ _ _) as [[m1 ok]|] eqn:Hr; [|done]. simpl in Hop.
    simplify_eq. by apply reset_fields in Hr as (_ & _ & _ & _ & _ & _ & _ & Hp).
  - destruct (flip _ _ _ _ _ _) as [[m1 effs]|] eqn:Hf; [|done].
    simpl in Hop. simplify_eq. by apply flip_untouched in Hf as (Hp & _).
  - by simplify_eq.
  - by simplify_eq.
Qed.

(** ** The bounds of a partial update *)

(** X16.  An update that runs past the end of the display palette is cut
    off there: with [first + amount] beyond 256, [changePalette] reads only
    [256 - first] colours and rewrites the entries from [first] to 255,
    leaving those below [first] as they were. *)
Theorem changePalette_clamped_at_table_end m colors first amount table :
  screen_table m = Some table → length table = 256%nat →
  0 ≤ first < 256 → 256 - first ≤ amount ≤ 2147483647 →
  256 - first ≤ Z.of_nat (length colors) →
  ∃ m' table',
    changePalette m colors first amount = Some m' ∧
    screen_table m' = Some table' ∧ length table' = 256%nat ∧
    (∀ i : nat, Z.of_nat i < first → table' !! i = table !! i) ∧
    (∀ i : nat, first ≤ Z.of_nat i < 256 →
                table' !! i = colors !! (i - Z.to_nat first)%nat).
Proof.
  intros Htab Hlen Hfirst Hamount Hcolors. unfold changePalette.
  rewrite to_uint8_small, to_int32_small by lia.
  assert (∃ m', set_screen_palette m colors first amount = Some m') as [m' Hset].
  { unfold set_screen_palette, screen_table in *.
    destruct (screen (video m)) as [scr|]; [|done]. simpl in *. rewrite Htab.
    destruct (SDL_SetPaletteColors_total_clamped table colors first amount)
      as [pal ->]; [lia..|]. simpl. eauto. }
  apply set_screen_palette_inv in Hset as Hinv. destruct Hinv as [_ Hm'].
  exists m', (list_inserts (Z.to_nat first) (take (Z.to_nat amount) colors) table).
  split; [done|]. rewrite Hm'.
  split. { by rewrite retable_table, Htab. }
  split. { by rewrite length_inserts. }
  split.
  - intros i Hi. apply list_lookup_inserts_lt. lia.
  - intros i Hi.
    rewrite list_lookup_inserts by (rewrite ?length_take; lia).
    apply lookup_take_lt. lia.
Qed.

(** X17.  An [amount] of 2^31 or more does not fit the [int] parameter of
    SDL: it arrives there as a negative count, and on a screen with a colour
    table the copy is then undefined. *)
Theorem changePalette_amount_beyond_int m colors first amount table :
  screen_table m = Some table →
  2147483648 ≤ amount < 4294967296 →
  to_int32 amount < 0 ∧ changePalette m colors first amount = None.
Proof.
  intros Htab Hamount.
  assert (to_int32 amount = amount - 4294967296) as Hneg.
  { unfold to_int32.
    replace (amount + 2147483648)
      with (amount - 2147483648 + 1 * 4294967296) by lia.
    rewrite Z.mod_add, Z.mod_small by lia. lia. }
  split; [lia|]. unfold changePalette, set_screen_palette, screen_table in *.
  destruct (screen (video m)) as [scr|]; [|done]. simpl in *. rewrite Htab.
  by rewrite SDL_SetPaletteColors_negative by lia.
Qed.

(** X18.  [setPalette] reads 256 colours from the array it is given: with a
    pointer to no array, or to one of fewer than 256 entries, the call is
    undefined. *)
Theorem setPalette_needs_256_colours m p :
  ready m →
  deref m p = None ∨
  (∃ colors, deref m p = Some colors ∧ (length colors < 256)%nat) →
  setPalette PaletteEffect_apply SDL_MapRGB m p = None.
Proof.
  intros Hr Hp.
  pose proof Hr as (scr & hs & table & Hscr & _).
  set (m1 := clearScreen m (SDL_MapRGB scr 0 0 0)).
  assert (ready m1) as Hr1
    by (apply (ready_events (set_video m _)), ready_fill, Hr).
  destruct (flip_plain_run m1 0 false [] Hr1)
    as (m2 & scr1 & table1 & hs' & frame & Hflip & Hscr1 & Htab1 & _ & Hm2 & Hr2).
  assert (∀ q, deref m2 q = deref m q) as Hderef
    by (intros q; rewrite Hm2; by destruct q).
  unfold setPalette. rewrite Hscr. simpl. fold m1.
  unfold flip_default_paletteEffects, flip_default_effectsStopped.
  rewrite Hflip. simpl. rewrite Hderef.
  destruct Hp as [->|(colors & -> & Hlen)]; [done|]. simpl.
  destruct (ready_table m2 Hr2) as (table2 & Htab2 & Hlen2).
  unfold set_screen_palette, screen_table in *.
  destruct (screen (video m2)) as [scr2|]; [|done]. simpl in *. rewrite Htab2.
  unfold SDL_SetPaletteColors. rewrite Hlen2. simpl.
  replace (Z.of_nat (length colors) <? 256) with true
    by (symmetry; apply Z.ltb_lt; lia).
  done.
Qed.

(** ** The direct branch *)

(** X19.  With [fakePalette] false, [flip] hands the effect chain the local
    array as the stack left it, with [direct] set, and pushes nothing
    itself: the display palette changes only through the call-backs of the
    chain, the current palette is not read, and one frame is presented. *)
Theorem flip_direct_branch m mspf eff stopped stack eff1 shown calls :
  fakePalette (video m) = false → ready m →
  PaletteEffect_apply eff stack true mspf stopped = (eff1, shown, calls) →
  Forall call_ok calls →
  ∃ m' frame,
    flip PaletteEffect_apply m mspf (Some eff) stopped stack
      = Some (m', Some eff1) ∧
    events m' = events m ++ EvApplyEffects true :: (call_event <$> calls) ++
                  [EvPresent frame] ∧
    (calls = [] → screen_table m' = screen_table m).
Proof.
  intros Hfake Hr Happ Hok.
  destruct (ready_table m Hr) as (table & Htab & Htablen).
  destruct (apply_effects_total m eff stack true mspf stopped
              eff1 shown calls table Happ Htab Htablen Hok) as [m1 H1].
  pose proof (apply_effects_ready _ _ _ _ _ _ _ _ _ Hr H1) as Hr1.
  destruct (present_run m1 Hr1)
    as (m' & scr1 & table1 & hs' & frame & Hp & _ & _ & _ & Hm' & _).
  exists m', frame. unfold flip. rewrite Hfake, H1. simpl. rewrite Hp. simpl.
  split; [done|].
  unfold apply_effects in H1. rewrite Happ in H1.
  destruct (changePalette_calls _ calls) as [m1'|] eqn:Hcalls; [|done].
  simpl in H1. injection H1 as ->.
  apply changePalette_calls_inv in Hcalls as Hinv.
  destruct Hinv as (f & _ & Hm1).
  rewrite Hm'. split.
  - simpl. rewrite Hm1. simpl. by rewrite <- !(assoc_L (++)).
  - intros ->. simpl in Hcalls. injection Hcalls as <-. reflexivity.
Qed.


(** ** Creating a surface from pixel data *)

Lemma copy_rows_spec src width rowlen dst ys out :
  0 ≤ width ≤ rowlen → NoDup ys →
  copy_rows src width rowlen dst ys = Some out →
  length out = length dst ∧
  (∀ (y : nat) x, y ∈ ys → 0 ≤ x < width →
     out !! Z.to_nat (rowlen * Z.of_nat y + x)
     = src !! Z.to_nat (width * Z.of_nat y + x)) ∧
  (∀ i : nat,
     (∀ y : nat, y ∈ ys →
        ¬ (rowlen * Z.of_nat y ≤ Z.of_nat i < rowlen * Z.of_nat y + width)) →
     out !! i = dst !! i).
Proof.
  intros Hw Hnodup. revert dst.
  induction Hnodup as [|y rest Hnotin Hnodup IH]; intros dst H; simpl in H.
  { injection H as <-. split; [done|]. split; [|done].
    by intros y x ?%elem_of_nil. }
  destruct (_ || _) eqn:Hbad; [done|].
  apply orb_false_elim in Hbad as [Hsrc Hdst]. apply Z.ltb_ge in Hsrc, Hdst.
  apply IH in H as (Hlen & Hrows & Hother). rewrite length_inserts in Hlen.
  assert (0 ≤ rowlen * Z.of_nat y) by (apply Z.mul_nonneg_nonneg; lia).
  assert (0 ≤ width * Z.of_nat y) by (apply Z.mul_nonneg_nonneg; lia).
  assert (length (take (Z.to_nat width)
                       (drop (Z.to_nat (width * Z.of_nat y)) src))
          = Z.to_nat width) as Hk
    by (rewrite length_take, length_drop; lia).
  split; [done|]. split.
  - intros y0 x Hy0 Hx. apply elem_of_cons in Hy0 as [->|Hy0]; [|by apply Hrows].
    rewrite Hother.
    + rewrite list_lookup_inserts by (rewrite ?Hk; lia).
      rewrite lookup_take_lt by lia. rewrite lookup_drop. f_equal. lia.
    + intros y' Hy' Hin. assert (y' ≠ y) as Hne by (intros ->; done).
      rewrite Z2Nat.id in Hin by lia.
      destruct (decide (y' < y)%nat).
      * assert (rowlen * (Z.of_nat y' + 1) ≤ rowlen * Z.of_nat y)
          by (apply Z.mul_le_mono_nonneg_l; lia). lia.
      * assert (rowlen * (Z.of_nat y + 1) ≤ rowlen * Z.of_nat y')
          by (apply Z.mul_le_mono_nonneg_l; lia). lia.
  - intros i Hi. rewrite Hother by (intros y' Hy'; apply Hi; by right).
    specialize (Hi y ltac:(by left)).
    destruct (decide (Z.of_nat i < rowlen * Z.of_nat y)).
    + apply list_lookup_inserts_lt. lia.
    + apply list_lookup_inserts_ge. rewrite Hk. lia.
Qed.

Lemma copy_rows_total src width rowlen dst ys :
  0 ≤ width →
  (∀ y : nat, y ∈ ys →
     width * Z.of_nat y + width ≤ Z.of_nat (length src) ∧
     rowlen * Z.of_nat y + width ≤ Z.of_nat (length dst)) →
  is_Some (copy_rows src width rowlen dst ys).
Proof.
  intros Hw. revert dst. induction ys as [|y rest IH]; intros dst Hys; simpl.
  { eauto. }
  destruct (Hys y) as [Hsrc Hdst]; [by left|].
  replace ((Z.of_nat (length src) <? width * Z.of_nat y + width)
           || (Z.of_nat (length dst) <? rowlen * Z.of_nat y + width))
    with false by (symmetry; apply orb_false_intro; apply Z.ltb_ge; lia).
  apply IH. intros y' Hy'. rewrite length_inserts. apply Hys. by right.
Qed.

(** X20.  [createSurface] with pixel data uploads it row by row: the pixel
    at column [x] of row [y] of the new surface, which lies [pitch] bytes per
    row apart, is the byte [width * y + x] of the data.  The colour table of
    the surface is filled from the local array that the function never
    initialises, not from any palette of [Video]. *)
Theorem createSurface_uploads_rows src width height palette_local :
  is_Some (SDL_CreateRGBSurface width height 8) →
  width * height ≤ Z.of_nat (length src) →
  (256 ≤ length palette_local)%nat →
  ∃ s,
    createSurface (Some src) width height palette_local = Some s ∧
    w s = width ∧ h s = height ∧
    palette s = Some (take 256 palette_local) ∧
    ∀ x y, 0 ≤ x < width → 0 ≤ y < height →
      pixels s !! Z.to_nat (y * pitch s + x)
      = src !! Z.to_nat (y * width + x).
Proof.
  intros [ret Hret] Hsrc Hpal.
  destruct (SDL_CreateRGBSurface_8 _ _ _ Hret)
    as (table & Htab & Hlen & Hw & Hh & Hbpp & Hwp & Hh0 & Hpx & _).
  unfold createSurface. rewrite Hret. simpl. rewrite Htab.
  destruct (SDL_SetPaletteColors_total table palette_local 0 256) as [pal Hset];
    [lia..|].
  rewrite Hset. apply SDL_SetPaletteColors_inv in Hset as ->. simpl.
  change (Z.to_nat 0) with 0%nat. change (Z.to_nat 256) with 256%nat.
  assert (list_inserts 0 (take 256 palette_local) table = take 256 palette_local)
    as -> by (rewrite <- Hlen; apply list_inserts_whole; lia).
  subst width height.
  destruct (copy_rows_total src (w ret) (pitch ret) (pixels ret)
              (seq 0 (Z.to_nat (h ret)))) as [copied Hcopy]; [lia| |].
  { intros y Hy%elem_of_seq.
    assert (w ret * (Z.of_nat y + 1) ≤ w ret * h ret)
      by (apply Z.mul_le_mono_nonneg_l; lia).
    assert (pitch ret * (Z.of_nat y + 1) ≤ pitch ret * h ret)
      by (apply Z.mul_le_mono_nonneg_l; lia).
    lia. }
  rewrite Hcopy. simpl. eexists. split; [done|]. simpl.
  repeat (split; [done|]).
  apply copy_rows_spec in Hcopy as (_ & Hrows & _); [|lia|apply NoDup_seq].
  intros x y Hx Hy.
  specialize (Hrows (Z.to_nat y) x). rewrite Z2Nat.id in Hrows by lia.
  rewrite (Z.mul_comm y (pitch ret)), (Z.mul_comm y (w ret)).
  apply Hrows; [|done]. apply elem_of_seq. lia.
Qed.

(** X21.  [createSurface] without pixel data returns a surface that is all
    zero, again with the colour table taken from the uninitialised local
    array. *)
Theorem createSurface_without_pixels width height palette_local :
  is_Some (SDL_CreateRGBSurface width height 8) →
  (256 ≤ length palette_local)%nat →
  ∃ s,
    createSurface None width height palette_local = Some s ∧
    w s = width ∧ h s = height ∧
    Forall (λ px, px = 0) (pixels s) ∧
    palette s = Some (take 256 palette_local).
Proof.
  intros [ret Hret] Hpal.
  destruct (SDL_CreateRGBSurface_8 _ _ _ Hret)
    as (table & Htab & Hlen & Hw & Hh & _).
  assert (pixels ret = replicate (length (pixels ret)) 0) as Hzero.
  { unfold SDL_CreateRGBSurface in Hret.
    destruct (_ || _); [done|]. injection Hret as <-. simpl.
    by rewrite length_replicate. }
  unfold createSurface. rewrite Hret. simpl. rewrite Htab.
  destruct (SDL_SetPaletteColors_total table palette_local 0 256) as [pal Hset];
    [lia..|].
  rewrite Hset. apply SDL_SetPaletteColors_inv in Hset as ->. simpl.
  change (Z.to_nat 0) with 0%nat. change (Z.to_nat 256) with 256%nat.
  assert (list_inserts 0 (take 256 palette_local) table = take 256 palette_local)
    as -> by (rewrite <- Hlen; apply list_inserts_whole; lia).
  eexists. split; [done|]. simpl. repeat (split; [done|]).
  split; [|done]. rewrite Hzero. by apply Forall_replicate.
Qed.

End VideoProperties.

(** ** The byte-stream codecs *)

(** C8.  On a stream of length [L], seeking to -1 or to [L + 1] from the
    start fails with [OutOfRange]; seeking to 0 from the start succeeds and
    the position is then 0; in general [seek] fails with [OutOfRange] exactly
    when the target offset is negative or beyond the end of the stream, and
    otherwise moves the cursor to the target. *)
Theorem seek_out_of_range_iff (s : File.ByteStream) :
  File.seek s (-1) true = inl File.OutOfRange ∧
  File.seek s (File.getSize s + 1) true = inl File.OutOfRange ∧
  (∃ s', File.seek s 0 true = inr s' ∧ File.tell s' = 0 ∧
         File.bytes s' = File.bytes s) ∧
  ∀ (offset : Z) (fromStart : bool),
    let target := if fromStart then offset else File.cursor s + offset in
    (File.seek s offset fromStart = inl File.OutOfRange ↔
       target < 0 ∨ File.getSize s < target) ∧
    (0 ≤ target ≤ File.getSize s →
       ∃ s', File.seek s offset fromStart = inr s' ∧ File.tell s' = target ∧
             File.bytes s' = File.bytes s).
Proof.
  assert (0 ≤ File.getSize s) as Hsize by (unfold File.getSize; lia).
  split; [done|]. split.
  { unfold File.seek.
    replace (File.getSize s <? File.getSize s + 1) with true
      by (symmetry; apply Z.ltb_lt; lia).
    by rewrite orb_true_r. }
  split.
  { unfold File.seek.
    replace (File.getSize s <? 0) with false by (symmetry; apply Z.ltb_ge; lia).
    simpl. eauto. }
  intros offset fromStart target. unfold File.seek. fold target.
  destruct (Z.ltb_spec target 0) as [Hneg|Hpos]; simpl.
  { split; [split; [lia|done]|lia]. }
  destruct (Z.ltb_spec (File.getSize s) target) as [Hbig|Hsmall].
  { split; [split; [lia|done]|lia]. }
  split; [split; [done|lia]|]. intros _. eauto.
Qed.

Lemma rle_decode_step control rest n :
  File.rle_decode (control :: rest) (S n) =
  if decide (File.run_length control ≤ S n)%nat then
    if Z.testbit control 7 then
      if decide (File.run_length control ≤ length rest)%nat then
        match File.rle_decode (drop (File.run_length control) rest)
                              (S n - File.run_length control) with
        | inl e => inl e
        | inr (out, tail) => inr (take (File.run_length control) rest ++ out, tail)
        end
      else inl File.DecodeOverrun
    else
      match rest with
      | [] => inl File.DecodeOverrun
      | v :: rest' =>
          match File.rle_decode rest' (S n - File.run_length control) with
          | inl e => inl e
          | inr (out, tail) => inr (replicate (File.run_length control) v ++ out, tail)
          end
      end
  else inl File.DecodeOverrun.
Proof.
  rewrite File.rle_decode_equation_3.
  destruct (decide (File.run_length control ≤ S n)%nat); reflexivity.
Qed.

Lemma rle_decode_length input n out tail :
  File.rle_decode input n = inr (out, tail) → length out = n.
Proof.
  revert input out tail. induction n as [n IH] using lt_wf_ind.
  intros input out tail H. destruct n as [|n].
  { rewrite File.rle_decode_equation_1 in H. by simplify_eq. }
  destruct input as [|control rest].
  { by rewrite File.rle_decode_equation_2 in H. }
  rewrite rle_decode_step in H.
  destruct (decide (File.run_length control ≤ S n)%nat) as [Hle|]; [|done].
  assert (0 < File.run_length control)%nat by (unfold File.run_length; lia).
  destruct (Z.testbit control 7).
  - destruct (decide (File.run_length control ≤ length rest)%nat); [|done].
    destruct (File.rle_decode _ _) as [e|[out' tail']] eqn:Hrec; [done|].
    simplify_eq. apply IH in Hrec; [|lia].
    rewrite length_app, length_take, Hrec. lia.
  - destruct rest as [|v rest']; [done|].
    destruct (File.rle_decode _ _) as [e|[out' tail']] eqn:Hrec; [done|].
    simplify_eq. apply IH in Hrec; [|lia].
    rewrite length_app, length_replicate, Hrec. lia.
Qed.

Lemma rle_decode_literal control rest n :
  Z.testbit control 7 = true →
  (File.run_length control ≤ n)%nat →
  (File.run_length control ≤ length rest)%nat →
  File.rle_decode (control :: rest) n =
  match File.rle_decode (drop (File.run_length control) rest)
                        (n - File.run_length control) with
  | inl e => inl e
  | inr (out, tail) => inr (take (File.run_length control) rest ++ out, tail)
  end.
Proof.
  intros Hbit Hn Hrest. destruct n as [|n]; [unfold File.run_length in Hn; lia|].
  rewrite rle_decode_step, decide_True, Hbit by done.
  by rewrite decide_True by done.
Qed.

Lemma rle_decode_repeat control v rest n :
  Z.testbit control 7 = false →
  (File.run_length control ≤ n)%nat →
  File.rle_decode (control :: v :: rest) n =
  match File.rle_decode rest (n - File.run_length control) with
  | inl e => inl e
  | inr (out, tail) => inr (replicate (File.run_length control) v ++ out, tail)
  end.
Proof.
  intros Hbit Hn. destruct n as [|n]; [unfold File.run_length in Hn; lia|].
  by rewrite rle_decode_step, decide_True, Hbit by done.
Qed.

Lemma rle_decode_overrun control rest n :
  (0 < n < File.run_length control)%nat →
  File.rle_decode (control :: rest) n = inl File.DecodeOverrun.
Proof.
  intros Hn. destruct n as [|n]; [lia|].
  by rewrite rle_decode_step, decide_False by lia.
Qed.

Lemma rle_decode_app input1 n1 out1 input2 n2 :
  File.rle_decode input1 n1 = inr (out1, []) → (0 < n2)%nat →
  File.rle_decode (input1 ++ input2) (n1 + n2) =
  match File.rle_decode input2 n2 with
  | inl e => inl e
  | inr (out, tail) => inr (out1 ++ out, tail)
  end.
Proof.
  revert input1 out1. induction n1 as [n1 IH] using lt_wf_ind.
  intros input1 out1 H Hn2. destruct n1 as [|n1].
  { rewrite File.rle_decode_equation_1 in H. simplify_eq. simpl.
    by destruct (File.rle_decode input2 n2) as [e|[out tail]]. }
  destruct input1 as [|control rest].
  { by rewrite File.rle_decode_equation_2 in H. }
  rewrite rle_decode_step in H.
  destruct (decide (File.run_length control ≤ S n1)%nat) as [Hle|]; [|done].
  assert (0 < File.run_length control)%nat by (unfold File.run_length; lia).
  destruct (Z.testbit control 7) eqn:Hbit.
  - destruct (decide (File.run_length control ≤ length rest)%nat) as [Hrest|];
      [|done].
    destruct (File.rle_decode (drop _ rest) _) as [e|[out' tail']] eqn:Hrec;
      [done|].
    simplify_eq.
    change ((control :: rest) ++ input2) with (control :: (rest ++ input2)).
    rewrite rle_decode_literal; [|done|lia|rewrite length_app; lia].
    rewrite drop_app_le by done.
    replace (S n1 + n2 - File.run_length control)%nat
      with ((S n1 - File.run_length control) + n2)%nat by lia.
    rewrite (IH (S n1 - File.run_length control)%nat ltac:(lia) _ _ Hrec Hn2).
    rewrite take_app_le by done.
    destruct (File.rle_decode input2 n2) as [e|[out tail]]; [done|].
    by rewrite (assoc_L (++)).
  - destruct rest as [|v rest']; [done|].
    destruct (File.rle_decode rest' _) as [e|[out' tail']] eqn:Hrec; [done|].
    simplify_eq.
    change ((control :: v :: rest') ++ input2)
      with (control :: v :: (rest' ++ input2)).
    rewrite rle_decode_repeat; [|done|lia].
    replace (S n1 + n2 - File.run_length control)%nat
      with ((S n1 - File.run_length control) + n2)%nat by lia.
    rewrite (IH (S n1 - File.run_length control)%nat ltac:(lia) _ _ Hrec Hn2).
    destruct (File.rle_decode input2 n2) as [e|[out tail]]; [done|].
    by rewrite (assoc_L (++)).
Qed.

(** C6.  RLE decoding reads a control byte, whose low 7 bits plus 1 are the
    length of the run; with the high bit set that many bytes are copied
    verbatim from the stream, otherwise the one following byte is written
    that many times.  Decoding stops once the declared number of bytes has
    been produced, so a decode that succeeds yields exactly that many bytes,
    and a stream whose control bytes announce more output than declared fails
    with [DecodeOverrun]. *)
Theorem rle_decode_exact_or_overrun :
  (∀ control, File.run_length control = (Z.to_nat (Z.land control 127) + 1)%nat) ∧
  (∀ input, File.rle_decode input 0 = inr ([], input)) ∧
  (∀ control rest n,
     Z.testbit control 7 = true →
     (File.run_length control ≤ n)%nat →
     (File.run_length control ≤ length rest)%nat →
     File.rle_decode (control :: rest) n =
     match File.rle_decode (drop (File.run_length control) rest)
                           (n - File.run_length control) with
     | inl e => inl e
     | inr (out, tail) => inr (take (File.run_length control) rest ++ out, tail)
     end) ∧
  (∀ control v rest n,
     Z.testbit control 7 = false →
     (File.run_length control ≤ n)%nat →
     File.rle_decode (control :: v :: rest) n =
     match File.rle_decode rest (n - File.run_length control) with
     | inl e => inl e
     | inr (out, tail) => inr (replicate (File.run_length control) v ++ out, tail)
     end) ∧
  (∀ input n out tail,
     File.rle_decode input n = inr (out, tail) → length out = n) ∧
  (∀ s n out s',
     File.loadRLE s n = inr (out, s') → length out = Z.to_nat n) ∧
  (∀ input1 n1 out1 control rest n2,
     File.rle_decode input1 n1 = inr (out1, []) →
     (0 < n2 < File.run_length control)%nat →
     File.rle_decode (input1 ++ control :: rest) (n1 + n2)
     = inl File.DecodeOverrun).
Proof.
  split; [intros control; unfold File.run_length; lia|].
  split; [apply File.rle_decode_equation_1|].
  split; [apply rle_decode_literal|].
  split; [apply rle_decode_repeat|].
  split; [apply rle_decode_length|].
  split.
  - intros s n out s' H. unfold File.loadRLE in H.
    destruct (File.rle_decode _ _) as [e|[out' tail]] eqn:Hdec; [done|].
    simplify_eq. by apply rle_decode_length in Hdec.
  - intros input1 n1 out1 control rest n2 H1 Hn2.
    rewrite (rle_decode_app input1 n1 out1) by (done || lia).
    by rewrite rle_decode_overrun.
Qed.

Lemma copy_back_spec out distance n :
  (0 < distance ≤ length out)%nat →
  ∃ ext, File.copy_back out distance n = out ++ ext ∧ length ext = n ∧
         ∀ i, (i < n)%nat →
              (out ++ ext) !! (length out + i)%nat
              = (out ++ ext) !! (length out + i - distance)%nat.
Proof.
  revert out. induction n as [|n IH]; intros out Hd.
  - exists []. simpl. rewrite app_nil_r. split; [done|]. split; [done|]. lia.
  - simpl.
    destruct (lookup_lt_is_Some_2 out (length out - distance)) as [v Hv]; [lia|].
    rewrite Hv.
    destruct (IH (out ++ [v])) as (ext & Hcopy & Hlen & Hext).
    { rewrite length_app. simpl. lia. }
    exists (v :: ext). rewrite Hcopy, <- (assoc_L (++)). simpl.
    split; [done|]. split; [by rewrite Hlen|].
    intros [|i] Hi.
    + rewrite Nat.add_0_r. rewrite list_lookup_middle by done.
      rewrite lookup_app_l by lia. by rewrite Hv.
    + specialize (Hext i ltac:(lia)).
      rewrite <- (assoc_L (++)), length_app in Hext. simpl in Hext.
      replace (length out + S i)%nat with (length out + 1 + i)%nat by lia.
      by rewrite Hext.
Qed.

(** C7.  The LZ decoder copies a back-reference byte by byte and forward, so
    a reference that overlaps the bytes being written repeats them: distance
    1 and length 5 after the single byte 0xAB appends five more 0xAB; in
    general a reference (distance, length) appends [length] bytes, each equal
    to the byte [distance] places before it in the output. *)
Theorem lz_back_reference_forward_copy :
  File.lz_decode [] [File.Literal 171; File.BackReference 1 5]
    = inr (171 :: replicate 5 171) ∧
  File.loadLZ [File.Literal 171; File.BackReference 1 5] 6
    = inr (replicate 6 171) ∧
  ∀ out distance n rest,
    (0 < distance ≤ length out)%nat →
    File.lz_decode out (File.BackReference distance n :: rest)
      = File.lz_decode (File.copy_back out distance n) rest ∧
    ∃ ext, File.copy_back out distance n = out ++ ext ∧ length ext = n ∧
           ∀ i, (i < n)%nat →
                (out ++ ext) !! (length out + i)%nat
                = (out ++ ext) !! (length out + i - distance)%nat.
Proof.
  split; [reflexivity|]. split; [reflexivity|].
  intros out distance n rest Hd. split; [|by apply copy_back_spec].
  simpl. by rewrite decide_False by lia.
Qed.

(** * The statements on the small instance *)

Lemma sample_init :
  init 4 2 sample_start 320 200 false = Some (sample_world, true).
Proof. vm_compute. reflexivity. Qed.

Lemma sample_reachable : reachable sample_apply 4 2 sample_MapRGB sample_world.
Proof. eapply reachable_init. exact sample_init. Qed.

(** The frame of the small instance with the effect chain: the palette shown
    differs from the current palette, which is left as it was. *)
Lemma flip_effects_on_scratch_copy_witness :
  fakePalette (video sample_world) = true ∧ ready sample_world ∧
  ∃ m' cur shown,
    fst <$> flip sample_apply sample_world 16 (Some 0%nat) false [] = Some m' ∧
    deref sample_world (getPalette sample_world) = Some cur ∧
    screen_table m' = Some shown ∧ shown ≠ cur ∧
    deref m' (getPalette m') = Some cur.
Proof.
  split; [reflexivity|]. split; [apply readyb_ready; vm_compute; reflexivity|].
  destruct (flip_effects_on_scratch_copy nat sample_apply sample_world 16
              0%nat false []
              (logicalPalette (video sample_world))
              1%nat
              (sample_apply 0%nat (take 256 (logicalPalette (video sample_world)))
                            false 16 false).1.2
              [])
    as (m' & frame & Hflip & Htab & Hev & Hptr & Hcur).
  - reflexivity.
  - apply readyb_ready. vm_compute. reflexivity.
  - reflexivity.
  - vm_compute. lia.
  - reflexivity.
  - vm_compute. lia.
  - constructor.
  - exists m', (logicalPalette (video sample_world)).
    eexists. rewrite Hflip. split; [reflexivity|]. split; [reflexivity|].
    split; [exact Htab|]. split; [|exact Hcur].
    vm_compute. discriminate.
Defined.

(** Every pixel of the frame of the small instance is the colour of its
    palette index in the scratch palette. *)
Lemma flip_remaps_every_pixel_witness :
  fakePalette (video sample_world) = true ∧ ready sample_world ∧
  effects_ok sample_apply sample_world (Some 0%nat) 16 false ∧
  ∃ m' table frame,
    fst <$> flip sample_apply sample_world 16 (Some 0%nat) false [] = Some m' ∧
    pushed_table sample_apply sample_world (Some 0%nat) 16 false = Some table ∧
    screen_table m' = Some table ∧
    last (events m') = Some (EvPresent frame) ∧
    frame !! 7%nat = RGBColor <$> table !! 0%nat.
Proof.
  assert (ready sample_world) as Hr
    by (apply readyb_ready; vm_compute; reflexivity).
  assert (effects_ok sample_apply sample_world (Some 0%nat) 16 false) as Hok.
  { exists (logicalPalette (video sample_world)). split; [reflexivity|].
    split; [vm_compute; lia|]. cbv zeta.
    split; [vm_compute; lia|constructor]. }
  split; [reflexivity|]. split; [exact Hr|]. split; [exact Hok|].
  destruct (flip_remaps_every_pixel nat sample_apply sample_world 16
              (Some 0%nat) false [] eq_refl Hr Hok)
    as (m' & effs' & scr & table & frame & Hflip & Hscr & Hpush & Htab & Hlast
        & Hpx).
  exists m', table, frame.
  rewrite Hflip.
  split; [reflexivity|].
  split; [exact Hpush|].
  split; [exact Htab|].
  split; [exact Hlast|].
  assert (w scr = 4 ∧ h scr = 2 ∧ pixels scr = replicate 8 0)
    as (Hw & Hh & Hpix).
  { assert ((fun s => (w s, h s, pixels s)) <$> screen (video sample_world)
            = Some (4, 2, replicate 8 0)) as H by (vm_compute; reflexivity).
    rewrite Hscr in H. injection H. auto. }
  destruct (Hpx 7%nat) as (index & c & Hindex & Hc & Hframe & _).
  { rewrite Hw, Hh. vm_compute. lia. }
  rewrite Hpix in Hindex. injection Hindex as <-.
  change (Z.to_nat (to_uint8 0)) with 0%nat in Hc.
  rewrite Hframe, Hc. reflexivity.
Defined.

(** The update of entries 10 to 14 on the small instance. *)
Lemma changePalette_touches_only_range_witness :
  ∃ m' table table',
    changePalette sample_world sample_colors 10 5 = Some m' ∧
    screen_table sample_world = Some table ∧
    screen_table m' = Some table' ∧
    table' !! 9%nat = table !! 9%nat ∧
    table' !! 10%nat = Some (mkColor 1 2 3 4) ∧
    table' !! 14%nat = Some (mkColor 1 2 3 4) ∧
    table' !! 15%nat = table !! 15%nat ∧
    screen_pixels m' = screen_pixels sample_world ∧
    length (events m') = S (length (events sample_world)).
Proof.
  destruct (changePalette_touches_only_range sample_world sample_colors 10 5
              (logicalPalette (video sample_world)))
    as (m' & table' & Hchange & Htab' & Hlen & Hout & Hin & Hpx & Hhs & Hev).
  - lia.
  - vm_compute. split; discriminate.
  - lia.
  - vm_compute. reflexivity.
  - vm_compute. reflexivity.
  - exists m', (logicalPalette (video sample_world)), table'.
    split; [exact Hchange|]. split; [vm_compute; reflexivity|].
    split; [exact Htab'|].
    split; [apply Hout; lia|].
    split; [rewrite Hin by lia; reflexivity|].
    split; [rewrite Hin by lia; reflexivity|].
    split; [apply Hout; lia|].
    split; [exact Hpx|].
    rewrite Hev, length_app. cbn [length]. lia.
Defined.

(** Replacing the palette of the small instance by the palette the caller
    holds at address 1. *)
Lemma setPalette_blanks_presents_then_replaces_witness :
  ready sample_world ∧
  ∃ m' frame,
    setPalette sample_apply sample_MapRGB sample_world (CallerPalette 1) = Some m' ∧
    events m' = events sample_world ++
                [EvFillRect None 0; EvPresent frame;
                 EvSetPaletteColors 0 256 (replicate 256 (mkColor 10 20 30 0))] ∧
    screen_table m' = Some (replicate 256 (mkColor 10 20 30 0)) ∧
    getPalette m' = CallerPalette 1.
Proof.
  assert (ready sample_world) as Hr
    by (apply readyb_ready; vm_compute; reflexivity).
  split; [exact Hr|].
  destruct (setPalette_blanks_presents_then_replaces nat sample_apply
              sample_MapRGB sample_world (CallerPalette 1)
              (replicate 256 (mkColor 10 20 30 0)) Hr)
    as (m' & scr & scr' & table & frame & Hset & Hscr & Hpal & Hscr' & Hev
        & Hblank & Hframe & Hpal' & Hget & Hderef).
  - vm_compute. reflexivity.
  - vm_compute. lia.
  - exists m', frame. split; [exact Hset|]. split; [exact Hev|].
    split; [|exact Hget].
    unfold screen_table. rewrite Hscr'. exact Hpal'.
Defined.

(** The constructor on the raw memory of the small instance, and one
    operation on its world. *)
Lemma logicalPalette_identity_and_fixed_witness :
  length (logicalPalette sample_raw) = 256%nat ∧
  currentPalette (Video_Video sample_raw) = LogicalPalettePtr ∧
  logicalPalette (Video_Video sample_raw) !! 200%nat
    = Some (mkColor 200 200 200 0) ∧
  logicalPalette (video (clearScreen sample_world 3))
    = logicalPalette (video sample_world).
Proof.
  assert (length (logicalPalette sample_raw) = 256%nat) as Hlen
    by (vm_compute; reflexivity).
  destruct (logicalPalette_identity_and_fixed nat sample_apply 4 2 sample_MapRGB)
    as [Hctor Hops].
  destruct (Hctor sample_raw Hlen) as (Hptr & _ & _ & Hid).
  split; [exact Hlen|]. split; [exact Hptr|]. split.
  - destruct (Hid 200) as (c & Hc & Hr & Hg & Hb); [lia|].
    change (Z.to_nat 200) with 200%nat in Hc. rewrite Hc.
    vm_compute in Hc. injection Hc as <-. reflexivity.
  - apply (Hops sample_world (OpClearScreen nat 3)). reflexivity.
Defined.

(** The small instance is reachable, hence in emulated mode. *)
Lemma fakePalette_always_emulated_witness :
  reachable sample_apply 4 2 sample_MapRGB sample_world ∧
  fakePalette (video sample_world) = true ∧
  EvApplyEffects true ∉ events sample_world.
Proof.
  pose proof sample_reachable as Hreach.
  split; [exact Hreach|].
  apply (proj2 (proj2 (proj2
           (fakePalette_always_emulated nat sample_apply 4 2 sample_MapRGB)))).
  exact Hreach.
Defined.

(** On the small instance the entries installed by [changePalette] are gone
    after the next frame with the effect chain. *)
Lemma changePalette_discarded_by_flip_witness :
  ∃ m1 m2 table,
    changePalette sample_world sample_colors 10 5 = Some m1 ∧
    getPalette m1 = getPalette sample_world ∧
    screen_table m1 ≫= (.!! 10%nat) ≠ screen_table sample_world ≫= (.!! 10%nat) ∧
    fst <$> flip sample_apply m1 16 (Some 0%nat) false [] = Some m2 ∧
    scratch_palette sample_apply sample_world 0%nat 16 false = Some table ∧
    screen_table m2 = Some table.
Proof.
  destruct (changePalette sample_world sample_colors 10 5) as [m1|] eqn:Hchange.
  2:{ vm_compute in Hchange. discriminate. }
  destruct (changePalette_discarded_by_flip nat sample_apply 4 2 sample_MapRGB
              sample_world sample_colors 10 5 m1 Hchange)
    as (Hptr & Hderef & Hflip).
  destruct (Hflip ltac:(lia) sample_reachable 16 0%nat false []
              (logicalPalette (video sample_world))
              1%nat
              (sample_apply 0%nat (take 256 (logicalPalette (video sample_world)))
                            false 16 false).1.2
              [])
    as (m2 & frame & Hrun & Htab & Hev).
  - reflexivity.
  - vm_compute. lia.
  - reflexivity.
  - vm_compute. lia.
  - constructor.
  - exists m1, m2. eexists.
    split; [reflexivity|]. split; [exact Hptr|]. split.
    + assert (Some m1 ≫= (fun m => screen_table m ≫= (.!! 10%nat))
              = Some (mkColor 1 2 3 4)) as H1
        by (rewrite <- Hchange; vm_compute; reflexivity).
      assert (screen_table sample_world ≫= (.!! 10%nat)
              = Some (mkColor 10 10 10 0)) as H2 by (vm_compute; reflexivity).
      change (screen_table m1 ≫= (.!! 10%nat) = Some (mkColor 1 2 3 4)) in H1.
      rewrite H1, H2. discriminate.
    + rewrite Hrun. split; [reflexivity|]. split; [reflexivity|]. exact Htab.
Defined.

(** A literal run of three bytes followed by a repeat run of two: decoded to
    the five bytes declared, and refused when only four are declared. *)
Lemma rle_decode_exact_or_overrun_witness :
  File.rle_decode [130; 1; 2; 3; 1; 9] 5 = inr ([1; 2; 3; 9; 9], []) ∧
  length [1; 2; 3; 9; 9] = 5%nat ∧
  File.rle_decode ([130; 1; 2; 3] ++ 1 :: [9]) (3 + 1) = inl File.DecodeOverrun.
Proof.
  destruct rle_decode_exact_or_overrun
    as (_ & _ & _ & _ & Hlen & _ & Hover).
  assert (File.rle_decode [130; 1; 2; 3; 1; 9] 5 = inr ([1; 2; 3; 9; 9], []))
    as Hdec by (vm_compute; reflexivity).
  split; [exact Hdec|]. split; [exact (Hlen _ _ _ _ Hdec)|].
  apply (Hover [130; 1; 2; 3] 3%nat [1; 2; 3] 1 [9] 1%nat).
  - vm_compute. reflexivity.
  - vm_compute. lia.
Defined.

(** The overlapping reference of the specification: distance 1, length 5,
    after the single byte 0xAB. *)
Lemma lz_back_reference_forward_copy_witness :
  (0 < 1 ≤ length [171])%nat ∧
  File.copy_back [171] 1 5 = [171] ++ replicate 5 171 ∧
  ∃ ext, File.copy_back [171] 1 5 = [171] ++ ext ∧ length ext = 5%nat ∧
         ∀ i, (i < 5)%nat →
              ([171] ++ ext) !! (length [171] + i)%nat
              = ([171] ++ ext) !! (length [171] + i - 1)%nat.
Proof.
  assert (0 < 1 ≤ length [171])%nat as Hd by (simpl; lia).
  split; [exact Hd|]. split; [reflexivity|].
  exact (proj2 (proj2 (proj2 lz_back_reference_forward_copy) [171] 1%nat 5%nat [] Hd)).
Defined.

(** A stream of four bytes with the cursor at 2. *)
Lemma seek_out_of_range_iff_witness :
  File.seek (File.mkStream [1; 2; 3; 4] 2) (-1) true = inl File.OutOfRange ∧
  File.seek (File.mkStream [1; 2; 3; 4] 2) 5 true = inl File.OutOfRange ∧
  File.seek (File.mkStream [1; 2; 3; 4] 2) 3 false = inl File.OutOfRange ∧
  ∃ s', File.seek (File.mkStream [1; 2; 3; 4] 2) 2 false = inr s' ∧
        File.tell s' = 4.
Proof.
  destruct (seek_out_of_range_iff (File.mkStream [1; 2; 3; 4] 2))
    as (Hneg & Hbig & _ & Hgen).
  split; [exact Hneg|]. split; [exact Hbig|]. split.
  - apply (proj1 (Hgen 3 false)). right. vm_compute. reflexivity.
  - destruct (proj2 (Hgen 2 false)) as (s' & Hs & Ht & _).
    + vm_compute. split; discriminate.
    + exists s'. split; [exact Hs|exact Ht].
Defined.

(** * The further statements on the small instance *)

Lemma flip_keeps_framebuffer_and_palette_witness :
  ∃ m', fst <$> flip sample_apply sample_world 16 (Some 0%nat) false [] = Some m' ∧
        screen_pixels m' = screen_pixels sample_world ∧
        getPalette m' = getPalette sample_world.
Proof.
  destruct (flip sample_apply sample_world 16 (Some 0%nat) false [])
    as [[m' effs']|] eqn:Hflip.
  2:{ vm_compute in Hflip. discriminate. }
  destruct (flip_keeps_framebuffer_and_palette nat sample_apply sample_world 16
              (Some 0%nat) false [] m' effs' Hflip) as (Hpx & Hptr & _).
  exists m'. split; [reflexivity|]. split; [exact Hpx|exact Hptr].
Defined.

Lemma expose_installs_current_palette_witness :
  ∃ m', expose sample_world = Some m' ∧
        screen_table m' = Some (take 256 (logicalPalette (video sample_world))) ∧
        screen_pixels m' = screen_pixels sample_world.
Proof.
  destruct (expose_installs_current_palette sample_world
              (logicalPalette (video sample_world))
              (logicalPalette (video sample_world)))
    as (m' & Hexp & Htab & _ & Hpx & _).
  - vm_compute. reflexivity.
  - vm_compute. reflexivity.
  - vm_compute. lia.
  - reflexivity.
  - vm_compute. lia.
  - exists m'. split; [exact Hexp|]. split; [exact Htab|exact Hpx].
Defined.

Lemma changePalette_discarded_by_expose_witness :
  ∃ m1 m2,
    changePalette sample_world sample_colors 10 5 = Some m1 ∧
    expose m1 = Some m2 ∧
    screen_table m2 = Some (take 256 (logicalPalette (video sample_world))).
Proof.
  destruct (changePalette sample_world sample_colors 10 5) as [m1|] eqn:Hchange.
  2:{ vm_compute in Hchange. discriminate. }
  destruct (changePalette_discarded_by_expose sample_world sample_colors 10 5 m1
              (logicalPalette (video sample_world))
              (logicalPalette (video sample_world)) Hchange)
    as (m2 & Hexp & Htab).
  - vm_compute. reflexivity.
  - vm_compute. reflexivity.
  - vm_compute. lia.
  - reflexivity.
  - vm_compute. lia.
  - exists m1, m2. split; [reflexivity|]. split; [exact Hexp|exact Htab].
Defined.

Lemma sample_surface : is_Some (SDL_CreateRGBSurface 4 2 8).
Proof. eexists. reflexivity. Qed.

Lemma reset_new_framebuffer_of_default_size_witness :
  ∃ m' scr',
    reset 4 2 sample_world 640 480 = Some (m', true) ∧
    screen (video m') = Some scr' ∧ w scr' = 4 ∧ h scr' = 2 ∧
    getWidth m' = 640 ∧ getHeight m' = 480.
Proof.
  destruct (reset_new_framebuffer_of_default_size 4 2 sample_world 640 480
              (logicalPalette (video sample_world)) sample_surface)
    as (m' & scr' & Hreset & Hscr & Hw & Hh & _ & _ & Hgw & Hgh & _).
  - vm_compute. lia.
  - reflexivity.
  - vm_compute. lia.
  - exists m', scr'. auto 10.
Defined.

Lemma init_records_size_and_mode_witness :
  ∃ m',
    init 4 2 sample_start 320 200 true = Some (m', true) ∧
    getWidth m' = 320 ∧ getHeight m' = 200 ∧ isFullscreen m' = true ∧
    getMaxWidth m' = 4 ∧ getMaxHeight m' = 2.
Proof.
  destruct (init_records_size_and_mode 4 2 sample_start 320 200 true
              (logicalPalette (video sample_start)) sample_surface)
    as (m' & Hinit & Hw & Hh & Hfs & Hmw & Hmh & _).
  - vm_compute. lia.
  - reflexivity.
  - vm_compute. lia.
  - exists m'. auto 10.
Defined.

Lemma setPalette_survives_reset_witness :
  ∃ m1 m2,
    setPalette sample_apply sample_MapRGB sample_world (CallerPalette 1) = Some m1 ∧
    reset 4 2 m1 640 480 = Some (m2, true) ∧
    screen_table m2 = Some (replicate 256 (mkColor 10 20 30 0)) ∧
    getPalette m2 = CallerPalette 1.
Proof.
  destruct (setPalette sample_apply sample_MapRGB sample_world (CallerPalette 1))
    as [m1|] eqn:Hset.
  2:{ vm_compute in Hset. discriminate. }
  destruct (setPalette_survives_reset nat sample_apply 4 2 sample_MapRGB
              sample_world (CallerPalette 1) m1
              (replicate 256 (mkColor 10 20 30 0)) 640 480 Hset)
    as (m2 & Hreset & Htab & Hptr).
  - vm_compute. reflexivity.
  - vm_compute. lia.
  - vm_compute. lia.
  - exact sample_surface.
  - exists m1, m2. split; [reflexivity|]. split; [exact Hreset|].
    split; [exact Htab|exact Hptr].
Defined.

Lemma update_alt_enter_twice_witness :
  ∃ m1 m2,
    update 4 2 sample_world (SDL_KEYDOWN SDLK_RETURN 256) = Some m1 ∧
    update 4 2 m1 (SDL_KEYDOWN SDLK_RETURN 256) = Some m2 ∧
    isFullscreen m1 = true ∧ isFullscreen m2 = false ∧
    getPalette m2 = getPalette sample_world.
Proof.
  destruct (update 4 2 sample_world (SDL_KEYDOWN SDLK_RETURN 256))
    as [m1|] eqn:H1.
  2:{ vm_compute in H1. discriminate. }
  assert (is_Some (update 4 2 m1 (SDL_KEYDOWN SDLK_RETURN 256))) as [m2 H2].
  { assert (is_Some (Some m1 ≫= (λ m, update 4 2 m (SDL_KEYDOWN SDLK_RETURN 256))))
      as Hs by (rewrite <- H1; vm_compute; eauto).
    exact Hs. }
  destruct (update_alt_enter_twice 4 2 sample_world 256 m1 m2) as
    (Hf1 & Hf2 & _ & _ & Hptr); [vm_compute; discriminate|exact H1|exact H2|].
  exists m1, m2. split; [reflexivity|]. split; [exact H2|].
  split; [exact Hf1|]. split; [exact Hf2|exact Hptr].
Defined.

Lemma sample_ready : ready sample_world.
Proof. apply readyb_ready. vm_compute. reflexivity. Qed.

Lemma sample_screen scr :
  screen (video sample_world) = Some scr →
  w scr = 4 ∧ h scr = 2 ∧ pitch scr = 4 ∧ pixels scr = replicate 8 0.
Proof.
  intros Hscr.
  assert ((λ s, (w s, h s, pitch s, pixels s)) <$> screen (video sample_world)
          = Some (4, 2, 4, replicate 8 0)) as H by (vm_compute; reflexivity).
  rewrite Hscr in H. injection H. auto.
Qed.

Lemma clearScreen_fills_framebuffer_witness :
  ready sample_world ∧
  ∃ scr', screen (video (clearScreen sample_world 259)) = Some scr' ∧
          blank scr' 3 ∧
          screen_table (clearScreen sample_world 259) = screen_table sample_world.
Proof.
  split; [exact sample_ready|].
  destruct (clearScreen_fills_framebuffer sample_world 259 sample_ready)
    as (scr' & Hscr & Hblank & Htab & _).
  exists scr'. split; [exact Hscr|]. split; [exact Hblank|exact Htab].
Defined.

Lemma drawRect_fills_clipped_rectangle_witness :
  ∃ scr1 scr2,
    screen (video (drawRect sample_world 1 0 2 1 7)) = Some scr1 ∧
    pixels scr1 !! 1%nat = Some 7 ∧
    screen (video (drawRect sample_world 2 0 2 1 7)) = Some scr2 ∧
    pixels scr2 !! 1%nat = Some 0.
Proof.
  destruct (screen (video sample_world)) as [scr0|] eqn:Hscr0.
  2:{ vm_compute in Hscr0. discriminate. }
  destruct (sample_screen scr0 Hscr0) as (Hw & Hh & Hp & Hpix).
  assert (∃ scr, screen (video sample_world) = Some scr ∧
                 0 ≤ 1 < w scr ∧ 0 ≤ 0 < h scr) as Hpos.
  { exists scr0. split; [exact Hscr0|]. rewrite Hw, Hh. lia. }
  assert (rect_fits 1 0 2 1 ∧ rect_fits 2 0 2 1) as [Hfit1 Hfit2]
    by (unfold rect_fits; lia).
  destruct (drawRect_fills_clipped_rectangle sample_world 1 0 2 1 7 1 0
              sample_ready Hfit1 Hpos)
    as (sa & scr1 & old1 & Hsa & Hscr1 & Hold1 & Hnew1 & _).
  destruct (drawRect_fills_clipped_rectangle sample_world 2 0 2 1 7 1 0
              sample_ready Hfit2 Hpos)
    as (sb & scr2 & old2 & Hsb & Hscr2 & Hold2 & Hnew2 & _).
  rewrite Hscr0 in Hsa, Hsb. injection Hsa as <-. injection Hsb as <-.
  rewrite Hpix in Hold2. injection Hold2 as <-.
  exists scr1, scr2. split; [exact Hscr1|]. split; [exact Hnew1|].
  split; [exact Hscr2|exact Hnew2].
Defined.

Lemma changePalette_visible_without_effects_witness :
  ready sample_world ∧
  ∃ m1 m2,
    changePalette sample_world sample_colors 10 5 = Some m1 ∧
    fst <$> flip sample_apply m1 16 None false [] = Some m2 ∧
    screen_table m2 = screen_table m1 ∧
    screen_table m2 ≫= (.!! 10%nat) = Some (mkColor 1 2 3 4).
Proof.
  split; [exact sample_ready|].
  destruct (changePalette sample_world sample_colors 10 5) as [m1|] eqn:Hchange.
  2:{ vm_compute in Hchange. discriminate. }
  destruct (changePalette_visible_without_effects nat sample_apply sample_world
              sample_colors 10 5 m1 16 false [] Hchange sample_ready)
    as (m2 & scr & table1 & frame & Hflip & _ & Ht1 & Ht2 & _).
  exists m1, m2. split; [reflexivity|]. rewrite Hflip.
  split; [reflexivity|]. split; [congruence|].
  rewrite Ht2, <- Ht1.
  assert (Some m1 ≫= (λ m, screen_table m ≫= (.!! 10%nat))
          = Some (mkColor 1 2 3 4)) as H
    by (rewrite <- Hchange; vm_compute; reflexivity).
  exact H.
Defined.

Lemma flip_defined_in_reachable_worlds_witness :
  ∃ m' frame,
    flip sample_apply sample_world 16 None false [] = Some (m', None) ∧
    events m' = events sample_world ++ [EvPresent frame] ∧
    reachable sample_apply 4 2 sample_MapRGB m'.
Proof.
  apply (flip_defined_in_reachable_worlds nat sample_apply 4 2 sample_MapRGB
           sample_world 16 false []).
  - lia.
  - exact sample_reachable.
Defined.

Lemma flip_presents_opaque_pixels_witness :
  ∃ m' frame px,
    fst <$> flip sample_apply sample_world 16 (Some 0%nat) false [] = Some m' ∧
    last (events m') = Some (EvPresent frame) ∧
    frame !! 0%nat = Some px ∧ channel px 0 = 255.
Proof.
  destruct (flip sample_apply sample_world 16 (Some 0%nat) false [])
    as [[m' effs']|] eqn:Hflip.
  2:{ vm_compute in Hflip. discriminate. }
  destruct (screen (video sample_world)) as [scr0|] eqn:Hscr0.
  2:{ vm_compute in Hscr0. discriminate. }
  destruct (sample_screen scr0 Hscr0) as (Hw & Hh & _).
  destruct (flip_presents_opaque_pixels nat sample_apply sample_world 16
              (Some 0%nat) false [] m' effs' scr0 Hflip Hscr0)
    as (frame & Hlast & Hpx).
  destruct (Hpx 0%nat) as (px & Hframe & Halpha & _).
  { rewrite Hw, Hh. vm_compute. lia. }
  exists m', frame, px. split; [reflexivity|]. split; [exact Hlast|].
  split; [exact Hframe|exact Halpha].
Defined.

Lemma restoreSurfacePalette_installs_grey_ramp_witness :
  ∃ surface' table' c,
    restoreSurfacePalette (Video_Video sample_raw)
      (mkSurface 2 1 4 8 [5; 6; 0; 0] (Some (replicate 256 white)))
    = Some surface' ∧
    pixels surface' = [5; 6; 0; 0] ∧
    palette surface' = Some table' ∧
    table' !! 100%nat = Some c ∧ r c = 100 ∧ g c = 100 ∧ b c = 100.
Proof.
  destruct (proj2 restoreSurfacePalette_installs_grey_ramp sample_raw
              (mkSurface 2 1 4 8 [5; 6; 0; 0] (Some (replicate 256 white)))
              (replicate 256 white))
    as (surface' & table' & Hrestore & Hpx & _ & _ & Hpal & Hramp).
  - vm_compute. reflexivity.
  - reflexivity.
  - vm_compute. reflexivity.
  - destruct (Hramp 100) as (c & Hc & Hr & Hg & Hb); [lia|].
    exists surface', table', c. split; [exact Hrestore|]. split; [exact Hpx|].
    split; [exact Hpal|]. split; [exact Hc|]. auto.
Defined.

Lemma currentPalette_assigned_by_setPalette_only_witness :
  getPalette (clearScreen sample_world 3) = getPalette sample_world ∧
  ∃ m', setPalette sample_apply sample_MapRGB sample_world (CallerPalette 1)
        = Some m' ∧
        getPalette m' = CallerPalette 1 ∧ memory m' = memory sample_world.
Proof.
  split.
  - exact (proj2 (currentPalette_assigned_by_setPalette_only nat sample_apply 4 2
                    sample_MapRGB sample_world (OpClearScreen nat 3)
                    (clearScreen sample_world 3) eq_refl)).
  - destruct (setPalette sample_apply sample_MapRGB sample_world (CallerPalette 1))
      as [m'|] eqn:Hset.
    2:{ vm_compute in Hset. discriminate. }
    destruct (currentPalette_assigned_by_setPalette_only nat sample_apply 4 2
                sample_MapRGB sample_world (OpSetPalette nat (CallerPalette 1))
                m' Hset) as [Hmem Hptr].
    exists m'. split; [reflexivity|]. split; [exact Hptr|exact Hmem].
Defined.

Lemma sample_table :
  screen_table sample_world = Some (logicalPalette (video sample_world)).
Proof. vm_compute. reflexivity. Qed.

Lemma changePalette_clamped_at_table_end_witness :
  ∃ m' table',
    changePalette sample_world (replicate 6 (mkColor 1 2 3 4)) 250 10 = Some m' ∧
    screen_table m' = Some table' ∧
    table' !! 249%nat = Some (mkColor 249 249 249 0) ∧
    table' !! 250%nat = Some (mkColor 1 2 3 4) ∧
    table' !! 255%nat = Some (mkColor 1 2 3 4) ∧
    table' !! 256%nat = None.
Proof.
  destruct (changePalette_clamped_at_table_end sample_world
              (replicate 6 (mkColor 1 2 3 4)) 250 10
              (logicalPalette (video sample_world)) sample_table)
    as (m' & table' & Hchange & Htab & Hlen & Hbelow & Hin).
  - vm_compute. reflexivity.
  - lia.
  - lia.
  - vm_compute. discriminate.
  - exists m', table'. split; [exact Hchange|]. split; [exact Htab|].
    split; [|split; [|split]].
    + rewrite Hbelow by lia. vm_compute. reflexivity.
    + rewrite Hin by lia. reflexivity.
    + rewrite Hin by lia. reflexivity.
    + apply lookup_ge_None_2. rewrite Hlen. lia.
Defined.

Lemma changePalette_amount_beyond_int_witness :
  to_int32 4294967295 < 0 ∧
  changePalette sample_world sample_colors 0 4294967295 = None.
Proof.
  apply (changePalette_amount_beyond_int sample_world sample_colors 0 4294967295
           (logicalPalette (video sample_world)) sample_table).
  lia.
Defined.

Lemma setPalette_needs_256_colours_witness :
  setPalette sample_apply sample_MapRGB sample_world (CallerPalette 7) = None ∧
  setPalette sample_apply sample_MapRGB
    (mkWorld (video sample_world) 320 200 {[ 2%nat := sample_colors ]} [])
    (CallerPalette 2) = None.
Proof.
  split.
  - apply (setPalette_needs_256_colours nat sample_apply sample_MapRGB
             sample_world (CallerPalette 7) sample_ready).
    left. vm_compute. reflexivity.
  - apply (setPalette_needs_256_colours nat sample_apply sample_MapRGB).
    + apply readyb_ready. vm_compute. reflexivity.
    + right. exists sample_colors. split; [vm_compute; reflexivity|].
      vm_compute. lia.
Defined.

Lemma flip_direct_branch_witness :
  ∃ m' frame shown,
    flip sample_apply
      (set_video sample_world (set_fakePalette (video sample_world) false))
      16 (Some 0%nat) false (replicate 256 white) = Some (m', Some 1%nat) ∧
    events m' = events sample_world ++
                  [EvApplyEffects true; EvSetPaletteColors 0 256 shown;
                   EvPresent frame].
Proof.
  destruct (flip_direct_branch nat sample_apply
              (set_video sample_world (set_fakePalette (video sample_world) false))
              16 0%nat false (replicate 256 white) 1%nat
              ((λ c, mkColor (to_uint8 (r c + 16)) (g c) (b c) (a c))
                 <$> replicate 256 white)
              [((λ c, mkColor (to_uint8 (r c + 16)) (g c) (b c) (a c))
                  <$> replicate 256 white, 0, 256)])
    as (m' & frame & Hflip & Hev & _).
  - reflexivity.
  - apply readyb_ready. vm_compute. reflexivity.
  - reflexivity.
  - apply Forall_cons. split; [|apply Forall_nil_2].
    unfold call_ok. vm_compute. split; discriminate.
  - exists m', frame. eexists. split; [exact Hflip|]. exact Hev.
Defined.

Lemma createSurface_uploads_rows_witness :
  ∃ s,
    createSurface (Some [1; 2; 3; 4; 5; 6]) 3 2 (replicate 256 white) = Some s ∧
    pitch s = 4 ∧
    pixels s !! 5%nat = Some 5 ∧
    palette s = Some (replicate 256 white).
Proof.
  destruct (createSurface_uploads_rows [1; 2; 3; 4; 5; 6] 3 2
              (replicate 256 white))
    as (s & Hcreate & _ & _ & Hpal & Hrows).
  - eexists. reflexivity.
  - vm_compute. discriminate.
  - vm_compute. lia.
  - assert (pitch <$> createSurface (Some [1; 2; 3; 4; 5; 6]) 3 2
                        (replicate 256 white) = Some 4) as Hpitch
      by (vm_compute; reflexivity).
    rewrite Hcreate in Hpitch. injection Hpitch as Hpitch.
    exists s. split; [exact Hcreate|]. split; [exact Hpitch|].
    split; [|exact Hpal].
    specialize (Hrows 1 1 ltac:(lia) ltac:(lia)).
    rewrite Hpitch in Hrows. exact Hrows.
Defined.

Lemma createSurface_without_pixels_witness :
  ∃ s,
    createSurface None 3 2 (replicate 256 white) = Some s ∧
    w s = 3 ∧ h s = 2 ∧
    Forall (λ px, px = 0) (pixels s) ∧
    palette s = Some (replicate 256 white).
Proof.
  apply (createSurface_without_pixels 3 2 (replicate 256 white)).
  - eexists. reflexivity.
  - vm_compute. lia.
Defined.
